(** * ResumeIQ: the plain-text resume layout engine

    A shallow embedding of [ResumeEnhancerService.to_docx] and of the helpers
    it calls (backend/services/resume_enhancer.py), with the properties the
    specification states about it.

    Text is a Python [str]: a sequence of Unicode code points, here [list Z].
    The document is the python-docx object tree that [to_docx] builds, before
    it is serialised: sections with their margins, the Normal style, and the
    paragraphs with their runs.  python-docx is taken as a total builder; the
    checks it makes when a run's text is written into XML are not modelled. *)

From Stdlib Require Import ZArith List Bool Lia String Ascii Arith.
Import ListNotations.

Set Implicit Arguments.
Local Open Scope string_scope.
Local Open Scope list_scope.

(* ================================================================== *)
(** * Code points and the interpreter's character database *)
(* ================================================================== *)

Definition text := list Z.

(** An ASCII literal of the source, as code points. *)
Definition str (s : string) : text :=
  map (fun a => Z.of_N (N_of_ascii a)) (list_ascii_of_string s).

(** The non-ASCII characters the source names. *)
Definition MIDDLE_DOT    : Z := 183.    (* U+00B7 *)
Definition EN_DASH       : Z := 8211.   (* U+2013 *)
Definition BULLET        : Z := 8226.   (* U+2022 *)
Definition SMALL_SQUARE  : Z := 9642.   (* U+25AA *)
Definition WHITE_CIRCLE  : Z := 9675.   (* U+25CB *)
Definition WHITE_BULLET  : Z := 9702.   (* U+25E6 *)
Definition FOUR_STAR     : Z := 10022.  (* U+2726 *)

(** What the interpreter's Unicode database says about code points outside
    ASCII, where the program depends on it.  The database is not part of the
    repository and changes with the interpreter's version, so it is a
    parameter of the development:
    - [ucd_decimal c]: [c] is a decimal digit (category Nd), for [\d];
    - [ucd_lower s i c]: the lower case of the code point [c] at index [i]
      of [s], as [str.lower] computes it (the context matters for U+03A3);
    - [ucd_upper c]: the upper case of [c], as [str.upper] computes it. *)
Record UnicodeData := {
  ucd_decimal : Z -> bool;
  ucd_lower   : text -> nat -> Z -> text;
  ucd_upper   : Z -> text
}.

(** A database in which no code point outside ASCII is a digit or has case.
    Every version of the Unicode database agrees with it on text whose
    non-ASCII characters are punctuation marks such as the bullet and the
    en dash. *)
Definition ucd_caseless : UnicodeData := {|
  ucd_decimal := fun _ => false;
  ucd_lower   := fun _ _ c => [c];
  ucd_upper   := fun c => [c]
|}.

Definition in_range (lo hi c : Z) : bool := (lo <=? c)%Z && (c <=? hi)%Z.

Definition is_ascii (c : Z) : bool := in_range 0 127 c.
Definition ascii_isupper (c : Z) : bool := in_range 65 90 c.
Definition ascii_islower (c : Z) : bool := in_range 97 122 c.
Definition ascii_isalpha (c : Z) : bool := ascii_isupper c || ascii_islower c.
Definition ascii_tolower (c : Z) : Z := if ascii_isupper c then (c + 32)%Z else c.
Definition ascii_toupper (c : Z) : Z := if ascii_islower c then (c - 32)%Z else c.

(** [Py_UNICODE_ISSPACE]: the code points that [str.strip], [str.rstrip] and
    the pattern item [\s] take for white space. *)
Definition Py_UNICODE_ISSPACE (c : Z) : bool :=
  in_range 9 13 c || in_range 28 32 c || (c =? 133)%Z || (c =? 160)%Z
  || (c =? 5760)%Z || in_range 8192 8202 c || (c =? 8232)%Z || (c =? 8233)%Z
  || (c =? 8239)%Z || (c =? 8287)%Z || (c =? 12288)%Z.

(* ================================================================== *)
(** * The [str] methods the program calls *)
(* ================================================================== *)

(** [s.split(sep)] for a separator of one character: never an empty list. *)
Fixpoint str_split (sep : Z) (s : text) : list text :=
  match s with
  | [] => [[]]
  | c :: t =>
      if (c =? sep)%Z then [] :: str_split sep t
      else match str_split sep t with
           | l :: ls => (c :: l) :: ls
           | [] => [[c]]
           end
  end.

(** [sep.join(ls)] for a separator of one character. *)
Fixpoint str_join (sep : Z) (ls : list text) : text :=
  match ls with
  | [] => []
  | [l] => l
  | l :: ls' => l ++ sep :: str_join sep ls'
  end.

Fixpoint str_lstrip (s : text) : text :=
  match s with
  | [] => []
  | c :: t => if Py_UNICODE_ISSPACE c then str_lstrip t else s
  end.

Fixpoint str_rstrip (s : text) : text :=
  match s with
  | [] => []
  | c :: t =>
      match str_rstrip t with
      | [] => if Py_UNICODE_ISSPACE c then [] else [c]
      | t' => c :: t'
      end
  end.

Definition str_strip (s : text) : text := str_lstrip (str_rstrip s).

(** [s.startswith(p)]. *)
Fixpoint str_startswith (p s : text) : bool :=
  match p, s with
  | [], _ => true
  | _ :: _, [] => false
  | a :: p', c :: s' => (a =? c)%Z && str_startswith p' s'
  end.

(** [needle in s]. *)
Fixpoint str_contains (needle s : text) : bool :=
  str_startswith needle s
  || match s with
     | [] => false
     | _ :: t => str_contains needle t
     end.

(** Truth value of a string or list: non-empty. *)
Definition truthy {A} (l : list A) : bool :=
  match l with [] => false | _ => true end.

(** [s.isupper()], on the text the program gives it: the only call is on
    [alpha_only], from which every character outside A-Z and a-z has been
    removed, so the cased characters are the ASCII letters.  True when no
    character is lower case and one at least is upper case. *)
Definition str_isupper (s : text) : bool :=
  negb (existsb ascii_islower s) && existsb ascii_isupper s.

(* ================================================================== *)
(** * Line normalisation *)
(* ================================================================== *)

(** One iteration of the loop of [_clean_lines] on the pair
    [(cleaned, prev_blank)]. *)
Definition clean_step (st : list text * bool) (line : text) : list text * bool :=
  let '(cleaned, prev_blank) := st in
  let is_blank := negb (truthy (str_strip line)) in
  if is_blank && prev_blank then (cleaned, prev_blank)
  else (cleaned ++ [line], is_blank).

Definition _clean_lines (lines : list text) : list text :=
  fst (fold_left clean_step lines ([], false)).

(** The first two statements on [lines] in [to_docx]: the specification's
    [normalize]. *)
Definition normalize (resume_text : text) : list text :=
  _clean_lines (map str_rstrip (str_split 10 resume_text)).

(* ================================================================== *)
(** * Regular expressions: the part of [re] the program uses *)
(* ================================================================== *)

(** The patterns of the source are built from single-character items
    (literals, [\d], [\s], bracketed sets), sequence, alternation and greedy
    repetition of a single-character item ([*], [+], [?], [{m,}], [{m}]).
    Groups capture nothing the program reads. *)
Inductive regex : Type :=
| Eps
| Chr (p : Z -> bool)
| Seq (r1 r2 : regex)
| Alt (r1 r2 : regex)
| Rep (p : Z -> bool) (lo : nat) (hi : option nat).

(** Number of leading characters of [s] in the class [p]. *)
Fixpoint run_length (p : Z -> bool) (s : text) : nat :=
  match s with
  | c :: t => if p c then S (run_length p t) else 0
  | [] => 0
  end.

Definition capped (hi : option nat) (n : nat) : nat :=
  match hi with
  | Some h => Nat.min h n
  | None => n
  end.

(** Greedy repetition: the continuation [k] is tried after [n] characters,
    then after [n - 1], down to [lo]. *)
Fixpoint rep_back {A} (k : text -> option A) (s : text) (lo n : nat) : option A :=
  if (n <? lo)%nat then None
  else match k (skipn n s) with
       | Some a => Some a
       | None => match n with
                 | O => None
                 | S n' => rep_back k s lo n'
                 end
       end.

(** The backtracking matcher: [sre_match r s k] matches [r] at the start of
    [s] and gives the rest of the text to [k]; the first success in the
    engine's order of preference (left alternative first, longest repetition
    first) is the result. *)
Fixpoint sre_match {A} (r : regex) (s : text) (k : text -> option A) : option A :=
  match r with
  | Eps => k s
  | Chr p =>
      match s with
      | c :: t => if p c then k t else None
      | [] => None
      end
  | Seq r1 r2 => sre_match r1 s (fun s' => sre_match r2 s' k)
  | Alt r1 r2 =>
      match sre_match r1 s k with
      | Some a => Some a
      | None => sre_match r2 s k
      end
  | Rep p lo hi => rep_back k s lo (capped hi (run_length p s))
  end.

(** [re.match(r, s)]: the match at the start of [s], as (matched, rest). *)
Definition re_match (r : regex) (s : text) : option (text * text) :=
  sre_match r s
    (fun rest => Some (firstn (List.length s - List.length rest) s, rest)).

(** [re.search(r, s)]: the leftmost match, as (before, matched, after). *)
Fixpoint re_search (r : regex) (s : text) : option (text * text * text) :=
  match re_match r s with
  | Some (m, rest) => Some ([], m, rest)
  | None =>
      match s with
      | [] => None
      | c :: t =>
          match re_search r t with
          | Some (pre, m, rest) => Some (c :: pre, m, rest)
          | None => None
          end
      end
  end.

Definition is_some {A} (o : option A) : bool :=
  match o with Some _ => true | None => false end.

(** [re.sub(r, repl, s)] for a pattern that matches no empty text (every
    pattern the program substitutes with holds a mandatory character), so
    that [length s] steps are enough. *)
Fixpoint re_sub_loop (fuel : nat) (r : regex) (repl s : text) : text :=
  match fuel with
  | O => s
  | S fuel' =>
      match re_search r s with
      | None => s
      | Some (pre, _, rest) => pre ++ repl ++ re_sub_loop fuel' r repl rest
      end
  end.

Definition re_sub (r : regex) (repl s : text) : text :=
  re_sub_loop (List.length s) r repl s.

(** [re.sub("^" + r, repl, s)]: without re.MULTILINE the anchor holds at the
    start of the text only, so the match there, if any, is the only one. *)
Definition re_sub_at_start (r : regex) (repl s : text) : text :=
  match re_match r s with
  | Some (_, rest) => repl ++ rest
  | None => s
  end.

(** [re.split(r, s, maxsplit)] for [maxsplit >= 1] and a pattern without
    groups that matches no empty text. *)
Fixpoint re_split (r : regex) (maxsplit : nat) (s : text) : list text :=
  match maxsplit with
  | O => [s]
  | S n =>
      match re_search r s with
      | None => [s]
      | Some (pre, _, rest) => pre :: re_split r n rest
      end
  end.

(** Pattern items. *)
Definition lit (c : Z) : regex := Chr (Z.eqb c).
Definition one_of (cs : list Z) (c : Z) : bool := existsb (Z.eqb c) cs.
Definition star (p : Z -> bool) : regex := Rep p 0 None.
Definition seqs (rs : list regex) : regex := fold_right Seq Eps rs.
Fixpoint alts (r : regex) (rs : list regex) : regex :=
  match rs with
  | [] => r
  | r' :: rs' => Alt r (alts r' rs')
  end.

(** A literal of the pattern under re.IGNORECASE, for an ASCII literal
    [pat]: a letter matches itself in either case, and also the code points
    the engine ties to it (U+0130 and U+0131 to i, U+212A to k, U+017F to s);
    any other literal matches itself only. *)
Definition ignorecase_eq (pat c : Z) : bool :=
  let lo := ascii_tolower pat in
  if ascii_islower lo then
    (c =? lo)%Z || (c =? lo - 32)%Z
    || ((lo =? 105)%Z && ((c =? 304)%Z || (c =? 305)%Z))
    || ((lo =? 107)%Z && (c =? 8490)%Z)
    || ((lo =? 115)%Z && (c =? 383)%Z)
  else (c =? pat)%Z.

Definition word_i (w : string) : regex :=
  seqs (map (fun c => Chr (ignorecase_eq c)) (str w)).

(* ================================================================== *)
(** * The python-docx objects the program builds *)
(* ================================================================== *)

(** Lengths are python-docx [Length] values, in English Metric Units.
    [Pt_x10 105] is [Pt(10.5)] and [Inches_x100 25] is [Inches(0.25)]. *)
Definition Pt_x10 (tenths_of_point : Z) : Z := (tenths_of_point * 1270)%Z.
Definition Inches_x100 (hundredths_of_inch : Z) : Z := (hundredths_of_inch * 9144)%Z.

Inductive WD_ALIGN_PARAGRAPH := LEFT | CENTER | RIGHT | JUSTIFY.

Record RGBColor := mkRGB { rgb_r : Z; rgb_g : Z; rgb_b : Z }.

(** An attribute left at [None] is inherited from the style. *)
Record Font := mkFont {
  font_name  : option string;
  font_size  : option Z;
  font_color : option RGBColor
}.

(** [run_text] is the text handed to [add_run] by the builders, and the
    text [run.text] gives back in a paragraph that went through [checked]. *)
Record Run := mkRun {
  run_text : text;
  run_bold : option bool;
  run_font : Font
}.

(** The [w:bottom] element of a paragraph border. *)
Record BottomBorder := mkBorder {
  bdr_val   : string;
  bdr_sz    : string;
  bdr_space : string;
  bdr_color : string
}.

Record Paragraph := mkParagraph {
  par_style        : option string;
  par_alignment    : option WD_ALIGN_PARAGRAPH;
  par_space_before : option Z;
  par_space_after  : option Z;
  par_left_indent  : option Z;
  par_border       : option BottomBorder;
  par_runs         : list Run
}.

Record PageMargins := mkMargins {
  top_margin    : Z;
  bottom_margin : Z;
  left_margin   : Z;
  right_margin  : Z
}.

Record Document := mkDocument {
  doc_sections    : list PageMargins;
  doc_normal_font : Font;
  doc_styles      : list string;
  doc_paragraphs  : list Paragraph
}.

Definition no_font : Font := mkFont None None None.

(** [Document()]: the default template has one section, no paragraph, and
    defines (among others) the paragraph styles the program names. *)
Definition Document_new : Document :=
  mkDocument
    [mkMargins (Inches_x100 100) (Inches_x100 100) (Inches_x100 125) (Inches_x100 125)]
    no_font
    ["Normal"; "List Bullet"]
    [].

(** A paragraph as [add_paragraph()] creates it. *)
Definition empty_paragraph : Paragraph :=
  mkParagraph None None None None None None [].

Definition append_paragraph (doc : Document) (p : Paragraph) : Document :=
  mkDocument (doc_sections doc) (doc_normal_font doc) (doc_styles doc)
             (doc_paragraphs doc ++ [p]).

Definition has_style (doc : Document) (name : string) : bool :=
  existsb (String.eqb name) (doc_styles doc).

Definition calibri (size : Z) (color : option RGBColor) : Font :=
  mkFont (Some "Calibri") (Some size) color.

(* ------------------------------------------------------------------ *)
(** ** Document setup *)

Definition _set_margins (doc : Document) : Document :=
  mkDocument
    (map (fun _ => mkMargins (Inches_x100 100) (Inches_x100 100)
                             (Inches_x100 100) (Inches_x100 100))
         (doc_sections doc))
    (doc_normal_font doc) (doc_styles doc) (doc_paragraphs doc).

Definition _set_default_font (doc : Document) : Document :=
  mkDocument (doc_sections doc)
    (calibri (Pt_x10 105) (Some (mkRGB 34 34 34)))
    (doc_styles doc) (doc_paragraphs doc).

(* ------------------------------------------------------------------ *)
(** ** Paragraph types that need no pattern *)

(** The branch of [to_docx] for an empty line. *)
Definition blank_paragraph : Paragraph :=
  mkParagraph None None (Some (Pt_x10 0)) (Some (Pt_x10 0)) None None [].

Definition name_paragraph (txt : text) : Paragraph :=
  mkParagraph None (Some CENTER) (Some (Pt_x10 0)) (Some (Pt_x10 40)) None None
    [mkRun (str_strip txt) (Some true) (calibri (Pt_x10 180) (Some (mkRGB 17 17 17)))].

Definition _add_name (doc : Document) (txt : text) : Document :=
  append_paragraph doc (name_paragraph txt).

Definition bullet_run (txt : text) : Run :=
  mkRun txt None (calibri (Pt_x10 105) None).

(** [_add_bullet].  [add_paragraph(style=...)] appends the paragraph and
    then looks the style up, so when the style is unknown the KeyError
    leaves that paragraph in the body and the handler adds a second one. *)
Definition _add_bullet (doc : Document) (txt : text) : Document :=
  if has_style doc "List Bullet" then
    append_paragraph doc
      (mkParagraph (Some "List Bullet") None (Some (Pt_x10 10)) (Some (Pt_x10 10))
                   None None [bullet_run txt])
  else
    append_paragraph (append_paragraph doc empty_paragraph)
      (mkParagraph None None (Some (Pt_x10 10)) (Some (Pt_x10 10))
                   (Some (Inches_x100 25)) None [bullet_run txt]).

Definition body_paragraph (txt : text) : Paragraph :=
  mkParagraph None None (Some (Pt_x10 10)) (Some (Pt_x10 10)) None None
    [mkRun txt None (calibri (Pt_x10 105) None)].

Definition _add_body_text (doc : Document) (txt : text) : Document :=
  append_paragraph doc (body_paragraph txt).

(* ------------------------------------------------------------------ *)
(** ** Entry lines *)

(** The pattern of the split: optional space, a pipe, optional space. *)
Definition RE_PIPE : regex :=
  seqs [star Py_UNICODE_ISSPACE; lit 124; star Py_UNICODE_ISSPACE].

Definition entry_first_run (part : text) : Run :=
  mkRun (str_strip part) (Some true) (calibri (Pt_x10 105) None).

Definition entry_sep_run : Run :=
  mkRun (str "  |  ") None (calibri (Pt_x10 105) (Some (mkRGB 119 119 119))).

Definition entry_part_run (part : text) : Run :=
  mkRun (str_strip part) None (calibri (Pt_x10 105) None).

Definition entry_runs (txt : text) : list Run :=
  let parts := re_split RE_PIPE 2 (str_strip txt) in
  if (2 <=? List.length parts)%nat then
    match parts with
    | first :: others =>
        entry_first_run first
        :: flat_map (fun part => [entry_sep_run; entry_part_run part]) others
    | [] => []
    end
  else
    [mkRun (str_strip txt) (Some true) (calibri (Pt_x10 105) None)].

Definition entry_paragraph (txt : text) : Paragraph :=
  mkParagraph None None (Some (Pt_x10 50)) (Some (Pt_x10 10)) None None
    (entry_runs txt).

Definition _add_entry_line (doc : Document) (txt : text) : Document :=
  append_paragraph doc (entry_paragraph txt).

(* ------------------------------------------------------------------ *)
(** ** Contact line *)

Definition RE_CONTACT_SEPARATOR : regex :=
  seqs [star Py_UNICODE_ISSPACE;
        Chr (one_of [124; BULLET; MIDDLE_DOT; FOUR_STAR])%Z;
        star Py_UNICODE_ISSPACE].

Definition contact_paragraph (txt : text) : Paragraph :=
  let normalized := re_sub RE_CONTACT_SEPARATOR (str "  |  ") (str_strip txt) in
  mkParagraph None (Some CENTER) (Some (Pt_x10 0)) (Some (Pt_x10 80)) None None
    [mkRun normalized None (calibri (Pt_x10 100) (Some (mkRGB 68 68 68)))].

Definition _add_contact (doc : Document) (txt : text) : Document :=
  append_paragraph doc (contact_paragraph txt).

(* ================================================================== *)
(** * The classifier and the conversion loop *)
(* ================================================================== *)

Inductive LineRole :=
  Name | Contact | SectionHeader | Entry | Bullet | Body | Blank.

Definition LineRole_eqb (a b : LineRole) : bool :=
  match a, b with
  | Name, Name | Contact, Contact | SectionHeader, SectionHeader
  | Entry, Entry | Bullet, Bullet | Body, Body | Blank, Blank => true
  | _, _ => false
  end.

(** The glyphs of the [startswith] test of [_is_bullet], in source order. *)
Definition BULLET_GLYPHS : list text :=
  [[BULLET]; str "-"; [EN_DASH]; str "*"; [MIDDLE_DOT];
   [SMALL_SQUARE]; [WHITE_BULLET]; [WHITE_CIRCLE]].

Definition MONTHS_AND_WORDS : list string :=
  ["Feb"; "Mar"; "Apr"; "May"; "Jun"; "Jul"; "Aug"; "Sep"; "Oct"; "Nov";
   "Dec"; "Present"; "Current"].

Section Engine.

Variable ucd : UnicodeData.

(** [\d], and the case conversions of [str]. *)
Definition Py_UNICODE_ISDECIMAL (c : Z) : bool :=
  if is_ascii c then in_range 48 57 c else ucd_decimal ucd c.

Definition str_lower (s : text) : text :=
  flat_map (fun ic : nat * Z =>
              let (i, c) := ic in
              if is_ascii c then [ascii_tolower c] else ucd_lower ucd s i c)
           (combine (seq 0 (List.length s)) s).

Definition str_upper (s : text) : text :=
  flat_map (fun c => if is_ascii c then [ascii_toupper c] else ucd_upper ucd c) s.

(* ------------------------------------------------------------------ *)
(** ** Section header paragraph *)

Definition section_header_paragraph (txt : text) : Paragraph :=
  mkParagraph None None (Some (Pt_x10 100)) (Some (Pt_x10 30)) None
    (Some (mkBorder "single" "4" "1" "AAAAAA"))
    [mkRun (str_strip (str_upper txt)) (Some true)
           (calibri (Pt_x10 110) (Some (mkRGB 17 17 17)))].

Definition _add_section_header (doc : Document) (txt : text) : Document :=
  append_paragraph doc (section_header_paragraph txt).

(* ------------------------------------------------------------------ *)
(** ** Line classifiers *)

Definition _is_section_header (line : text) : bool :=
  let stripped := str_strip line in
  if negb (truthy stripped) || (45 <? List.length stripped)%nat then false
  else
    let alpha_only := re_sub (Chr (fun c => negb (ascii_isalpha c))) [] stripped in
    if negb (truthy alpha_only) then false
    else str_isupper alpha_only && (3 <=? List.length alpha_only)%nat.

(** The phone pattern: an optional plus sign, a digit, then seven or more of
    digit, white space, hyphen, parentheses and dot. *)
Definition phone_class (c : Z) : bool :=
  Py_UNICODE_ISDECIMAL c || Py_UNICODE_ISSPACE c || one_of [45; 40; 41; 46]%Z c.

Definition RE_PHONE : regex :=
  seqs [Rep (Z.eqb 43) 0 (Some 1); Chr Py_UNICODE_ISDECIMAL; Rep phone_class 7 None].

(** A pipe, or a bullet between two white-space characters. *)
Definition RE_SEPARATOR : regex :=
  Alt (lit 124) (seqs [Chr Py_UNICODE_ISSPACE; lit BULLET; Chr Py_UNICODE_ISSPACE]).

Definition _is_contact_line (line : text) : bool :=
  let low := str_lower line in
  str_contains (str "@") line
  || is_some (re_search RE_PHONE line)
  || str_contains (str "linkedin") low
  || str_contains (str "github") low
  || is_some (re_search RE_SEPARATOR line).

(** Two or more white-space characters, then one of four glyphs;
    [re.match] anchors it at the start of the line. *)
Definition RE_INDENTED_BULLET : regex :=
  seqs [Rep Py_UNICODE_ISSPACE 2 None; Chr (one_of [BULLET; 45; EN_DASH; 42])%Z].

Definition _is_bullet (line : text) : bool :=
  let stripped := str_strip line in
  existsb (fun glyph => str_startswith glyph stripped) BULLET_GLYPHS
  || is_some (re_match RE_INDENTED_BULLET line).

(** The date pattern, compiled with re.IGNORECASE. *)
Definition RE_YEAR : regex :=
  Seq (Alt (word_i "19") (word_i "20")) (Rep Py_UNICODE_ISDECIMAL 2 (Some 2)).

Definition RE_DATE : regex :=
  Alt RE_YEAR (alts (word_i "Jan") (map word_i MONTHS_AND_WORDS)).

Definition _is_entry_line (line : text) : bool :=
  let has_pipe := str_contains (str "|") line in
  let has_date := is_some (re_search RE_DATE line) in
  has_pipe && has_date.

(* ------------------------------------------------------------------ *)
(** ** Text utilities *)

Definition bullet_prefix_class (c : Z) : bool :=
  Py_UNICODE_ISSPACE c
  || one_of [BULLET; 45; EN_DASH; 42; MIDDLE_DOT; SMALL_SQUARE; WHITE_BULLET;
             WHITE_CIRCLE]%Z c.

Definition _clean_bullet (line : text) : text :=
  str_strip (re_sub_at_start (Rep bullet_prefix_class 1 None) [] line).

(* ------------------------------------------------------------------ *)
(** ** [to_docx] *)

(** One iteration of the [while] loop on [(doc, name_done, contact_done)];
    every branch ends with [i += 1], so the loop is a left fold over
    [lines]. *)
Definition loop_body (st : Document * bool * bool) (raw : text)
  : Document * bool * bool :=
  let '(doc, name_done, contact_done) := st in
  let line := str_strip raw in
  if negb (truthy line) then
    (append_paragraph doc blank_paragraph, name_done, contact_done)
  else if negb name_done then
    (_add_name doc line, true, contact_done)
  else if negb contact_done && _is_contact_line line then
    (_add_contact doc line, name_done, true)
  else if _is_section_header line then
    (_add_section_header doc line, name_done, contact_done)
  else if _is_bullet line then
    (_add_bullet doc (_clean_bullet line), name_done, contact_done)
  else if _is_entry_line line then
    (_add_entry_line doc line, name_done, contact_done)
  else
    (_add_body_text doc line, name_done, contact_done).

(** The document [to_docx] builds, each run with the text handed to
    [add_run].  What python-docx refuses, and how it keeps a carriage
    return, is added by [to_docx_checked] below. *)
Definition to_docx (resume_text : text) : Document :=
  let doc := _set_default_font (_set_margins Document_new) in
  let lines := normalize resume_text in
  fst (fst (fold_left loop_body lines (doc, false, false))).

(* ------------------------------------------------------------------ *)
(** ** The roles: which branch of the loop a line takes *)

(** The branch conditions of [loop_body], in the order of the source. *)
Definition line_role (name_done contact_done : bool) (line : text) : LineRole :=
  if negb (truthy line) then Blank
  else if negb name_done then Name
  else if negb contact_done && _is_contact_line line then Contact
  else if _is_section_header line then SectionHeader
  else if _is_bullet line then Bullet
  else if _is_entry_line line then Entry
  else Body.

(** What the branch of a role does to the two flags and to the document. *)
Definition flags_after (r : LineRole) (flags : bool * bool) : bool * bool :=
  match r with
  | Name => (true, snd flags)
  | Contact => (fst flags, true)
  | _ => flags
  end.

Definition render (doc : Document) (r : LineRole) (line : text) : Document :=
  match r with
  | Blank => append_paragraph doc blank_paragraph
  | Name => _add_name doc line
  | Contact => _add_contact doc line
  | SectionHeader => _add_section_header doc line
  | Bullet => _add_bullet doc (_clean_bullet line)
  | Entry => _add_entry_line doc line
  | Body => _add_body_text doc line
  end.

(** The paragraph a role gives a line, in a document that has the List
    Bullet style. *)
Definition role_paragraph (r : LineRole) (line : text) : Paragraph :=
  match r with
  | Blank => blank_paragraph
  | Name => name_paragraph line
  | Contact => contact_paragraph line
  | SectionHeader => section_header_paragraph line
  | Bullet =>
      mkParagraph (Some "List Bullet") None (Some (Pt_x10 10)) (Some (Pt_x10 10))
                  None None [bullet_run (_clean_bullet line)]
  | Entry => entry_paragraph line
  | Body => body_paragraph line
  end.

(** The classifier as the specification names it: each line with its role
    and with the flags as they are after the line, from given flags. *)
Fixpoint classify_from (flags : bool * bool) (lines : list text)
  : list (text * LineRole * (bool * bool)) :=
  match lines with
  | [] => []
  | raw :: rest =>
      let r := line_role (fst flags) (snd flags) (str_strip raw) in
      let flags' := flags_after r flags in
      (raw, r, flags') :: classify_from flags' rest
  end.

Definition classify (lines : list text) : list (text * LineRole * (bool * bool)) :=
  classify_from (false, false) lines.

Definition roles_from (flags : bool * bool) (lines : list text) : list LineRole :=
  map (fun x => snd (fst x)) (classify_from flags lines).

Definition roles (lines : list text) : list LineRole :=
  roles_from (false, false) lines.

(** The values of [(name_done, contact_done)]: before the first line, then
    after each line. *)
Definition trace_from (flags : bool * bool) (lines : list text) : list (bool * bool) :=
  flags :: map snd (classify_from flags lines).

Definition flag_trace (lines : list text) : list (bool * bool) :=
  trace_from (false, false) lines.

End Engine.

(* ================================================================== *)
(** * Notions of the specification *)
(* ================================================================== *)

(** [needle] occurs in [s]. *)
Definition substring (needle s : text) : Prop :=
  exists pre post, s = pre ++ needle ++ post.

Definition within (hi : option nat) (n : nat) : Prop :=
  match hi with
  | Some h => n <= h
  | None => True
  end.

(** The texts a pattern denotes. *)
Inductive Lang : regex -> text -> Prop :=
| Lang_Eps : Lang Eps []
| Lang_Chr p c : p c = true -> Lang (Chr p) [c]
| Lang_Seq r1 r2 w1 w2 :
    Lang r1 w1 -> Lang r2 w2 -> Lang (Seq r1 r2) (w1 ++ w2)
| Lang_AltL r1 r2 w : Lang r1 w -> Lang (Alt r1 r2) w
| Lang_AltR r1 r2 w : Lang r2 w -> Lang (Alt r1 r2) w
| Lang_Rep p lo hi w :
    forallb p w = true -> lo <= List.length w -> within hi (List.length w) ->
    Lang (Rep p lo hi) w.

(** A pattern occurs somewhere in [s]. *)
Definition occurs (r : regex) (s : text) : Prop :=
  exists pre m post, s = pre ++ m ++ post /\ Lang r m.

(** A pattern that matches no empty text. *)
Definition never_empty (r : regex) : Prop := ~ Lang r [].

(** A blank line: empty, or white space only. *)
Definition blank (line : text) : bool := negb (truthy (str_strip line)).

(** The loop of [_clean_lines] as a recursion on the lines still to read. *)
Fixpoint clean_from (prev_blank : bool) (lines : list text) : list text :=
  match lines with
  | [] => []
  | line :: rest =>
      if blank line && prev_blank then clean_from prev_blank rest
      else line :: clean_from (blank line) rest
  end.

(** The rule of the specification for the normaliser: line [i] is dropped
    when it is blank and line [i - 1] of the same sequence is blank. *)
Definition dropped (lines : list text) (i : nat) : bool :=
  blank (nth i lines []) && (0 <? i)%nat && blank (nth (i - 1) lines []).

Definition drop_blank_after_blank (lines : list text) : list text :=
  map snd
      (filter (fun il : nat * text => negb (dropped lines (fst il)))
              (combine (seq 0 (List.length lines)) lines)).

(** How many lines have a role, and how many times a flag changes along a
    trace. *)
Definition count_role (r : LineRole) (rs : list LineRole) : nat :=
  List.length (filter (LineRole_eqb r) rs).

Fixpoint flips (l : list bool) : nat :=
  match l with
  | a :: (b :: _) as t => (if Bool.eqb a b then 0 else 1) + flips t
  | _ => 0
  end.

(** A flag that is set stays set. *)
Definition flags_le (f g : bool * bool) : Prop :=
  (fst f = true -> fst g = true) /\ (snd f = true -> snd g = true).

(** Two blank lines in a row somewhere in a sequence of lines. *)
Fixpoint has_blank_pair (lines : list text) : bool :=
  match lines with
  | a :: (b :: _) as rest => (blank a && blank b) || has_blank_pair rest
  | _ => false
  end.

(** The order of precedence of the specification. *)
Definition PRECEDENCE : list LineRole :=
  [Blank; Name; Contact; SectionHeader; Bullet; Entry; Body].

Section Rules.

Variable ucd : UnicodeData.

(** The condition the specification gives each role. *)
Definition rule_holds (name_emitted contact_emitted : bool) (line : text)
           (r : LineRole) : bool :=
  match r with
  | Blank => negb (truthy line)
  | Name => negb name_emitted
  | Contact => negb contact_emitted && _is_contact_line ucd line
  | SectionHeader => _is_section_header line
  | Bullet => _is_bullet line
  | Entry => _is_entry_line ucd line
  | Body => true
  end.

Definition first_match (name_emitted contact_emitted : bool) (line : text)
  : option LineRole :=
  find (rule_holds name_emitted contact_emitted line) PRECEDENCE.

(** A year as the date pattern reads it: 19 or 20, then two digits. *)
Definition year_text (m : text) : Prop :=
  exists c d,
    (m = str "19" ++ [c; d] \/ m = str "20" ++ [c; d])
    /\ Py_UNICODE_ISDECIMAL ucd c = true /\ Py_UNICODE_ISDECIMAL ucd d = true.

(** [m] is the word [w] up to case. *)
Definition word_text (w : string) (m : text) : Prop :=
  Forall2 (fun p c => ignorecase_eq p c = true) (str w) m.

Definition has_date (line : text) : Prop :=
  exists pre m post,
    line = pre ++ m ++ post
    /\ (year_text m \/ exists w, In w ("Jan" :: MONTHS_AND_WORDS) /\ word_text w m).

(** A digit, then seven or more characters of the phone class. *)
Definition phone_run (line : text) : Prop :=
  exists pre d run post,
    line = pre ++ d :: run ++ post
    /\ Py_UNICODE_ISDECIMAL ucd d = true
    /\ forallb (phone_class ucd) run = true
    /\ 7 <= List.length run.

(** A bullet with a white-space character on each side. *)
Definition spaced_bullet (line : text) : Prop :=
  exists a b,
    Py_UNICODE_ISSPACE a = true /\ Py_UNICODE_ISSPACE b = true
    /\ substring [a; BULLET; b] line.

End Rules.

(* ================================================================== *)
(** * python-docx: the texts [add_run] refuses, and what a run keeps *)
(* ================================================================== *)

(** The builders above record, in each [Run], the text the code hands to
    [add_run].  python-docx cuts that text at tabs, line feeds and carriage
    returns and gives the pieces to lxml, which raises ValueError on a
    character outside XML 1.0: a control character below U+0020 other than
    tab, line feed and carriage return, a surrogate, U+FFFE or U+FFFF.
    [to_docx] has no handler for it, so the exception ends the
    conversion. *)
Definition xml_compatible (c : Z) : bool :=
  (c =? 9)%Z || (c =? 10)%Z || (c =? 13)%Z
  || in_range 32 55295 c || in_range 57344 65533 c || in_range 65536 1114111 c.

(** A character as [run.text] gives it back: a tab stays a tab, a line feed
    or a carriage return has become a break, which reads as a line feed. *)
Definition as_stored (c : Z) : Z := if (c =? 13)%Z then 10%Z else c.

(** A character that the run holds as it was written. *)
Definition kept_as_written (c : Z) : bool :=
  xml_compatible c && negb (c =? 13)%Z.

(** [p.add_run(text)] with the settings the code makes on the run: the run
    as the paragraph keeps it, or [None] for the ValueError. *)
Definition add_run (r : Run) : option Run :=
  if forallb xml_compatible (run_text r)
  then Some (mkRun (map as_stored (run_text r)) (run_bold r) (run_font r))
  else None.

(** The [add_run] calls of a paragraph, in the order the code makes them;
    the first text that is refused ends them. *)
Fixpoint add_runs (rs : list Run) : option (list Run) :=
  match rs with
  | [] => Some []
  | r :: rest =>
      match add_run r with
      | None => None
      | Some r' =>
          match add_runs rest with
          | None => None
          | Some rest' => Some (r' :: rest')
          end
      end
  end.

(** A paragraph of a builder with its [add_run] calls carried out. *)
Definition checked (p : Paragraph) : option Paragraph :=
  match add_runs (par_runs p) with
  | Some rs =>
      Some (mkParagraph (par_style p) (par_alignment p) (par_space_before p)
                        (par_space_after p) (par_left_indent p) (par_border p) rs)
  | None => None
  end.

Fixpoint checked_all (ps : list Paragraph) : option (list Paragraph) :=
  match ps with
  | [] => Some []
  | p :: rest =>
      match checked p with
      | None => None
      | Some q =>
          match checked_all rest with
          | None => None
          | Some qs => Some (q :: qs)
          end
      end
  end.

(** A builder call [_add_...(doc, text)]: the document with the paragraph
    appended, or [None] when one of its [add_run] calls raises. *)
Definition add_checked (doc : Document) (p : Paragraph) : option Document :=
  match checked p with
  | Some q => Some (append_paragraph doc q)
  | None => None
  end.

Definition _add_bullet_checked (doc : Document) (txt : text) : option Document :=
  if has_style doc "List Bullet" then
    add_checked doc
      (mkParagraph (Some "List Bullet") None (Some (Pt_x10 10)) (Some (Pt_x10 10))
                   None None [bullet_run txt])
  else
    add_checked (append_paragraph doc empty_paragraph)
      (mkParagraph None None (Some (Pt_x10 10)) (Some (Pt_x10 10))
                   (Some (Inches_x100 25)) None [bullet_run txt]).

Section Conversion.

Variable ucd : UnicodeData.

(** One iteration of the [while] loop of [to_docx], with the ValueError of
    [add_run]: the next state, or [None] when the branch raises.  A branch
    that does not raise ends with [i += 1]. *)
Definition loop_body_checked (st : Document * bool * bool) (raw : text)
  : option (Document * bool * bool) :=
  let '(doc, name_done, contact_done) := st in
  let line := str_strip raw in
  if negb (truthy line) then
    Some (append_paragraph doc blank_paragraph, name_done, contact_done)
  else if negb name_done then
    match add_checked doc (name_paragraph line) with
    | Some doc' => Some (doc', true, contact_done)
    | None => None
    end
  else if negb contact_done && _is_contact_line ucd line then
    match add_checked doc (contact_paragraph line) with
    | Some doc' => Some (doc', name_done, true)
    | None => None
    end
  else if _is_section_header line then
    match add_checked doc (section_header_paragraph ucd line) with
    | Some doc' => Some (doc', name_done, contact_done)
    | None => None
    end
  else if _is_bullet line then
    match _add_bullet_checked doc (_clean_bullet line) with
    | Some doc' => Some (doc', name_done, contact_done)
    | None => None
    end
  else if _is_entry_line ucd line then
    match add_checked doc (entry_paragraph line) with
    | Some doc' => Some (doc', name_done, contact_done)
    | None => None
    end
  else
    match add_checked doc (body_paragraph line) with
    | Some doc' => Some (doc', name_done, contact_done)
    | None => None
    end.

(** The loop over the lines that are left: it stops at the first branch
    that raises. *)
Fixpoint while_loop (st : Document * bool * bool) (lines : list text)
  : option (Document * bool * bool) :=
  match lines with
  | [] => Some st
  | raw :: rest =>
      match loop_body_checked st raw with
      | Some st' => while_loop st' rest
      | None => None
      end
  end.

(** [to_docx] with its failure: the document that is saved, or [None] when
    the conversion raises ValueError and returns nothing. *)
Definition to_docx_checked (resume_text : text) : option Document :=
  let doc := _set_default_font (_set_margins Document_new) in
  let lines := normalize resume_text in
  match while_loop (doc, false, false) lines with
  | Some st => Some (fst (fst st))
  | None => None
  end.

End Conversion.



(* ------------------------------------------------------------------ *)
(** ** Sample inputs *)

Definition acme_line : text :=
  str "Acme Corp | Senior Engineer | 2019 " ++ [EN_DASH] ++ str " Present".

Definition bullet_line : text :=
  [BULLET] ++ str " Led migration of 12 services".

(** An all-caps short line with a pipe and a year, and a line that starts
    with a bullet glyph and holds a pipe and a year. *)
Definition caps_pipe_line : text := str "SKILLS | 2020".

Definition glyph_pipe_year_line : text := [BULLET] ++ str " Acme | 2019".

Definition blank_run_text : text := str "a" ++ [10; 10; 10; 10]%Z ++ str "b".

Definition padded_text : text := [10; 10]%Z ++ str "a" ++ [10; 10; 10]%Z.

Definition scenario_text : text :=
  str_join 10
    [str "Jane Doe";
     str "jane@example.com | (555) 123-4567 | linkedin.com/in/janedoe";
     [];
     str "SUMMARY";
     str "Results-driven engineer.";
     [];
     str "EXPERIENCE";
     acme_line;
     bullet_line].

(* ================================================================== *)
(** * ats_analyzer.py: reading the answer of the model *)
(* ================================================================== *)

(** The anchor [$] without re.MULTILINE: the end of the text, or the place
    just before a line break that ends the text. *)
Definition at_end (rest : text) : bool :=
  match rest with
  | [] => true
  | [c] => (c =? 10)%Z
  | _ => false
  end.

(** The match of [r] followed by [$] at the start of [s]. *)
Definition re_match_end (r : regex) (s : text) : option (text * text) :=
  sre_match r s
    (fun rest =>
       if at_end rest
       then Some (firstn (List.length s - List.length rest) s, rest)
       else None).

Fixpoint re_search_end (r : regex) (s : text) : option (text * text * text) :=
  match re_match_end r s with
  | Some (m, rest) => Some ([], m, rest)
  | None =>
      match s with
      | [] => None
      | c :: t =>
          match re_search_end r t with
          | Some (pre, m, rest) => Some (c :: pre, m, rest)
          | None => None
          end
      end
  end.

(** [re.sub(r + "$", repl, s)] for a pattern that ends with a mandatory
    character other than a line break: after the leftmost match only the
    empty text or one line break is left, where the pattern matches no
    more. *)
Definition re_sub_end (r : regex) (repl s : text) : text :=
  match re_search_end r s with
  | Some (pre, _, rest) => pre ++ repl ++ rest
  | None => s
  end.

(** The three fence patterns and the pattern of the fallback, from the
    first opening brace to the last closing brace. *)
Definition RE_FENCE_JSON : regex :=
  seqs (map (fun c => Chr (ignorecase_eq c)) (str "```json")
        ++ [star Py_UNICODE_ISSPACE]).

Definition RE_FENCE_OPEN : regex :=
  seqs (map (fun c => Chr (ignorecase_eq c)) (str "```")
        ++ [star Py_UNICODE_ISSPACE]).

Definition RE_FENCE_CLOSE : regex :=
  seqs [star Py_UNICODE_ISSPACE; lit 96; lit 96; lit 96].

Definition RE_BRACES : regex :=
  seqs [lit 123; Rep (fun _ => true) 0 None; lit 125].

(** What [_parse_json] gives: the value, or the exception it raises. *)
Inductive parse_outcome (J : Type) : Type :=
| Parsed (v : J)
| JSONDecodeError
| ValueError_no_json.

Arguments Parsed {J} v.
Arguments JSONDecodeError {J}.
Arguments ValueError_no_json {J}.

Section ParseJson.

(** [json.loads], with [None] for a JSONDecodeError. *)
Variable J : Type.
Variable json_loads : text -> option J.

(** The value of [clean] when [json.loads] is first called. *)
Definition cleaned_answer (raw : text) : text :=
  let clean := re_sub_at_start RE_FENCE_JSON [] (str_strip raw) in
  let clean := re_sub_at_start RE_FENCE_OPEN [] clean in
  str_strip (re_sub_end RE_FENCE_CLOSE [] clean).

Definition _parse_json (raw : text) : parse_outcome J :=
  let clean := cleaned_answer raw in
  match json_loads clean with
  | Some v => Parsed v
  | None =>
      match re_search RE_BRACES clean with
      | Some (_, m, _) =>
          match json_loads m with
          | Some v => Parsed v
          | None => JSONDecodeError
          end
      | None => ValueError_no_json
      end
  end.

End ParseJson.

(* ================================================================== *)
(** * file_parser.py: text of an uploaded file *)
(* ================================================================== *)

(** File content: bytes, as numbers from 0 to 255. *)
Definition bytes := list Z.

Definition ocons (c : Z) (o : option text) : option text :=
  match o with
  | Some t => Some (c :: t)
  | None => None
  end.

Definition utf8_cont (b : Z) : bool := in_range 128 191 b.

(** [data.decode("utf-8")], with [None] for a UnicodeDecodeError: shortest
    forms only, no surrogate, nothing above U+10FFFF. *)
Fixpoint utf8_decode (data : bytes) : option text :=
  match data with
  | [] => Some []
  | b0 :: t0 =>
      if in_range 0 127 b0 then ocons b0 (utf8_decode t0)
      else if in_range 194 223 b0 then
        match t0 with
        | b1 :: t1 =>
            if utf8_cont b1
            then ocons ((b0 - 192) * 64 + (b1 - 128))%Z (utf8_decode t1)
            else None
        | _ => None
        end
      else if in_range 224 239 b0 then
        match t0 with
        | b1 :: b2 :: t2 =>
            if in_range (if (b0 =? 224)%Z then 160 else 128)
                        (if (b0 =? 237)%Z then 159 else 191) b1
               && utf8_cont b2
            then ocons ((b0 - 224) * 4096 + (b1 - 128) * 64 + (b2 - 128))%Z
                       (utf8_decode t2)
            else None
        | _ => None
        end
      else if in_range 240 244 b0 then
        match t0 with
        | b1 :: b2 :: b3 :: t3 =>
            if in_range (if (b0 =? 240)%Z then 144 else 128)
                        (if (b0 =? 244)%Z then 143 else 191) b1
               && utf8_cont b2 && utf8_cont b3
            then ocons ((b0 - 240) * 262144 + (b1 - 128) * 4096
                        + (b2 - 128) * 64 + (b3 - 128))%Z
                       (utf8_decode t3)
            else None
        | _ => None
        end
      else None
  end.

(** [data.decode("latin-1")]: each byte is the code point of its number. *)
Definition latin1_decode (data : bytes) : text := data.

(** The UTF-8 form of a text, and the code points that have one. *)
Definition utf8_encode_char (c : Z) : bytes :=
  if (c <? 128)%Z then [c]
  else if (c <? 2048)%Z then [192 + c / 64; 128 + c mod 64]%Z
  else if (c <? 65536)%Z then
    [224 + c / 4096; 128 + (c / 64) mod 64; 128 + c mod 64]%Z
  else
    [240 + c / 262144; 128 + (c / 4096) mod 64; 128 + (c / 64) mod 64;
     128 + c mod 64]%Z.

Definition utf8_encode (t : text) : bytes := flat_map utf8_encode_char t.

Definition unicode_scalar (c : Z) : bool :=
  in_range 0 55295 c || in_range 57344 1114111 c.

Fixpoint text_eqb (a b : text) : bool :=
  match a, b with
  | [], [] => true
  | x :: a', y :: b' => (x =? y)%Z && text_eqb a' b'
  | _, _ => false
  end.

(** [s.rfind(c)] for one character: the index of its last occurrence, -1
    when there is none. *)
Fixpoint str_rfind (c : Z) (s : text) : Z :=
  match s with
  | [] => (-1)%Z
  | x :: t =>
      let r := str_rfind c t in
      if (0 <=? r)%Z then (r + 1)%Z
      else if (x =? c)%Z then 0%Z else (-1)%Z
  end.

(** [Path(filename).name] on a POSIX system: the last component of the
    path that is neither empty nor a single dot. *)
Definition Path_name (filename : text) : text :=
  last (filter (fun part => truthy part && negb (text_eqb part (str ".")))
               (str_split 47 filename))
       [].

(** [Path(filename).suffix]: the name from its last dot on, unless that dot
    is the first or the last character of the name. *)
Definition Path_suffix (filename : text) : text :=
  let name := Path_name filename in
  let i := str_rfind 46 name in
  if (0 <? i)%Z && (i <? Z.of_nat (List.length name) - 1)%Z
  then skipn (Z.to_nat i) name
  else [].

Definition ALLOWED : list text := [str ".pdf"; str ".docx"; str ".doc"; str ".txt"].

Definition unsupported_message (ext : text) : text :=
  str "Unsupported format " ++ [34%Z] ++ ext ++ [34%Z]
  ++ str ". Please upload a PDF, DOCX, DOC, or TXT file.".

Definition _from_txt (data : bytes) : text :=
  str_strip (match utf8_decode data with
             | Some t => t
             | None => latin1_decode data
             end).

Section FileParser.

Variable ucd : UnicodeData.

(** PyPDF2 and python-docx: the text of each page, the text of each
    paragraph, or the message of the exception raised on the way. *)
Variable pdf_page_texts : bytes -> text + list text.
Variable docx_paragraph_texts : bytes -> text + list text.

Definition _from_pdf (data : bytes) : text + text :=
  match pdf_page_texts data with
  | inl e => inl e
  | inr pages => inr (str_strip (str_join 10 (filter (@truthy Z) pages)))
  end.

Definition _from_docx (data : bytes) : text + text :=
  match docx_paragraph_texts data with
  | inl e => inl e
  | inr paragraphs =>
      inr (str_strip
             (str_join 10 (filter (fun t => truthy (str_strip t)) paragraphs)))
  end.

(** The [if]/[elif] chain inside the [try]: [None] when no branch is
    taken. *)
Definition parse_by_extension (ext : text) (data : bytes) : option (text + text) :=
  if text_eqb ext (str ".pdf") then Some (_from_pdf data)
  else if existsb (text_eqb ext) [str ".docx"; str ".doc"] then Some (_from_docx data)
  else if text_eqb ext (str ".txt") then Some (inr (_from_txt data))
  else None.

(** [extract_text]: the text, or the message of the ValueError. *)
Definition extract_text (file_bytes : bytes) (filename : text) : text + text :=
  let ext := str_lower ucd (Path_suffix filename) in
  if negb (existsb (text_eqb ext) ALLOWED) then inl (unsupported_message ext)
  else
    match parse_by_extension ext file_bytes with
    | Some (inr t) => inr t
    | Some (inl e) => inl (str "Could not parse file: " ++ e)
    | None => inr []
    end.

End FileParser.

(* ================================================================== *)
(** * main.py: the allowed origins *)
(* ================================================================== *)

(** The list [origins] made from [raw_origins]. *)
Definition origins (raw_origins : text) : list text :=
  map str_strip
      (filter (fun o => truthy (str_strip o)) (str_split 44 raw_origins)).

(** [e] is the word [w] of lower-case ASCII letters, each letter in either
    case. *)
Definition ascii_case_variant (w e : text) : Prop :=
  Forall2 (fun a c => c = a \/ c = (a - 32)%Z) w e.

(** What [extract_text] makes of the outcome of a parser. *)
Definition parse_outcome_of (r : text + text) : text + text :=
  match r with
  | inr t => inr t
  | inl e => inl (str "Could not parse file: " ++ e)
  end.

(* ================================================================== *)
(** * routes/analyze.py: from the upload to the text that is analysed *)
(* ================================================================== *)

Record HTTPException := mkHTTPException { status_code : nat; detail : text }.

(** [resume_file.filename or "resume"]. *)
Definition upload_filename (filename : option text) : text :=
  match filename with
  | Some f => if truthy f then f else str "resume"
  | None => str "resume"
  end.

Definition NO_TEXT_DETAIL : text :=
  str "No text could be extracted. Try a different file format.".

(** [has_jd], as the route and [analyze] both compute it, and the job
    description the route hands to [analyze]. *)
Definition has_jd (job_description : text) : bool :=
  truthy (str_strip job_description).

Definition analyzer_job_description (job_description : text) : text :=
  if has_jd job_description then str_strip job_description else [].

Section AnalyzeRoute.

Variable ucd : UnicodeData.
Variable pdf_page_texts : bytes -> text + list text.
Variable docx_paragraph_texts : bytes -> text + list text.

(** Step 1 of [analyze_resume], once the bytes of the upload are read: the
    text, or the HTTPException raised.  [extract_text] turns every failure
    of a parser into a ValueError, which is answered with status 400. *)
Definition analyze_resume_text (filename : option text) (file_bytes : bytes)
  : HTTPException + text :=
  match extract_text ucd pdf_page_texts docx_paragraph_texts file_bytes
                     (upload_filename filename) with
  | inl e => inl (mkHTTPException 400 e)
  | inr resume_text =>
      if negb (truthy (str_strip resume_text))
      then inl (mkHTTPException 400 NO_TEXT_DETAIL)
      else inr resume_text
  end.

End AnalyzeRoute.

(* ------------------------------------------------------------------ *)
(** ** Sample inputs for the other modules *)


Definition white_space_sample : text := [32; 10; 9; 13; 10; 160; 32]%Z.

Definition bullet_resume_sample : text :=
  str "Jane Doe" ++ [10%Z] ++ str "  " ++ [BULLET] ++ str " Led a team of 5".

(** A reader for PDF files that finds three pages, one of them without text,
    and a reader for DOCX files that fails. *)
Definition three_pages_reader (_ : bytes) : text + list text :=
  inr [str "Jane Doe"; []; str " Engineer "].

Definition failing_reader (_ : bytes) : text + list text :=
  inl (str "File is not a zip file").

(** A reader that finds white space only. *)
Definition blank_pages_reader (_ : bytes) : text + list text :=
  inr [str "  "; [10; 9]%Z; []].

(** The bytes of a small text file. *)
Definition txt_file_sample : bytes := [32; 104; 105; 195; 169; 10]%Z.

Definition unicode_sample : text := [32; 233; 8226; 128512; 65]%Z.

(** A name line with a form feed inside it, then a heading and a body line;
    and a text whose second line holds a carriage return. *)
Definition form_feed_text : text :=
  str "Jane Doe" ++ [12%Z] ++ str "SUMMARY" ++ [10%Z] ++ str "Built things.".

Definition carriage_return_text : text :=
  str "Jane Doe" ++ [10%Z] ++ str "SKILLS" ++ [13%Z] ++ str "TOOLS".

(** A decoder that knows one JSON document, the empty object. *)
Definition loads_empty_object (s : text) : option nat :=
  if text_eqb s (str "{}") then Some 0 else None.

Definition fenced_answer_sample : text :=
  [10%Z] ++ str "```" ++ str "JSON" ++ [10%Z] ++ str "{}" ++ [10%Z] ++ str "```"
  ++ str "  ".

(* ================================================================== *)
(** * Properties of the [str] methods *)
(* ================================================================== *)

Lemma str_split_nonempty (sep : Z) (s : text) : str_split sep s <> [].
Proof.
  induction s as [|c t IH]; simpl; [discriminate|].
  destruct (c =? sep)%Z; [discriminate|].
  destruct (str_split sep t); discriminate.
Qed.

Lemma str_split_no_sep (sep : Z) (s : text) :
  Forall (fun l => ~ In sep l) (str_split sep s).
Proof.
  induction s as [|c t IH]; simpl.
  - constructor; [intros []|constructor].
  - destruct (Z.eqb_spec c sep) as [E|N].
    + constructor; [intros []|exact IH].
    + destruct (str_split sep t) as [|l ls].
      * constructor; [|constructor]. simpl. intros [H|[]]. now apply N.
      * inversion IH as [|? ? Hl Hls]; subst.
        constructor; [|exact Hls]. simpl. intros [H|H]; [now apply N|now apply Hl].
Qed.

Lemma str_split_line (sep : Z) (l : text) :
  ~ In sep l -> str_split sep l = [l].
Proof.
  induction l as [|c t IH]; simpl; intros H; [reflexivity|].
  destruct (Z.eqb_spec c sep) as [E|N]; [exfalso; apply H; now left|].
  rewrite IH; [reflexivity|]. intros Hin. apply H. now right.
Qed.

Lemma str_split_app (sep : Z) (l t : text) :
  ~ In sep l -> str_split sep (l ++ sep :: t) = l :: str_split sep t.
Proof.
  induction l as [|c l IH]; simpl; intros H.
  - now rewrite Z.eqb_refl.
  - destruct (Z.eqb_spec c sep) as [E|N]; [exfalso; apply H; now left|].
    rewrite IH; [reflexivity|]. intros Hin. apply H. now right.
Qed.

Lemma str_split_join (sep : Z) (ls : list text) :
  ls <> [] -> Forall (fun l => ~ In sep l) ls ->
  str_split sep (str_join sep ls) = ls.
Proof.
  induction ls as [|l ls IH]; intros Hne Hall; [contradiction|].
  inversion Hall as [|? ? Hl Hls]; subst.
  destruct ls as [|l' ls'].
  - simpl. now apply str_split_line.
  - change (str_join sep (l :: l' :: ls')) with (l ++ sep :: str_join sep (l' :: ls')).
    rewrite str_split_app by exact Hl.
    rewrite IH; [reflexivity|discriminate|exact Hls].
Qed.

Lemma str_rstrip_cons (c : Z) (t : text) :
  str_rstrip (c :: t) =
  match str_rstrip t with
  | [] => if Py_UNICODE_ISSPACE c then [] else [c]
  | t' => c :: t'
  end.
Proof. reflexivity. Qed.

Lemma str_rstrip_idem (s : text) : str_rstrip (str_rstrip s) = str_rstrip s.
Proof.
  induction s as [|c t IH]; [reflexivity|].
  rewrite str_rstrip_cons.
  destruct (str_rstrip t) as [|z l] eqn:E.
  - destruct (Py_UNICODE_ISSPACE c) eqn:Hc; [reflexivity|].
    simpl. now rewrite Hc.
  - rewrite str_rstrip_cons, IH. reflexivity.
Qed.

(** [rstrip] removes a suffix of white space. *)
Lemma str_rstrip_suffix (s : text) :
  exists ws, s = str_rstrip s ++ ws /\ forallb Py_UNICODE_ISSPACE ws = true.
Proof.
  induction s as [|c t [ws [E Hws]]].
  - exists []. split; reflexivity.
  - rewrite str_rstrip_cons.
    destruct (str_rstrip t) as [|z l] eqn:Er.
    + destruct (Py_UNICODE_ISSPACE c) eqn:Hc.
      * exists (c :: ws). simpl in *. rewrite Hc, Hws. split; [now rewrite E at 1|reflexivity].
      * exists ws. simpl in *. split; [now rewrite E at 1|exact Hws].
    + exists ws. split; [|exact Hws]. simpl. now rewrite E at 1.
Qed.

Lemma str_rstrip_In (c : Z) (s : text) : In c (str_rstrip s) -> In c s.
Proof.
  intros H. destruct (str_rstrip_suffix s) as [ws [E _]].
  rewrite E. apply in_or_app. now left.
Qed.

Lemma str_lstrip_In (c : Z) (s : text) : In c (str_lstrip s) -> In c s.
Proof.
  induction s as [|a t IH]; simpl; [tauto|].
  destruct (Py_UNICODE_ISSPACE a); [intros H; right; now apply IH|intros H; exact H].
Qed.

Lemma str_strip_In (c : Z) (s : text) : In c (str_strip s) -> In c s.
Proof. intros H. now apply str_rstrip_In, str_lstrip_In. Qed.

(** A character that is no white space survives [strip]. *)
Lemma str_rstrip_keeps (c : Z) (s : text) :
  Py_UNICODE_ISSPACE c = false -> In c s -> In c (str_rstrip s).
Proof.
  intros Hc. induction s as [|a t IH]; [tauto|].
  rewrite str_rstrip_cons. intros [E|H].
  - subst a. rewrite Hc. destruct (str_rstrip t); now left.
  - specialize (IH H). destruct (str_rstrip t); [destruct IH|now right].
Qed.

Lemma str_lstrip_keeps (c : Z) (s : text) :
  Py_UNICODE_ISSPACE c = false -> In c s -> In c (str_lstrip s).
Proof.
  intros Hc. induction s as [|a t IH]; [tauto|]. simpl.
  destruct (Py_UNICODE_ISSPACE a) eqn:Ha; [|intros H; exact H].
  intros [E|H]; [congruence|now apply IH].
Qed.

Lemma str_strip_keeps (c : Z) (s : text) :
  Py_UNICODE_ISSPACE c = false -> In c s -> In c (str_strip s).
Proof. intros Hc H. now apply str_lstrip_keeps, str_rstrip_keeps. Qed.

Lemma blank_rstrip (l : text) : blank (str_rstrip l) = blank l.
Proof. unfold blank, str_strip. now rewrite str_rstrip_idem. Qed.

(* ================================================================== *)
(** * Properties of the normaliser *)
(* ================================================================== *)

Lemma fold_clean_step (lines : list text) :
  forall acc prev_blank,
    fst (fold_left clean_step lines (acc, prev_blank))
    = acc ++ clean_from prev_blank lines.
Proof.
  induction lines as [|line rest IH]; intros acc pb; simpl.
  - now rewrite app_nil_r.
  - fold (blank line). destruct (blank line && pb) eqn:E.
    + apply IH.
    + rewrite IH, <- app_assoc. reflexivity.
Qed.

Lemma _clean_lines_clean_from (lines : list text) :
  _clean_lines lines = clean_from false lines.
Proof. unfold _clean_lines. now rewrite fold_clean_step. Qed.

Lemma clean_from_idem (lines : list text) :
  forall pb, clean_from pb (clean_from pb lines) = clean_from pb lines.
Proof.
  induction lines as [|line rest IH]; intros pb; simpl; [reflexivity|].
  destruct (blank line && pb) eqn:E.
  - apply IH.
  - simpl. rewrite E, IH. reflexivity.
Qed.

Lemma clean_from_Forall (P : text -> Prop) (lines : list text) :
  forall pb, Forall P lines -> Forall P (clean_from pb lines).
Proof.
  induction lines as [|line rest IH]; intros pb H; simpl; [constructor|].
  inversion H; subst.
  destruct (blank line && pb); [now apply IH|constructor; [assumption|now apply IH]].
Qed.

Lemma clean_from_nonempty (lines : list text) :
  lines <> [] -> clean_from false lines <> [].
Proof.
  destruct lines as [|line rest]; [contradiction|]. intros _. simpl.
  rewrite andb_false_r. discriminate.
Qed.

Lemma nth_last_app (pre : list text) (x : text) (rest : list text) :
  pre <> [] ->
  nth (List.length pre - 1) (pre ++ x :: rest) [] = last pre [].
Proof.
  intros Hne. rewrite app_nth1.
  - destruct (exists_last Hne) as [p [y E]]. subst pre.
    rewrite last_last, length_app. simpl.
    replace (List.length p + 1 - 1) with (List.length p) by lia.
    apply nth_middle.
  - destruct pre; [contradiction|simpl; lia].
Qed.

Lemma clean_from_dropped (rest : list text) :
  forall pre pb,
    pb = match pre with [] => false | _ => blank (last pre []) end ->
    clean_from pb rest
    = map snd
        (filter (fun il : nat * text => negb (dropped (pre ++ rest) (fst il)))
                (combine (seq (List.length pre) (List.length rest)) rest)).
Proof.
  induction rest as [|line rest IH]; intros pre pb Hpb; [reflexivity|].
  cbn [List.length seq combine filter clean_from fst].
  assert (Hd : dropped (pre ++ line :: rest) (List.length pre) = blank line && pb).
  { unfold dropped. rewrite nth_middle.
    destruct pre as [|p0 pre'].
    - subst pb. destruct (blank line); reflexivity.
    - rewrite nth_last_app by discriminate.
      rewrite Hpb.
      destruct (blank line); reflexivity. }
  rewrite Hd.
  assert (Hnext : forall pb', pb' = blank line ->
            clean_from pb' rest
            = map snd
                (filter (fun il : nat * text =>
                           negb (dropped (pre ++ line :: rest) (fst il)))
                        (combine (seq (S (List.length pre)) (List.length rest)) rest))).
  { intros pb' Hpb'.
    rewrite (IH (pre ++ [line]) pb').
    - rewrite <- app_assoc, length_app. simpl.
      replace (List.length pre + 1) with (S (List.length pre)) by lia. reflexivity.
    - rewrite last_last. destruct pre; simpl; exact Hpb'. }
  destruct (blank line && pb) eqn:E; simpl.
  - apply Hnext. apply andb_true_iff in E. destruct E as [E1 E2]. congruence.
  - f_equal. now apply Hnext.
Qed.

Lemma _clean_lines_rule (lines : list text) :
  _clean_lines lines = drop_blank_after_blank lines.
Proof.
  rewrite _clean_lines_clean_from.
  now rewrite (@clean_from_dropped lines [] false eq_refl).
Qed.

(* ================================================================== *)
(** * The matcher finds what the pattern denotes *)
(* ================================================================== *)

Lemma run_length_le (p : Z -> bool) (s : text) :
  run_length p s <= List.length s.
Proof.
  induction s as [|c t IH]; simpl; [lia|]. destruct (p c); simpl; lia.
Qed.

Lemma run_length_firstn (p : Z -> bool) (s : text) :
  forall n, n <= run_length p s -> forallb p (firstn n s) = true.
Proof.
  induction s as [|c t IH]; intros n Hn.
  - now rewrite firstn_nil.
  - destruct n as [|n]; [reflexivity|]. simpl in *.
    destruct (p c); [|lia]. simpl. apply IH. lia.
Qed.

Lemma run_length_app (p : Z -> bool) (w rest : text) :
  forallb p w = true -> List.length w <= run_length p (w ++ rest).
Proof.
  induction w as [|c w IH]; simpl; intros H; [lia|].
  apply andb_true_iff in H. destruct H as [Hc Hw]. rewrite Hc.
  specialize (IH Hw). lia.
Qed.

Lemma skipn_app_length (w rest : text) : skipn (List.length w) (w ++ rest) = rest.
Proof. induction w as [|c w IH]; simpl; [reflexivity|exact IH]. Qed.

Lemma firstn_app_length (w rest : text) : firstn (List.length w) (w ++ rest) = w.
Proof. induction w as [|c w IH]; simpl; [reflexivity|now rewrite IH]. Qed.

Lemma capped_le (hi : option nat) (n : nat) : capped hi n <= n.
Proof. destruct hi; simpl; lia. Qed.

Lemma capped_within (hi : option nat) (n j : nat) :
  j <= capped hi n -> within hi j.
Proof. destruct hi; simpl; [lia|trivial]. Qed.

Lemma capped_ge (hi : option nat) (n j : nat) :
  j <= n -> within hi j -> j <= capped hi n.
Proof. destruct hi; simpl; lia. Qed.

Lemma rep_back_sound {A} (k : text -> option A) (s : text) (lo : nat) (a : A) :
  forall n, rep_back k s lo n = Some a ->
            exists j, lo <= j /\ j <= n /\ k (skipn j s) = Some a.
Proof.
  induction n as [|n IH]; intros H; cbn [rep_back] in H.
  - destruct (Nat.ltb_spec 0 lo); [discriminate|].
    destruct (k (skipn 0 s)) eqn:E; [|discriminate].
    exists 0. repeat split; [lia|lia|congruence].
  - destruct (Nat.ltb_spec (S n) lo); [discriminate|].
    destruct (k (skipn (S n) s)) eqn:E.
    + exists (S n). repeat split; [lia|lia|congruence].
    + destruct (IH H) as [j [H1 [H2 H3]]]. exists j. repeat split; [lia|lia|exact H3].
Qed.

Lemma rep_back_complete {A} (k : text -> option A) (s : text) (lo j : nat) (a : A) :
  lo <= j -> k (skipn j s) = Some a ->
  forall n, j <= n -> exists a', rep_back k s lo n = Some a'.
Proof.
  intros Hlo Hk. induction n as [|n IH]; intros Hn.
  - assert (j = 0) by lia. subst j. cbn [rep_back].
    destruct (Nat.ltb_spec 0 lo); [lia|]. rewrite Hk. eauto.
  - cbn [rep_back]. destruct (Nat.ltb_spec (S n) lo); [lia|].
    destruct (k (skipn (S n) s)) eqn:E; [eauto|].
    apply IH. destruct (Nat.eq_dec j (S n)); [subst j; congruence|lia].
Qed.

Lemma sre_match_sound {A} (r : regex) :
  forall (s : text) (k : text -> option A) (a : A),
    sre_match r s k = Some a ->
    exists w rest, s = w ++ rest /\ Lang r w /\ k rest = Some a.
Proof.
  induction r as [|p|r1 IH1 r2 IH2|r1 IH1 r2 IH2|p lo hi]; intros s k a H; simpl in H.
  - exists [], s. repeat split; [constructor|exact H].
  - destruct s as [|c t]; [discriminate|].
    destruct (p c) eqn:Hc; [|discriminate].
    exists [c], t. repeat split; [now constructor|exact H].
  - destruct (IH1 _ _ _ H) as [w1 [rest1 [E1 [L1 H1]]]].
    destruct (IH2 _ _ _ H1) as [w2 [rest2 [E2 [L2 H2]]]].
    exists (w1 ++ w2), rest2. subst. rewrite <- app_assoc.
    repeat split; [now constructor|exact H2].
  - destruct (sre_match r1 s k) as [a1|] eqn:E1.
    + destruct (IH1 _ _ _ E1) as [w [rest [E [L Hk]]]].
      exists w, rest. repeat split; [exact E|now apply Lang_AltL|congruence].
    + destruct (IH2 _ _ _ H) as [w [rest [E [L Hk]]]].
      exists w, rest. repeat split; [exact E|now apply Lang_AltR|exact Hk].
  - destruct (rep_back_sound _ _ _ _ H) as [j [Hlo [Hn Hk]]].
    pose proof (capped_le hi (run_length p s)) as Hc.
    pose proof (run_length_le p s) as Hl.
    exists (firstn j s), (skipn j s). repeat split.
    + now rewrite firstn_skipn.
    + constructor.
      * apply run_length_firstn. lia.
      * rewrite length_firstn. lia.
      * rewrite length_firstn. replace (Nat.min j (List.length s)) with j by lia.
        now apply capped_within with (n := run_length p s).
    + exact Hk.
Qed.

Lemma sre_match_complete (r : regex) (w : text) :
  Lang r w ->
  forall A (rest : text) (k : text -> option A) (a : A),
    k rest = Some a -> exists a', sre_match r (w ++ rest) k = Some a'.
Proof.
  induction 1 as [|p c Hc|r1 r2 w1 w2 L1 IH1 L2 IH2|r1 r2 w L IH|r1 r2 w L IH
                  |p lo hi w Hall Hlo Hhi]; intros A rest k a Hk; simpl.
  - eauto.
  - rewrite Hc. eauto.
  - rewrite <- app_assoc.
    destruct (IH2 _ rest k a Hk) as [a2 H2].
    exact (IH1 _ (w2 ++ rest) (fun s' => sre_match r2 s' k) a2 H2).
  - destruct (IH _ rest k a Hk) as [a1 H1]. rewrite H1. eauto.
  - destruct (sre_match r1 (w ++ rest) k) eqn:E; [eauto|].
    exact (IH _ rest k a Hk).
  - apply rep_back_complete with (j := List.length w) (a := a).
    + exact Hlo.
    + now rewrite skipn_app_length.
    + apply capped_ge; [now apply run_length_app|exact Hhi].
Qed.

Lemma re_match_sound (r : regex) (s m rest : text) :
  re_match r s = Some (m, rest) -> s = m ++ rest /\ Lang r m.
Proof.
  unfold re_match. intros H.
  destruct (sre_match_sound _ _ _ H) as [w [rest' [E [L Hk]]]].
  injection Hk as Hm Hr. subst rest' s.
  rewrite length_app in Hm.
  replace (List.length w + List.length rest - List.length rest) with (List.length w) in Hm by lia.
  rewrite firstn_app_length in Hm. subst m. split; [reflexivity|exact L].
Qed.

Lemma re_match_complete (r : regex) (w rest : text) :
  Lang r w -> re_match r (w ++ rest) <> None.
Proof.
  intros L. unfold re_match.
  destruct (sre_match_complete L rest
              (fun rest0 => Some (firstn (List.length (w ++ rest) - List.length rest0)
                                         (w ++ rest), rest0)) eq_refl) as [a' H].
  rewrite H. discriminate.
Qed.

Lemma re_search_sound (r : regex) (s : text) :
  forall pre m post,
    re_search r s = Some (pre, m, post) -> s = pre ++ m ++ post /\ Lang r m.
Proof.
  induction s as [|c t IH]; intros pre m post H; simpl in H.
  - destruct (re_match r []) as [[m0 rest0]|] eqn:E; [|discriminate].
    injection H as <- <- <-. simpl. now apply re_match_sound.
  - destruct (re_match r (c :: t)) as [[m0 rest0]|] eqn:E.
    + injection H as <- <- <-. simpl. now apply re_match_sound.
    + destruct (re_search r t) as [[[pre0 m0] post0]|] eqn:Es; [|discriminate].
      injection H as <- <- <-.
      destruct (IH _ _ _ eq_refl) as [Et L]. split; [|exact L].
      simpl. now rewrite Et.
Qed.

Lemma re_search_complete (r : regex) (m post : text) :
  Lang r m -> forall pre, re_search r (pre ++ m ++ post) <> None.
Proof.
  intros L. induction pre as [|c pre IH].
  - simpl. pose proof (re_match_complete post L) as H.
    destruct (m ++ post); simpl;
      destruct (re_match r _) as [[? ?]|]; [discriminate|contradiction|discriminate|contradiction].
  - simpl. destruct (re_match r (c :: pre ++ m ++ post)) as [[? ?]|]; [discriminate|].
    destruct (re_search r (pre ++ m ++ post)) as [[[? ?] ?]|]; [discriminate|contradiction].
Qed.

(** [re.search] finds a match exactly when the pattern occurs in the text. *)
Lemma re_search_occurs (r : regex) (s : text) :
  is_some (re_search r s) = true <-> occurs r s.
Proof.
  split.
  - destruct (re_search r s) as [[[pre m] post]|] eqn:E; [|discriminate].
    intros _. exists pre, m, post. now apply re_search_sound.
  - intros [pre [m [post [E L]]]]. subst s.
    pose proof (re_search_complete post L pre) as H.
    destruct (re_search r (pre ++ m ++ post)); [reflexivity|contradiction].
Qed.

Lemma re_split_length (r : regex) (n : nat) :
  forall s, 1 <= List.length (re_split r n s) /\ List.length (re_split r n s) <= S n.
Proof.
  induction n as [|n IH]; intros s; simpl; [lia|].
  destruct (re_search r s) as [[[pre m] post]|]; simpl; [|lia].
  specialize (IH post). lia.
Qed.

Lemma re_split_found (r : regex) (n : nat) (s : text) :
  occurs r s -> 2 <= List.length (re_split r (S n) s).
Proof.
  intros H. apply re_search_occurs in H. simpl.
  destruct (re_search r s) as [[[pre m] post]|]; [|discriminate].
  simpl. pose proof (re_split_length r n post). lia.
Qed.

(* ================================================================== *)
(** * What the tests of the classifiers mean *)
(* ================================================================== *)

Ltac inv H := inversion H; subst; clear H.

Lemma str_startswith_prefix (p s : text) :
  str_startswith p s = true <-> exists rest, s = p ++ rest.
Proof.
  revert s. induction p as [|a p IH]; intros s; simpl.
  - split; [intros _; now exists s|reflexivity].
  - destruct s as [|c s]; [split; [discriminate|intros [rest E]; discriminate]|].
    rewrite andb_true_iff, IH, Z.eqb_eq. split.
    + intros [-> [rest ->]]. now exists rest.
    + intros [rest E]. injection E as -> ->. split; [reflexivity|now exists rest].
Qed.

Lemma str_contains_substring (needle s : text) :
  str_contains needle s = true <-> substring needle s.
Proof.
  unfold substring. induction s as [|c t IH]; simpl.
  - rewrite orb_false_r, str_startswith_prefix. split.
    + intros [rest E]. now exists [], rest.
    + intros [pre [post E]]. destruct pre as [|? ?]; [now exists post|discriminate].
  - rewrite orb_true_iff, str_startswith_prefix, IH. split.
    + intros [[rest E]|[pre [post E]]].
      * now exists [], rest.
      * exists (c :: pre), post. simpl. now rewrite E.
    + intros [pre [post E]]. destruct pre as [|a pre].
      * left. now exists post.
      * right. injection E as -> E. now exists pre, post.
Qed.

Lemma str_contains_char (c : Z) (s : text) :
  str_contains [c] s = true <-> In c s.
Proof.
  rewrite str_contains_substring. split.
  - intros [pre [post ->]]. apply in_or_app. right. now left.
  - intros H. apply in_split in H. destruct H as [pre [post ->]]. now exists pre, post.
Qed.

Lemma Lang_Chr_inv (p : Z -> bool) (w : text) :
  Lang (Chr p) w <-> exists c, w = [c] /\ p c = true.
Proof.
  split; [intros H; inv H; eauto|intros [c [-> H]]; now constructor].
Qed.

Lemma Lang_lit_inv (c : Z) (w : text) : Lang (lit c) w <-> w = [c].
Proof.
  unfold lit. rewrite Lang_Chr_inv. split.
  - intros [d [-> H]]. apply Z.eqb_eq in H. now subst.
  - intros ->. exists c. split; [reflexivity|apply Z.eqb_refl].
Qed.

Lemma Lang_Seq_inv (r1 r2 : regex) (w : text) :
  Lang (Seq r1 r2) w <-> exists w1 w2, w = w1 ++ w2 /\ Lang r1 w1 /\ Lang r2 w2.
Proof.
  split; [intros H; inv H; eauto|intros [w1 [w2 [-> [H1 H2]]]]; now constructor].
Qed.

Lemma Lang_Alt_inv (r1 r2 : regex) (w : text) :
  Lang (Alt r1 r2) w <-> Lang r1 w \/ Lang r2 w.
Proof.
  split; [intros H; inv H; auto|intros [H|H]; [now apply Lang_AltL|now apply Lang_AltR]].
Qed.

Lemma Lang_Eps_inv (w : text) : Lang Eps w <-> w = [].
Proof. split; [intros H; now inv H|intros ->; constructor]. Qed.

Lemma Lang_Rep_inv (p : Z -> bool) (lo : nat) (hi : option nat) (w : text) :
  Lang (Rep p lo hi) w <->
  forallb p w = true /\ lo <= List.length w /\ within hi (List.length w).
Proof.
  split; [intros H; inv H; auto|intros [H1 [H2 H3]]; now constructor].
Qed.

Lemma Lang_alts (rs : list regex) :
  forall r w, Lang (alts r rs) w <-> Lang r w \/ exists r', In r' rs /\ Lang r' w.
Proof.
  induction rs as [|r' rs IH]; intros r w; simpl.
  - split; [auto|intros [H|[r' [[] _]]]; exact H].
  - rewrite Lang_Alt_inv, IH. split.
    + intros [H|[H|[r'' [Hin H]]]]; eauto.
    + intros [H|[r'' [[<-|Hin] H]]]; eauto.
Qed.

(** A word of the date pattern denotes its spellings up to case. *)
Lemma Lang_word (l : text) :
  forall m, Lang (seqs (map (fun c => Chr (ignorecase_eq c)) l)) m
            <-> Forall2 (fun p c => ignorecase_eq p c = true) l m.
Proof.
  induction l as [|a l IH]; intros m; simpl.
  - rewrite Lang_Eps_inv. split; [intros ->; constructor|intros H; now inv H].
  - rewrite Lang_Seq_inv. split.
    + intros [w1 [w2 [-> [H1 H2]]]]. apply Lang_Chr_inv in H1.
      destruct H1 as [c [-> Hc]]. constructor; [exact Hc|now apply IH].
    + intros H. inv H. exists [y], l'. repeat split; [now constructor|now apply IH].
Qed.

Lemma Lang_word_i (w : string) (m : text) : Lang (word_i w) m <-> word_text w m.
Proof. apply Lang_word. Qed.

Section Patterns.

Variable ucd : UnicodeData.

Lemma Lang_two_digits (w : text) :
  Lang (Rep (Py_UNICODE_ISDECIMAL ucd) 2 (Some 2)) w <->
  exists c d, w = [c; d] /\ Py_UNICODE_ISDECIMAL ucd c = true
              /\ Py_UNICODE_ISDECIMAL ucd d = true.
Proof.
  rewrite Lang_Rep_inv. split.
  - intros [Hall [Hlo Hhi]]. simpl in Hhi.
    destruct w as [|c [|d [|e w]]]; simpl in *; try lia.
    exists c, d. rewrite andb_true_r in Hall. apply andb_true_iff in Hall.
    destruct Hall. auto.
  - intros [c [d [-> [Hc Hd]]]]. simpl. rewrite Hc, Hd. repeat split; lia.
Qed.

Lemma word_text_digits (a b : Z) (m : text) :
  ascii_islower (ascii_tolower a) = false ->
  ascii_islower (ascii_tolower b) = false ->
  (Forall2 (fun p c => ignorecase_eq p c = true) [a; b] m <-> m = [a; b]).
Proof.
  intros Ha Hb. unfold ignorecase_eq. split.
  - intros H.
    inversion H as [|? c ? m1 H1 H2]; subst.
    inversion H2 as [|? d ? m2 H3 H4]; subst.
    inversion H4; subst.
    rewrite Ha in H1. rewrite Hb in H3.
    apply Z.eqb_eq in H1, H3. now subst.
  - intros ->. repeat constructor; [rewrite Ha|rewrite Hb]; apply Z.eqb_refl.
Qed.

Lemma Lang_RE_YEAR (m : text) : Lang (RE_YEAR ucd) m <-> year_text ucd m.
Proof.
  unfold RE_YEAR, year_text.
  rewrite Lang_Seq_inv. setoid_rewrite Lang_Alt_inv.
  setoid_rewrite Lang_word_i. setoid_rewrite Lang_two_digits.
  unfold word_text.
  change (str "19") with [49; 57]%Z. change (str "20") with [50; 48]%Z.
  setoid_rewrite (@word_text_digits 49 57); [|reflexivity|reflexivity].
  setoid_rewrite (@word_text_digits 50 48); [|reflexivity|reflexivity].
  split.
  - intros [w1 [w2 [-> [H [c [d [-> [Hc Hd]]]]]]]]. exists c, d.
    destruct H as [-> | ->]; auto.
  - intros [c [d [H [Hc Hd]]]].
    destruct H as [-> | ->]; [exists [49; 57]%Z|exists [50; 48]%Z];
      exists [c; d]; repeat split; eauto.
Qed.

Lemma RE_DATE_occurs (line : text) : occurs (RE_DATE ucd) line <-> has_date ucd line.
Proof.
  unfold occurs, has_date, RE_DATE.
  setoid_rewrite Lang_Alt_inv. setoid_rewrite Lang_alts.
  setoid_rewrite Lang_RE_YEAR. setoid_rewrite Lang_word_i.
  split; intros [pre [m [post [E H]]]]; exists pre, m, post; (split; [exact E|]).
  - destruct H as [H|[H|[r' [Hin H]]]]; [now left| |].
    + right. exists "Jan". split; [now left|exact H].
    + right. apply in_map_iff in Hin. destruct Hin as [w [<- Hin]].
      exists w. split; [now right|now apply Lang_word_i].
  - destruct H as [H|[w [[<-|Hin] H]]]; [now left|right; now left|].
    right. right. exists (word_i w). split; [now apply in_map|now apply Lang_word_i].
Qed.

Lemma RE_PHONE_occurs (line : text) : occurs (RE_PHONE ucd) line <-> phone_run ucd line.
Proof.
  unfold occurs, phone_run, RE_PHONE. simpl. split.
  - intros [pre [m [post [E H]]]].
    apply Lang_Seq_inv in H. destruct H as [w1 [w2 [-> [_ H]]]].
    apply Lang_Seq_inv in H. destruct H as [w3 [w4 [-> [Hd H]]]].
    apply Lang_Chr_inv in Hd. destruct Hd as [d [-> Hd]].
    apply Lang_Seq_inv in H. destruct H as [run [w5 [-> [Hr H]]]].
    apply Lang_Eps_inv in H. subst w5.
    apply Lang_Rep_inv in Hr. destruct Hr as [Hall [Hlo _]].
    exists (pre ++ w1), d, run, post. subst line.
    repeat split; [|exact Hd|exact Hall|exact Hlo].
    rewrite app_nil_r. now rewrite <- !app_assoc.
  - intros [pre [d [run [post [E [Hd [Hall Hlen]]]]]]].
    exists pre, ([] ++ [d] ++ run ++ []), post. split.
    + rewrite E. simpl. now rewrite app_nil_r.
    + constructor; [constructor; simpl; [reflexivity|lia|lia]|].
      constructor; [now constructor|].
      constructor; [constructor; simpl; [exact Hall|exact Hlen|trivial]|constructor].
Qed.

Lemma RE_SEPARATOR_occurs (line : text) :
  occurs RE_SEPARATOR line <-> In 124%Z line \/ spaced_bullet line.
Proof.
  unfold occurs, spaced_bullet, substring, RE_SEPARATOR. simpl. split.
  - intros [pre [m [post [E H]]]]. apply Lang_Alt_inv in H. destruct H as [H|H].
    + apply Lang_lit_inv in H. subst. left. apply in_or_app. right. now left.
    + right.
      apply Lang_Seq_inv in H. destruct H as [w1 [w2 [-> [Ha H]]]].
      apply Lang_Chr_inv in Ha. destruct Ha as [a [-> Ha]].
      apply Lang_Seq_inv in H. destruct H as [w3 [w4 [-> [Hb H]]]].
      apply Lang_lit_inv in Hb. subst w3.
      apply Lang_Seq_inv in H. destruct H as [w5 [w6 [-> [Hc H]]]].
      apply Lang_Chr_inv in Hc. destruct Hc as [b [-> Hb]].
      apply Lang_Eps_inv in H. subst w6.
      exists a, b. repeat split; [exact Ha|exact Hb|]. now exists pre, post.
  - intros [H|[a [b [Ha [Hb [pre [post E]]]]]]].
    + apply in_split in H. destruct H as [pre [post ->]].
      exists pre, [124%Z], post. split; [reflexivity|].
      apply Lang_AltL. now apply Lang_lit_inv.
    + exists pre, ([a] ++ [BULLET] ++ [b] ++ []), post. split; [exact E|].
      apply Lang_AltR.
      constructor; [now constructor|].
      constructor; [now apply Lang_lit_inv|].
      constructor; [now constructor|constructor].
Qed.

Lemma RE_PIPE_occurs (s : text) : In 124%Z s -> occurs RE_PIPE s.
Proof.
  intros H. apply in_split in H. destruct H as [pre [post ->]].
  exists pre, ([] ++ [124%Z] ++ [] ++ []), post. split; [reflexivity|].
  unfold RE_PIPE, star. cbn [seqs fold_right].
  constructor; [constructor; simpl; [reflexivity|lia|trivial]|].
  constructor; [now apply Lang_lit_inv|].
  constructor; [constructor; simpl; [reflexivity|lia|trivial]|constructor].
Qed.

End Patterns.

(* ================================================================== *)
(** * Substitution: the steps allowed are enough *)
(* ================================================================== *)

Lemma re_search_shorter (r : regex) (s pre m post : text) :
  never_empty r -> re_search r s = Some (pre, m, post) ->
  List.length post < List.length s.
Proof.
  intros Hne H. apply re_search_sound in H. destruct H as [E L].
  destruct m as [|c m]; [contradiction|].
  subst s. rewrite !length_app. simpl. lia.
Qed.

Lemma re_sub_loop_S (fuel : nat) (r : regex) (repl s : text) :
  re_sub_loop (S fuel) r repl s
  = match re_search r s with
    | None => s
    | Some (pre, _, rest) => pre ++ repl ++ re_sub_loop fuel r repl rest
    end.
Proof. reflexivity. Qed.

(** With a pattern that matches no empty text, one more step than the
    length of the text changes nothing: no match is left when the steps of
    [re_sub] are used up. *)
Lemma re_sub_loop_fuel (r : regex) (repl : text) :
  never_empty r ->
  forall fuel s,
    List.length s <= fuel ->
    re_sub_loop (S fuel) r repl s = re_sub_loop fuel r repl s.
Proof.
  intros Hne. induction fuel as [|fuel IH]; intros s Hs.
  - destruct s; [|simpl in Hs; lia]. rewrite re_sub_loop_S.
    destruct (re_search r []) as [[[pre m] post]|] eqn:E; [|reflexivity].
    apply re_search_shorter in E; [|exact Hne]. simpl in E. lia.
  - rewrite (re_sub_loop_S (S fuel) r repl s), (re_sub_loop_S fuel r repl s).
    destruct (re_search r s) as [[[pre m] post]|] eqn:E; [|reflexivity].
    apply re_search_shorter in E; [|exact Hne].
    rewrite IH by lia. reflexivity.
Qed.

Lemma re_sub_enough (r : regex) (repl s : text) :
  never_empty r ->
  forall extra, re_sub_loop (List.length s + extra) r repl s = re_sub r repl s.
Proof.
  intros Hne. induction extra as [|extra IH].
  - now rewrite Nat.add_0_r.
  - rewrite Nat.add_succ_r, re_sub_loop_fuel; [exact IH|exact Hne|lia].
Qed.

Lemma never_empty_Chr (p : Z -> bool) : never_empty (Chr p).
Proof. intros H. inversion H. Qed.


Lemma never_empty_RE_PIPE : never_empty RE_PIPE.
Proof.
  intros H. unfold RE_PIPE in H. cbn [seqs fold_right] in H.
  apply Lang_Seq_inv in H. destruct H as [w1 [w2 [E [_ H]]]].
  apply Lang_Seq_inv in H. destruct H as [w3 [w4 [-> [H _]]]].
  apply Lang_lit_inv in H. subst w3.
  destruct w1; discriminate.
Qed.

(** The leftmost character of a class. *)
Lemma re_match_Chr (p : Z -> bool) (s : text) :
  re_match (Chr p) s
  = match s with
    | c :: t => if p c then Some ([c], t) else None
    | [] => None
    end.
Proof.
  unfold re_match. destruct s as [|c t]; [reflexivity|]. cbn [sre_match].
  destruct (p c); [|reflexivity].
  replace (List.length (c :: t) - List.length t) with 1 by (cbn [List.length]; lia).
  reflexivity.
Qed.

Lemma re_sub_loop_Chr (p : Z -> bool) :
  forall fuel s,
    List.length s <= fuel ->
    re_sub_loop fuel (Chr p) [] s = filter (fun c => negb (p c)) s.
Proof.
  assert (Hs : forall s,
             match re_search (Chr p) s with
             | Some (pre, _, post) =>
                 List.length post < List.length s
                 /\ filter (fun c => negb (p c)) s
                    = pre ++ filter (fun c => negb (p c)) post
             | None => filter (fun c => negb (p c)) s = s
             end).
  { induction s as [|c t IH]; [reflexivity|].
    cbn [re_search]. rewrite re_match_Chr. cbn [filter].
    destruct (p c) eqn:Hc; simpl.
    - split; [lia|reflexivity].
    - destruct (re_search (Chr p) t) as [[[pre m] post]|].
      + destruct IH as [Hl Hf]. split; [lia|]. now rewrite Hf.
      + now rewrite IH. }
  induction fuel as [|fuel IH]; intros s Hl.
  - destruct s; [reflexivity|simpl in Hl; lia].
  - rewrite re_sub_loop_S. specialize (Hs s).
    destruct (re_search (Chr p) s) as [[[pre m] post]|]; [|now rewrite Hs].
    destruct Hs as [Hlt Hf]. rewrite Hf, IH by lia. reflexivity.
Qed.

(** [alpha_only] in [_is_section_header]: the ASCII letters of the line, so
    that [str_isupper] is applied to ASCII letters only. *)
Lemma alpha_only_letters (stripped : text) :
  re_sub (Chr (fun c => negb (ascii_isalpha c))) [] stripped
  = filter ascii_isalpha stripped.
Proof.
  unfold re_sub. rewrite re_sub_loop_Chr by lia.
  apply filter_ext. intros c. apply negb_involutive.
Qed.

(* ================================================================== *)
(** * The loop of [to_docx] and the roles *)
(* ================================================================== *)

Section Properties.

Variable ucd : UnicodeData.

(** Each iteration runs the branch of the line's role. *)
Lemma loop_body_role (doc : Document) (nd cd : bool) (raw : text) :
  loop_body ucd (doc, nd, cd) raw
  = (render ucd doc (line_role ucd nd cd (str_strip raw)) (str_strip raw),
     fst (flags_after (line_role ucd nd cd (str_strip raw)) (nd, cd)),
     snd (flags_after (line_role ucd nd cd (str_strip raw)) (nd, cd))).
Proof.
  unfold loop_body, line_role.
  destruct (negb (truthy (str_strip raw))); [reflexivity|].
  destruct (negb nd) eqn:En; [reflexivity|].
  destruct (negb cd && _is_contact_line ucd (str_strip raw)); [reflexivity|].
  destruct (_is_section_header (str_strip raw)); [reflexivity|].
  destruct (_is_bullet (str_strip raw)); [reflexivity|].
  destruct (_is_entry_line ucd (str_strip raw)); reflexivity.
Qed.

Lemma has_style_append (doc : Document) (p : Paragraph) (name : string) :
  has_style (append_paragraph doc p) name = has_style doc name.
Proof. reflexivity. Qed.

Lemma render_appends (doc : Document) (r : LineRole) (line : text) :
  has_style doc "List Bullet" = true ->
  render ucd doc r line = append_paragraph doc (role_paragraph ucd r line).
Proof.
  intros H. destruct r; try reflexivity.
  simpl. unfold _add_bullet. now rewrite H.
Qed.

Lemma fold_append_paragraph (ps : list Paragraph) :
  forall doc,
    fold_left append_paragraph ps doc
    = mkDocument (doc_sections doc) (doc_normal_font doc) (doc_styles doc)
                 (doc_paragraphs doc ++ ps).
Proof.
  induction ps as [|p ps IH]; intros doc; simpl.
  - rewrite app_nil_r. now destruct doc.
  - rewrite IH. simpl. now rewrite <- app_assoc.
Qed.

Lemma fold_loop_body (lines : list text) :
  forall doc nd cd,
    has_style doc "List Bullet" = true ->
    fst (fst (fold_left (loop_body ucd) lines (doc, nd, cd)))
    = fold_left append_paragraph
        (map (fun x => role_paragraph ucd (snd (fst x)) (str_strip (fst (fst x))))
             (classify_from ucd (nd, cd) lines))
        doc.
Proof.
  induction lines as [|raw rest IH]; intros doc nd cd Hs; [reflexivity|].
  cbn [fold_left classify_from map fst snd].
  rewrite loop_body_role, render_appends by exact Hs.
  rewrite IH by (now rewrite has_style_append).
  destruct (flags_after (line_role ucd nd cd (str_strip raw)) (nd, cd)); reflexivity.
Qed.

(** The document [to_docx] builds: the margins, the font, and one paragraph
    for each classified line. *)
Lemma to_docx_document (resume_text : text) :
  to_docx ucd resume_text
  = mkDocument
      [mkMargins (Inches_x100 100) (Inches_x100 100) (Inches_x100 100) (Inches_x100 100)]
      (calibri (Pt_x10 105) (Some (mkRGB 34 34 34)))
      (doc_styles Document_new)
      (map (fun x => role_paragraph ucd (snd (fst x)) (str_strip (fst (fst x))))
           (classify ucd (normalize resume_text))).
Proof.
  unfold to_docx. cbv zeta.
  rewrite fold_loop_body by reflexivity.
  rewrite fold_append_paragraph. reflexivity.
Qed.

Lemma classify_from_lines (lines : list text) :
  forall flags, map (fun x => fst (fst x)) (classify_from ucd flags lines) = lines.
Proof.
  induction lines as [|raw rest IH]; intros flags; simpl; [reflexivity|].
  now rewrite IH.
Qed.

Lemma classify_from_length (lines : list text) :
  forall flags, List.length (classify_from ucd flags lines) = List.length lines.
Proof.
  induction lines as [|raw rest IH]; intros flags; simpl; [reflexivity|].
  now rewrite IH.
Qed.

(* ------------------------------------------------------------------ *)
(** ** The roles along the lines *)

Lemma line_role_Name (nd cd : bool) (line : text) :
  line_role ucd nd cd line = Name <-> truthy line = true /\ nd = false.
Proof.
  unfold line_role. destruct (truthy line), nd; simpl;
    try (split; [discriminate|intros [? ?]; discriminate]);
    try (split; [auto|reflexivity]).
  destruct (negb cd && _is_contact_line ucd line);
    [split; [discriminate|intros [? ?]; discriminate]|].
  destruct (_is_section_header line);
    [split; [discriminate|intros [? ?]; discriminate]|].
  destruct (_is_bullet line);
    [split; [discriminate|intros [? ?]; discriminate]|].
  destruct (_is_entry_line ucd line);
    split; try discriminate; intros [? ?]; discriminate.
Qed.

Lemma line_role_Contact (nd cd : bool) (line : text) :
  line_role ucd nd cd line = Contact ->
  nd = true /\ cd = false /\ _is_contact_line ucd line = true.
Proof.
  unfold line_role. destruct (truthy line), nd, cd; simpl; try discriminate.
  - destruct (_is_section_header line); [discriminate|].
    destruct (_is_bullet line); [discriminate|].
    destruct (_is_entry_line ucd line); discriminate.
  - destruct (_is_contact_line ucd line); [auto|].
    destruct (_is_section_header line); [discriminate|].
    destruct (_is_bullet line); [discriminate|].
    destruct (_is_entry_line ucd line); discriminate.
Qed.

Lemma line_role_blank (nd cd : bool) (raw : text) :
  blank raw = true -> line_role ucd nd cd (str_strip raw) = Blank.
Proof. unfold blank, line_role. now intros ->. Qed.

Lemma line_role_first (cd : bool) (raw : text) :
  blank raw = false -> line_role ucd false cd (str_strip raw) = Name.
Proof. unfold blank, line_role. now intros ->. Qed.

Lemma roles_from_cons (flags : bool * bool) (raw : text) (rest : list text) :
  roles_from ucd flags (raw :: rest)
  = line_role ucd (fst flags) (snd flags) (str_strip raw)
    :: roles_from ucd
         (flags_after (line_role ucd (fst flags) (snd flags) (str_strip raw)) flags)
         rest.
Proof. reflexivity. Qed.

Lemma flags_after_fst (r : LineRole) (flags : bool * bool) :
  fst (flags_after r flags) = true <-> fst flags = true \/ r = Name.
Proof.
  destruct r; simpl; split; auto; try (intros [H|H]; [exact H|discriminate]).
Qed.

Lemma flags_after_snd (r : LineRole) (flags : bool * bool) :
  snd (flags_after r flags) = true <-> snd flags = true \/ r = Contact.
Proof.
  destruct r; simpl; split; auto; try (intros [H|H]; [exact H|discriminate]).
Qed.

Lemma no_Name_after_name (lines : list text) :
  forall flags, fst flags = true -> ~ In Name (roles_from ucd flags lines).
Proof.
  induction lines as [|raw rest IH]; intros flags Hf; [intros []|].
  rewrite roles_from_cons. intros [H|H].
  - apply line_role_Name in H. destruct H as [_ H]. congruence.
  - revert H. apply IH. apply flags_after_fst. now left.
Qed.

Lemma no_Contact_after_contact (lines : list text) :
  forall flags, snd flags = true -> ~ In Contact (roles_from ucd flags lines).
Proof.
  induction lines as [|raw rest IH]; intros flags Hf; [intros []|].
  rewrite roles_from_cons. intros [H|H].
  - apply line_role_Contact in H. destruct H as [_ [H _]]. congruence.
  - revert H. apply IH. apply flags_after_snd. now left.
Qed.

Lemma count_role_absent (r : LineRole) (rs : list LineRole) :
  ~ In r rs -> count_role r rs = 0.
Proof.
  unfold count_role. induction rs as [|a rs IH]; intros H; [reflexivity|]. simpl.
  destruct (LineRole_eqb r a) eqn:E.
  - exfalso. apply H. left. destruct r, a; (reflexivity || discriminate).
  - apply IH. intros Hin. apply H. now right.
Qed.

Lemma count_role_cons (r a : LineRole) (rs : list LineRole) :
  count_role r (a :: rs) = (if LineRole_eqb r a then 1 else 0) + count_role r rs.
Proof. unfold count_role. simpl. now destruct (LineRole_eqb r a). Qed.

Lemma LineRole_eqb_eq (a b : LineRole) : LineRole_eqb a b = true <-> a = b.
Proof. destruct a, b; simpl; split; (reflexivity || discriminate). Qed.

Lemma at_most_one_Name (lines : list text) :
  forall flags, count_role Name (roles_from ucd flags lines) <= 1.
Proof.
  induction lines as [|raw rest IH]; intros flags; [simpl; auto|].
  rewrite roles_from_cons, count_role_cons.
  destruct (LineRole_eqb Name _) eqn:E.
  - apply LineRole_eqb_eq in E. rewrite <- E.
    rewrite count_role_absent; [lia|]. now apply no_Name_after_name.
  - specialize (IH (flags_after (line_role ucd (fst flags) (snd flags) (str_strip raw)) flags)).
    lia.
Qed.

Lemma at_most_one_Contact (lines : list text) :
  forall flags, count_role Contact (roles_from ucd flags lines) <= 1.
Proof.
  induction lines as [|raw rest IH]; intros flags; [simpl; auto|].
  rewrite roles_from_cons, count_role_cons.
  destruct (LineRole_eqb Contact _) eqn:E.
  - apply LineRole_eqb_eq in E. rewrite <- E.
    rewrite count_role_absent; [lia|]. now apply no_Contact_after_contact.
  - specialize (IH (flags_after (line_role ucd (fst flags) (snd flags) (str_strip raw)) flags)).
    lia.
Qed.

Lemma Contact_after_Name (lines : list text) :
  forall flags i,
    nth_error (roles_from ucd flags lines) i = Some Contact ->
    fst flags = true
    \/ exists j, j < i /\ nth_error (roles_from ucd flags lines) j = Some Name.
Proof.
  induction lines as [|raw rest IH]; intros flags i H.
  - destruct i; discriminate.
  - rewrite roles_from_cons in *. destruct i as [|i]; simpl in H.
    + injection H as H. apply line_role_Contact in H. now left.
    + destruct (IH _ _ H) as [Hf|[j [Hj Hn]]].
      * apply flags_after_fst in Hf. destruct Hf as [Hf|Hr]; [now left|].
        right. exists 0. split; [lia|]. simpl. now rewrite Hr.
      * right. exists (S j). split; [lia|exact Hn].
Qed.

Lemma Name_is_first_non_blank (lines : list text) :
  forall flags i,
    fst flags = false ->
    (nth_error (roles_from ucd flags lines) i = Some Name
     <-> (exists raw, nth_error lines i = Some raw /\ blank raw = false)
         /\ (forall j raw, j < i -> nth_error lines j = Some raw -> blank raw = true)).
Proof.
  induction lines as [|raw rest IH]; intros flags i Hf.
  - split; [destruct i; discriminate|]. intros [[raw [H _]] _]. destruct i; discriminate.
  - rewrite roles_from_cons. destruct flags as [nd cd]. simpl in Hf. subst nd.
    cbn [fst snd]. destruct (blank raw) eqn:Eb.
    + rewrite (line_role_blank _ _ _ Eb). cbn [flags_after].
      destruct i as [|i]; simpl.
      * split; [discriminate|]. intros [[raw' [H Hb]] _]. injection H as <-. congruence.
      * rewrite (IH (false, cd) i eq_refl). split; intros [Hex Hall]; (split; [exact Hex|]).
        -- intros [|j] raw' Hj Hn; simpl in Hn; [now injection Hn as <-|].
           apply (Hall j); [lia|exact Hn].
        -- intros j raw' Hj Hn. apply (Hall (S j)); [lia|exact Hn].
    + rewrite (line_role_first _ _ Eb). cbn [flags_after].
      destruct i as [|i]; simpl.
      * split; [intros _|reflexivity]. split; [now exists raw|]. intros j raw' Hj. lia.
      * split.
        -- intros H. exfalso. apply nth_error_In in H.
           now apply no_Name_after_name in H.
        -- intros [_ Hall]. specialize (Hall 0 raw (Nat.lt_0_succ i) eq_refl). congruence.
Qed.

Lemma trace_from_cons (flags : bool * bool) (raw : text) (rest : list text) :
  trace_from ucd flags (raw :: rest)
  = flags :: trace_from ucd
               (flags_after (line_role ucd (fst flags) (snd flags) (str_strip raw)) flags)
               rest.
Proof. reflexivity. Qed.

Lemma flags_after_le (r : LineRole) (flags : bool * bool) :
  flags_le flags (flags_after r flags).
Proof. unfold flags_le. destruct r; simpl; auto. Qed.

Lemma trace_step (lines : list text) :
  forall flags i f g,
    nth_error (trace_from ucd flags lines) i = Some f ->
    nth_error (trace_from ucd flags lines) (S i) = Some g ->
    flags_le f g.
Proof.
  induction lines as [|raw rest IH]; intros flags i f g Hf Hg.
  - destruct i; simpl in Hg; discriminate.
  - rewrite trace_from_cons in *. destruct i as [|i].
    + simpl in Hf, Hg. injection Hf as <-. injection Hg as <-. apply flags_after_le.
    + simpl in Hf. change (nth_error (trace_from ucd
         (flags_after (line_role ucd (fst flags) (snd flags) (str_strip raw)) flags) rest) (S i)
         = Some g) in Hg.
      exact (IH _ _ _ _ Hf Hg).
Qed.

Lemma trace_monotone (lines : list text) (flags : bool * bool) :
  forall j i f g,
    i <= j ->
    nth_error (trace_from ucd flags lines) i = Some f ->
    nth_error (trace_from ucd flags lines) j = Some g ->
    flags_le f g.
Proof.
  induction j as [|j IH]; intros i f g Hij Hf Hg.
  - assert (i = 0) by lia. subst i. rewrite Hf in Hg. injection Hg as <-.
    unfold flags_le. auto.
  - destruct (Nat.eq_dec i (S j)) as [->|Hne].
    + rewrite Hf in Hg. injection Hg as <-. unfold flags_le. auto.
    + destruct (nth_error (trace_from ucd flags lines) j) as [h|] eqn:Eh.
      * assert (H1 : flags_le f h) by (apply (IH i f h); [lia|exact Hf|reflexivity]).
        assert (H2 : flags_le h g) by exact (trace_step _ _ _ Eh Hg).
        unfold flags_le in *. tauto.
      * apply nth_error_None in Eh.
        assert (Hs : nth_error (trace_from ucd flags lines) (S j) <> None) by congruence.
        apply nth_error_Some in Hs. lia.
Qed.

Lemma flips_name_flag (lines : list text) :
  forall flags,
    flips (map fst (trace_from ucd flags lines)) <= (if fst flags then 0 else 1).
Proof.
  induction lines as [|raw rest IH]; intros flags.
  - simpl. destruct (fst flags); lia.
  - rewrite trace_from_cons.
    set (flags' := flags_after (line_role ucd (fst flags) (snd flags) (str_strip raw)) flags).
    specialize (IH flags'). unfold trace_from in *. cbn [map flips] in *.
    pose proof (flags_after_le (line_role ucd (fst flags) (snd flags) (str_strip raw)) flags) as [Hm _].
    fold flags' in Hm.
    destruct (fst flags), (fst flags'); simpl in *; try lia;
      specialize (Hm eq_refl); discriminate.
Qed.

Lemma flips_contact_flag (lines : list text) :
  forall flags,
    flips (map snd (trace_from ucd flags lines)) <= (if snd flags then 0 else 1).
Proof.
  induction lines as [|raw rest IH]; intros flags.
  - simpl. destruct (snd flags); lia.
  - rewrite trace_from_cons.
    set (flags' := flags_after (line_role ucd (fst flags) (snd flags) (str_strip raw)) flags).
    specialize (IH flags'). unfold trace_from in *. cbn [map flips] in *.
    pose proof (flags_after_le (line_role ucd (fst flags) (snd flags) (str_strip raw)) flags) as [_ Hm].
    fold flags' in Hm.
    destruct (snd flags), (snd flags'); simpl in *; try lia;
      specialize (Hm eq_refl); discriminate.
Qed.

Lemma line_role_Entry (nd cd : bool) (line : text) :
  line_role ucd nd cd line = Entry ->
  truthy line = true /\ _is_section_header line = false
  /\ _is_bullet line = false /\ _is_entry_line ucd line = true.
Proof.
  unfold line_role. destruct (truthy line); simpl; [|discriminate].
  destruct (negb nd); [discriminate|].
  destruct (negb cd && _is_contact_line ucd line); [discriminate|].
  destruct (_is_section_header line); [discriminate|].
  destruct (_is_bullet line); [discriminate|].
  destruct (_is_entry_line ucd line); [auto|discriminate].
Qed.

Lemma _is_entry_line_iff (line : text) :
  _is_entry_line ucd line = true <-> In 124%Z line /\ has_date ucd line.
Proof.
  unfold _is_entry_line. cbv zeta.
  rewrite andb_true_iff, re_search_occurs, RE_DATE_occurs.
  change (str "|") with [124%Z]. now rewrite str_contains_char.
Qed.

Lemma entry_runs_split (txt : text) :
  In 124%Z txt ->
  exists first others,
    re_split RE_PIPE 2 (str_strip txt) = first :: others
    /\ 1 <= List.length others <= 2
    /\ entry_runs txt
       = entry_first_run first
         :: flat_map (fun part => [entry_sep_run; entry_part_run part]) others.
Proof.
  intros H.
  assert (Hp : In 124%Z (str_strip txt)) by (now apply str_strip_keeps).
  pose proof (@re_split_found RE_PIPE 1 (str_strip txt) (@RE_PIPE_occurs (str_strip txt) Hp)) as H2.
  pose proof (re_split_length RE_PIPE 2 (str_strip txt)) as [_ H3].
  unfold entry_runs. cbv zeta.
  destruct (re_split RE_PIPE 2 (str_strip txt)) as [|first others] eqn:E;
    [simpl in H2; lia|].
  exists first, others. simpl in H2, H3.
  repeat split; [lia|lia|].
  destruct (Nat.leb_spec 2 (List.length (first :: others))); [reflexivity|simpl in *; lia].
Qed.

(* ================================================================== *)
(** * The claims of the specification *)
(* ================================================================== *)

(** C1.  On the scenario of the specification, normalising the text and
    running the dispatch of [to_docx] line by line gives the roles Name,
    Contact, Blank, SectionHeader, Body, Blank, SectionHeader, Entry, Bullet,
    in that order, and the document holds the paragraphs of these roles. *)
Theorem scenario_role_sequence :
  roles ucd (normalize scenario_text)
  = [Name; Contact; Blank; SectionHeader; Body; Blank; SectionHeader; Entry; Bullet]
  /\ doc_paragraphs (to_docx ucd scenario_text)
     = map (fun rl => role_paragraph ucd (fst rl) (str_strip (snd rl)))
           (combine
              [Name; Contact; Blank; SectionHeader; Body; Blank; SectionHeader;
               Entry; Bullet]
              (normalize scenario_text)).
Proof.
  assert (Hc : classify ucd (normalize scenario_text)
               = [(str "Jane Doe", Name, (true, false));
                  (str "jane@example.com | (555) 123-4567 | linkedin.com/in/janedoe",
                   Contact, (true, true));
                  ([], Blank, (true, true));
                  (str "SUMMARY", SectionHeader, (true, true));
                  (str "Results-driven engineer.", Body, (true, true));
                  ([], Blank, (true, true));
                  (str "EXPERIENCE", SectionHeader, (true, true));
                  (acme_line, Entry, (true, true));
                  (bullet_line, Bullet, (true, true))]).
  { lazy. reflexivity. }
  split.
  - unfold roles, roles_from. fold (classify ucd (normalize scenario_text)).
    rewrite Hc. reflexivity.
  - rewrite to_docx_document. cbn [doc_paragraphs]. rewrite Hc.
    replace (normalize scenario_text)
      with (map (fun x => fst (fst x)) (classify ucd (normalize scenario_text)))
      by apply classify_from_lines.
    rewrite Hc. reflexivity.
Qed.

(** C2.  The role of a line is the first role, in the order Blank, Name,
    Contact, SectionHeader, Bullet, Entry, Body, whose condition holds; a
    line that satisfies several conditions gets the earliest of them: an
    all-caps short line with a pipe is the Contact line while none has been
    emitted and a SectionHeader afterwards, never an Entry, and a line that
    starts with a bullet glyph is a Bullet although it holds a pipe and a
    year. *)
Theorem precedence_first_match_wins :
  (forall nd cd line,
      first_match ucd nd cd line = Some (line_role ucd nd cd line))
  /\ (rule_holds ucd true false caps_pipe_line Contact = true
      /\ rule_holds ucd true false caps_pipe_line SectionHeader = true
      /\ rule_holds ucd true false caps_pipe_line Entry = true
      /\ line_role ucd true false caps_pipe_line = Contact)
  /\ (rule_holds ucd true true caps_pipe_line SectionHeader = true
      /\ rule_holds ucd true true caps_pipe_line Entry = true
      /\ line_role ucd true true caps_pipe_line = SectionHeader)
  /\ (rule_holds ucd true true glyph_pipe_year_line Bullet = true
      /\ rule_holds ucd true true glyph_pipe_year_line Entry = true
      /\ line_role ucd true true glyph_pipe_year_line = Bullet).
Proof.
  split; [|repeat split; lazy; reflexivity].
  intros nd cd line. unfold first_match, PRECEDENCE, line_role. cbn [find rule_holds].
  destruct (negb (truthy line)); [reflexivity|].
  destruct (negb nd); [reflexivity|].
  destruct (negb cd && _is_contact_line ucd line); [reflexivity|].
  destruct (_is_section_header line); [reflexivity|].
  destruct (_is_bullet line); [reflexivity|].
  destruct (_is_entry_line ucd line); reflexivity.
Qed.

(** C3.  Whatever the text, at most one line is a Name and at most one a
    Contact; the Name is the first line that is not blank, whatever it
    holds; a Contact comes after the Name; and along the loop each of the
    flags name_done and contact_done changes at most once and, once set,
    stays set. *)
Theorem at_most_one_name_and_contact :
  forall resume_text,
    let lines := normalize resume_text in
    let rs := roles ucd lines in
    let trace := flag_trace ucd lines in
    count_role Name rs <= 1
    /\ count_role Contact rs <= 1
    /\ (forall i,
           nth_error rs i = Some Name
           <-> (exists raw, nth_error lines i = Some raw /\ blank raw = false)
               /\ (forall j raw, j < i -> nth_error lines j = Some raw ->
                                 blank raw = true))
    /\ (forall i, nth_error rs i = Some Contact ->
                  exists j, j < i /\ nth_error rs j = Some Name)
    /\ (forall i j f g, i <= j ->
                        nth_error trace i = Some f -> nth_error trace j = Some g ->
                        flags_le f g)
    /\ flips (map fst trace) <= 1
    /\ flips (map snd trace) <= 1.
Proof.
  intros resume_text lines rs trace. subst rs trace. unfold roles, flag_trace.
  split; [apply at_most_one_Name|].
  split; [apply at_most_one_Contact|].
  split; [intros i; now apply Name_is_first_non_blank|].
  split.
  { intros i H. destruct (Contact_after_Name _ _ _ H) as [Hf|Hj]; [discriminate|exact Hj]. }
  split.
  { intros i j f g Hij Hf Hg. exact (trace_monotone lines (false, false) Hij Hf Hg). }
  split.
  - apply (flips_name_flag lines (false, false)).
  - apply (flips_contact_flag lines (false, false)).
Qed.

Lemma add_runs_Forall2 (rs : list Run) :
  forall rs', add_runs rs = Some rs' -> Forall2 (fun r r' => add_run r = Some r') rs rs'.
Proof.
  induction rs as [|r rest IH]; intros rs' H; simpl in H.
  - injection H as <-. constructor.
  - destruct (add_run r) as [r1|] eqn:E; [|discriminate].
    destruct (add_runs rest) as [rest1|]; [|discriminate].
    injection H as <-. constructor; [exact E|now apply IH].
Qed.

Lemma add_runs_None (rs : list Run) :
  add_runs rs = None
  <-> exists r, In r rs /\ forallb xml_compatible (run_text r) = false.
Proof.
  induction rs as [|r rest IH]; simpl.
  - split; [discriminate|intros [r [[] _]]].
  - unfold add_run at 1.
    destruct (forallb xml_compatible (run_text r)) eqn:E.
    + destruct (add_runs rest) as [rest1|].
      * split; [discriminate|]. intros [x [[<-|Hin] Hx]]; [congruence|].
        assert (Hn : Some rest1 = None) by (apply (proj2 IH); now exists x).
        discriminate Hn.
      * split; [|reflexivity]. intros _.
        destruct (proj1 IH eq_refl) as [x [Hin Hx]]. exists x. auto.
    + split; [|reflexivity]. intros _. exists r. auto.
Qed.

Lemma checked_None (p : Paragraph) :
  checked p = None
  <-> exists r, In r (par_runs p) /\ forallb xml_compatible (run_text r) = false.
Proof.
  unfold checked. rewrite <- add_runs_None.
  destruct (add_runs (par_runs p)); split; (discriminate || reflexivity).
Qed.

Lemma checked_all_Forall2 (ps : list Paragraph) :
  forall qs, checked_all ps = Some qs -> Forall2 (fun p q => checked p = Some q) ps qs.
Proof.
  induction ps as [|p rest IH]; intros qs H; simpl in H.
  - injection H as <-. constructor.
  - destruct (checked p) as [q|] eqn:E; [|discriminate].
    destruct (checked_all rest) as [qs1|]; [|discriminate].
    injection H as <-. constructor; [exact E|now apply IH].
Qed.

Lemma checked_all_None (ps : list Paragraph) :
  checked_all ps = None <-> exists p, In p ps /\ checked p = None.
Proof.
  induction ps as [|p rest IH]; simpl.
  - split; [discriminate|intros [p [[] _]]].
  - destruct (checked p) as [q|] eqn:E.
    + destruct (checked_all rest) as [qs|].
      * split; [discriminate|]. intros [x [[<-|Hin] Hx]]; [congruence|].
        assert (Hn : Some qs = None) by (apply (proj2 IH); now exists x).
        discriminate Hn.
      * split; [|reflexivity]. intros _.
        destruct (proj1 IH eq_refl) as [x [Hin Hx]]. exists x. auto.
    + split; [|reflexivity]. intros _. exists p. auto.
Qed.

(** A branch of the checked loop is the branch of the role of the line: it
    raises when a text of the paragraph of that role is refused, and
    appends that paragraph otherwise. *)
Lemma loop_body_checked_role (doc : Document) (nd cd : bool) (raw : text) :
  has_style doc "List Bullet" = true ->
  loop_body_checked ucd (doc, nd, cd) raw
  = match checked (role_paragraph ucd (line_role ucd nd cd (str_strip raw))
                                  (str_strip raw)) with
    | Some q =>
        Some (append_paragraph doc q,
              fst (flags_after (line_role ucd nd cd (str_strip raw)) (nd, cd)),
              snd (flags_after (line_role ucd nd cd (str_strip raw)) (nd, cd)))
    | None => None
    end.
Proof.
  intros Hs. unfold loop_body_checked, line_role, _add_bullet_checked, add_checked.
  rewrite Hs.
  destruct (negb (truthy (str_strip raw))); [reflexivity|].
  destruct (negb nd) eqn:En;
    [cbn [role_paragraph flags_after fst snd]; now destruct (checked _)|].
  destruct (negb cd && _is_contact_line ucd (str_strip raw));
    [cbn [role_paragraph flags_after fst snd]; now destruct (checked _)|].
  destruct (_is_section_header (str_strip raw));
    [cbn [role_paragraph flags_after fst snd]; now destruct (checked _)|].
  destruct (_is_bullet (str_strip raw));
    [cbn [role_paragraph flags_after fst snd]; now destruct (checked _)|].
  destruct (_is_entry_line ucd (str_strip raw));
    cbn [role_paragraph flags_after fst snd]; now destruct (checked _).
Qed.

Lemma while_loop_checked (lines : list text) :
  forall doc nd cd,
    has_style doc "List Bullet" = true ->
    option_map (fun st : Document * bool * bool => fst (fst st))
               (while_loop ucd (doc, nd, cd) lines)
    = option_map (fun qs => fold_left append_paragraph qs doc)
        (checked_all
           (map (fun x => role_paragraph ucd (snd (fst x)) (str_strip (fst (fst x))))
                (classify_from ucd (nd, cd) lines))).
Proof.
  induction lines as [|raw rest IH]; intros doc nd cd Hs; [reflexivity|].
  cbn [while_loop classify_from map fst snd checked_all].
  rewrite loop_body_checked_role by exact Hs.
  destruct (checked _) as [q|]; [|reflexivity].
  destruct (flags_after (line_role ucd nd cd (str_strip raw)) (nd, cd)) as [nd' cd'].
  cbn [fst snd]. rewrite IH by (now rewrite has_style_append).
  destruct (checked_all _); reflexivity.
Qed.

(** The outcome of [to_docx]: ValueError when a text of some paragraph is
    refused, and otherwise the margins, the font, and one paragraph for
    each classified line. *)
Lemma to_docx_checked_document (resume_text : text) :
  to_docx_checked ucd resume_text
  = option_map
      (mkDocument
         [mkMargins (Inches_x100 100) (Inches_x100 100) (Inches_x100 100)
                    (Inches_x100 100)]
         (calibri (Pt_x10 105) (Some (mkRGB 34 34 34)))
         (doc_styles Document_new))
      (checked_all
         (map (fun x => role_paragraph ucd (snd (fst x)) (str_strip (fst (fst x))))
              (classify ucd (normalize resume_text)))).
Proof.
  unfold to_docx_checked. cbv zeta.
  pose proof (while_loop_checked (normalize resume_text)
                (_set_default_font (_set_margins Document_new)) false false eq_refl) as H.
  unfold classify.
  destruct (while_loop ucd _ (normalize resume_text)) as [st|];
    destruct (checked_all _) as [qs|]; simpl in H; try discriminate; [|reflexivity].
  injection H as ->. simpl. now rewrite fold_append_paragraph.
Qed.

(** C4, as the code has it.  [to_docx] raises ValueError, and returns no
    document, exactly when a text it hands to [add_run] holds a character
    that python-docx refuses.  A document that is returned holds, in order,
    one paragraph for each line of the normalised text: the paragraph of the
    role of that line.  Every branch of the loop either raises or appends
    exactly one paragraph to a document made from the default template; the
    branch of a blank line never raises. *)
Theorem paragraphs_mirror_lines :
  forall resume_text,
    let lines := normalize resume_text in
    let built :=
      map (fun x => role_paragraph ucd (snd (fst x)) (str_strip (fst (fst x))))
          (classify ucd lines) in
    map (fun x => fst (fst x)) (classify ucd lines) = lines
    /\ (to_docx_checked ucd resume_text = None
        <-> exists p r,
              In p built /\ In r (par_runs p)
              /\ forallb xml_compatible (run_text r) = false)
    /\ (forall doc,
           to_docx_checked ucd resume_text = Some doc ->
           Forall2 (fun p q => checked p = Some q) built (doc_paragraphs doc)
           /\ List.length (doc_paragraphs doc) = List.length lines)
    /\ (forall sections font paragraphs nd cd raw st',
           let doc := mkDocument sections font (doc_styles Document_new) paragraphs in
           loop_body_checked ucd (doc, nd, cd) raw = Some st' ->
           exists q,
             checked (role_paragraph ucd (line_role ucd nd cd (str_strip raw))
                                     (str_strip raw)) = Some q
             /\ doc_paragraphs (fst (fst st')) = paragraphs ++ [q])
    /\ checked (role_paragraph ucd Blank []) = Some blank_paragraph.
Proof.
  intros resume_text lines built.
  split; [apply classify_from_lines|].
  split.
  { rewrite to_docx_checked_document. fold lines. fold built.
    destruct (checked_all built) as [qs|] eqn:E; simpl.
    - split; [discriminate|]. intros [p [r [Hp [Hr Hx]]]].
      assert (Hn : checked_all built = None).
      { apply checked_all_None. exists p. split; [exact Hp|].
        apply checked_None. now exists r. }
      congruence.
    - split; [|reflexivity]. intros _.
      destruct (proj1 (checked_all_None built) E) as [p [Hp Hc]].
      destruct (proj1 (checked_None p) Hc) as [r [Hr Hx]].
      exists p, r. auto. }
  split.
  { intros doc H. rewrite to_docx_checked_document in H. fold lines in H. fold built in H.
    destruct (checked_all built) as [qs|] eqn:E; [|discriminate].
    injection H as <-. cbn [doc_paragraphs].
    pose proof (checked_all_Forall2 built E) as HF. split; [exact HF|].
    rewrite <- (Forall2_length HF). subst built.
    rewrite length_map. apply classify_from_length. }
  split.
  { intros sections font paragraphs nd cd raw st' doc H.
    rewrite loop_body_checked_role in H by reflexivity.
    destruct (checked _) as [q|]; [|discriminate].
    injection H as <-. exists q. split; reflexivity. }
  reflexivity.
Qed.

(** C5, as the code has it.  Normalising the empty text gives one line, a blank one,
    and the conversion of the empty text gives a document with margins of
    one inch, the default font, and exactly one paragraph: the empty
    paragraph of a blank line. *)
Theorem empty_input_one_blank_paragraph :
  normalize [] = [[]]
  /\ to_docx ucd []
     = mkDocument
         [mkMargins (Inches_x100 100) (Inches_x100 100) (Inches_x100 100) (Inches_x100 100)]
         (calibri (Pt_x10 105) (Some (mkRGB 34 34 34)))
         (doc_styles Document_new)
         [blank_paragraph].
Proof. split; [reflexivity|]. rewrite to_docx_document. reflexivity. Qed.

(** C6, as the code has it.  A line is a contact line exactly when it holds an at
    sign, or a digit followed by seven or more characters that are digits,
    white space, hyphens, dots or parentheses, or, once lowered, the word
    linkedin or github, or a pipe, or a bullet with a white-space character
    on each side. *)
Theorem contact_line_iff :
  forall line,
    _is_contact_line ucd line = true
    <-> In 64%Z line
        \/ phone_run ucd line
        \/ substring (str "linkedin") (str_lower ucd line)
        \/ substring (str "github") (str_lower ucd line)
        \/ In 124%Z line
        \/ spaced_bullet line.
Proof.
  intros line. unfold _is_contact_line. cbv zeta.
  rewrite !orb_true_iff, !re_search_occurs, !str_contains_substring.
  rewrite RE_PHONE_occurs, RE_SEPARATOR_occurs.
  change (str "@") with [64%Z].
  rewrite <- (str_contains_substring [64%Z]), str_contains_char.
  tauto.
Qed.

(** C7.  Once the name and the contact line have been emitted, a line that
    is not blank, no section header and no bullet is an Entry exactly when it
    holds a pipe and a date: a year from 1900 to 2099, the abbreviation of a
    month, or Present or Current, in either case.  An Entry is split at
    pipes into two or three segments; the first is a bold run, each other
    one a regular run after a grey separator run.  The Acme line is an Entry
    of three segments. *)
Theorem entry_detection_and_rendering :
  (forall line,
      truthy line = true -> _is_section_header line = false ->
      _is_bullet line = false ->
      (line_role ucd true true line = Entry
       <-> In 124%Z line /\ has_date ucd line))
  /\ (forall txt,
         In 124%Z txt ->
         exists first others,
           re_split RE_PIPE 2 (str_strip txt) = first :: others
           /\ 1 <= List.length others <= 2
           /\ par_runs (entry_paragraph txt)
              = mkRun (str_strip first) (Some true) (calibri (Pt_x10 105) None)
                :: flat_map
                     (fun part =>
                        [mkRun (str "  |  ") None
                               (calibri (Pt_x10 105) (Some (mkRGB 119 119 119)));
                         mkRun (str_strip part) None (calibri (Pt_x10 105) None)])
                     others)
  /\ line_role ucd true true acme_line = Entry
  /\ par_runs (entry_paragraph acme_line)
     = [mkRun (str "Acme Corp") (Some true) (calibri (Pt_x10 105) None);
        mkRun (str "  |  ") None (calibri (Pt_x10 105) (Some (mkRGB 119 119 119)));
        mkRun (str "Senior Engineer") None (calibri (Pt_x10 105) None);
        mkRun (str "  |  ") None (calibri (Pt_x10 105) (Some (mkRGB 119 119 119)));
        mkRun (str "2019 " ++ [EN_DASH] ++ str " Present") None
              (calibri (Pt_x10 105) None)].
Proof.
  split; [|split; [|split; [lazy; reflexivity|vm_compute; reflexivity]]].
  - intros line Ht Hh Hb. rewrite <- _is_entry_line_iff.
    unfold line_role. rewrite Ht, Hh, Hb. simpl.
    destruct (_is_entry_line ucd line); split; (reflexivity || discriminate).
  - intros txt H. destruct (@entry_runs_split txt H) as [first [others [E [Hl Hr]]]].
    exists first, others. repeat split; [exact E|lia|lia|exact Hr].
Qed.

(** C8.  The normaliser drops a line exactly when the line is blank and the
    line before it is blank; nothing else is dropped, at the start or at the
    end of the text either.  The text of a, four line breaks and b gives the
    three lines a, one blank line, b. *)
Theorem normalizer_blank_rule :
  (forall resume_text,
      normalize resume_text
      = drop_blank_after_blank (map str_rstrip (str_split 10 resume_text)))
  /\ normalize blank_run_text = [str "a"; []; str "b"]
  /\ normalize padded_text = [[]; str "a"; []].
Proof.
  split; [|split; reflexivity].
  intros resume_text. unfold normalize. apply _clean_lines_rule.
Qed.

Lemma map_fixed (f : text -> text) (ls : list text) :
  Forall (fun l => f l = l) ls -> map f ls = ls.
Proof. induction 1 as [|l ls H _ IH]; simpl; [reflexivity|now rewrite H, IH]. Qed.

(** C9.  Normalisation is idempotent: the normalised lines, joined by line
    breaks and normalised again, are the same lines. *)
Theorem normalize_idempotent :
  forall resume_text,
    normalize (str_join 10 (normalize resume_text)) = normalize resume_text.
Proof.
  intros resume_text. unfold normalize. rewrite !_clean_lines_clean_from.
  set (ls0 := map str_rstrip (str_split 10 resume_text)).
  assert (Hne : clean_from false ls0 <> []).
  { apply clean_from_nonempty. subst ls0.
    pose proof (str_split_nonempty 10 resume_text).
    destruct (str_split 10 resume_text); [contradiction|discriminate]. }
  assert (Hnl : Forall (fun l => ~ In 10%Z l) (clean_from false ls0)).
  { apply clean_from_Forall. subst ls0. apply Forall_map.
    eapply Forall_impl; [|apply str_split_no_sep].
    intros l Hl Hin. apply Hl. now apply str_rstrip_In. }
  assert (Hfix : Forall (fun l => str_rstrip l = l) (clean_from false ls0)).
  { apply clean_from_Forall. subst ls0. apply Forall_map.
    apply Forall_forall. intros l _. apply str_rstrip_idem. }
  rewrite (@str_split_join 10 _ Hne Hnl), (@map_fixed _ _ Hfix).
  apply clean_from_idem.
Qed.

(** C10.  A line classified as Entry holds a pipe, so its split gives at
    least two segments: the test of [_add_entry_line] holds, the branch that
    renders the whole line as one bold run is not taken, and the paragraph
    begins with the bold run of the first segment. *)
Theorem entry_fallback_unreachable :
  forall nd cd line,
    line_role ucd nd cd line = Entry ->
    (2 <=? List.length (re_split RE_PIPE 2 (str_strip line)))%nat = true
    /\ exists first others,
        re_split RE_PIPE 2 (str_strip line) = first :: others
        /\ others <> []
        /\ par_runs (entry_paragraph line)
           = entry_first_run first
             :: flat_map (fun part => [entry_sep_run; entry_part_run part]) others
        /\ run_bold (entry_first_run first) = Some true
        /\ run_text (entry_first_run first) = str_strip first.
Proof.
  intros nd cd line H.
  apply line_role_Entry in H. destruct H as [_ [_ [_ H]]].
  apply _is_entry_line_iff in H. destruct H as [Hp _].
  destruct (@entry_runs_split line Hp) as [first [others [E [Hl Hr]]]].
  split.
  - rewrite E. apply Nat.leb_le. simpl. lia.
  - exists first, others. repeat split; [exact E| |exact Hr].
    intros ->. simpl in Hl. lia.
Qed.

End Properties.

(* ================================================================== *)
(** * Concrete runs *)
(* ================================================================== *)

(** The empty text has one line after normalisation, and its document has
    one paragraph: neither is empty. *)
Lemma empty_input_not_empty :
  normalize [] <> [] /\ doc_paragraphs (to_docx ucd_caseless []) <> [].
Proof. split; vm_compute; discriminate. Qed.

(** The bullet line of the scenario holds a bullet and is no contact line:
    the bullet is the first character, with no white space before it. *)
Lemma bullet_line_is_no_contact_line :
  In BULLET bullet_line /\ _is_contact_line ucd_caseless bullet_line = false.
Proof. split; [now left|vm_compute; reflexivity]. Qed.

Lemma at_most_one_name_and_contact_witness :
  nth_error (roles ucd_caseless (normalize scenario_text)) 1 = Some Contact
  /\ exists j, j < 1
               /\ nth_error (roles ucd_caseless (normalize scenario_text)) j = Some Name.
Proof.
  split; [vm_compute; reflexivity|].
  destruct (at_most_one_name_and_contact ucd_caseless scenario_text)
    as [_ [_ [_ [H _]]]].
  apply H. vm_compute. reflexivity.
Defined.

Lemma contact_line_iff_witness :
  In 64%Z (str "jane@example.com")
  /\ _is_contact_line ucd_caseless (str "jane@example.com") = true.
Proof.
  split; [vm_compute; tauto|].
  apply (contact_line_iff ucd_caseless). left. vm_compute. tauto.
Defined.

Lemma entry_detection_and_rendering_witness :
  truthy acme_line = true
  /\ _is_section_header acme_line = false
  /\ _is_bullet acme_line = false
  /\ (line_role ucd_caseless true true acme_line = Entry
      <-> In 124%Z acme_line /\ has_date ucd_caseless acme_line)
  /\ In 124%Z acme_line
  /\ exists first others,
      re_split RE_PIPE 2 (str_strip acme_line) = first :: others
      /\ 1 <= List.length others <= 2.
Proof.
  destruct (entry_detection_and_rendering ucd_caseless) as [H1 [H2 _]].
  assert (Hp : In 124%Z acme_line) by (vm_compute; tauto).
  split; [reflexivity|]. split; [vm_compute; reflexivity|].
  split; [vm_compute; reflexivity|].
  split; [apply H1; vm_compute; reflexivity|].
  split; [exact Hp|].
  destruct (H2 acme_line Hp) as [first [others [E [Hl _]]]].
  exists first, others. split; [exact E|exact Hl].
Defined.

Lemma entry_fallback_unreachable_witness :
  line_role ucd_caseless true true acme_line = Entry
  /\ (2 <=? List.length (re_split RE_PIPE 2 (str_strip acme_line)))%nat = true.
Proof.
  split; [vm_compute; reflexivity|].
  apply (entry_fallback_unreachable ucd_caseless true true acme_line).
  vm_compute. reflexivity.
Defined.

(** Further runs on the sample lines of the specification. *)
Example section_header_upper_case :
  _is_section_header (str "EXPERIENCE") = true
  /\ _is_section_header (str "Experience") = false.
Proof. split; reflexivity. Qed.

Example bullet_glyph_stripped :
  _is_bullet (str_strip (str "  " ++ bullet_line)) = true
  /\ _clean_bullet (str_strip (str "  " ++ bullet_line))
     = str "Led migration of 12 services".
Proof. split; reflexivity. Qed.

Example contact_separators_normalised :
  par_runs (contact_paragraph (str "a@b.c " ++ [BULLET] ++ str " 555|x"))
  = [mkRun (str "a@b.c  |  555  |  x") None
           (calibri (Pt_x10 100) (Some (mkRGB 68 68 68)))].
Proof. reflexivity. Qed.

(* ================================================================== *)
(** * Further properties of the normaliser *)
(* ================================================================== *)

Lemma clean_from_head (lines : list text) :
  forall pb,
    has_blank_pair (clean_from pb lines) = false
    /\ (pb = true ->
        match clean_from pb lines with
        | h :: _ => blank h = false
        | [] => True
        end).
Proof.
  induction lines as [|line rest IH]; intros pb; [split; [reflexivity|intros _; exact I]|].
  cbn [clean_from]. destruct (blank line && pb) eqn:E.
  - apply andb_true_iff in E. destruct E as [_ ->]. apply IH.
  - destruct (IH (blank line)) as [Hp Hh]. split.
    + cbn [has_blank_pair]. destruct (clean_from (blank line) rest) as [|h t] eqn:Ec;
        [reflexivity|].
      rewrite Hp, orb_false_r.
      destruct (blank line); [now rewrite (Hh eq_refl)|reflexivity].
    + intros ->. now rewrite andb_true_r in E.
Qed.

(** Docstring of [_clean_lines], max 1 consecutive blank: the cleaned lines
    never hold two blank lines in a row. *)
Theorem clean_lines_no_blank_pair :
  forall lines, has_blank_pair (_clean_lines lines) = false.
Proof.
  intros lines. rewrite _clean_lines_clean_from. apply clean_from_head.
Qed.

Lemma clean_from_fixed (lines : list text) :
  forall pb,
    has_blank_pair lines = false ->
    (pb = true -> match lines with h :: _ => blank h = false | [] => True end) ->
    clean_from pb lines = lines.
Proof.
  induction lines as [|line rest IH]; intros pb Hp Hh; [reflexivity|].
  cbn [clean_from].
  assert (E : blank line && pb = false).
  { destruct pb; [rewrite (Hh eq_refl)|]; [reflexivity|apply andb_false_r]. }
  rewrite E. f_equal. apply IH.
  - destruct rest as [|b t]; [reflexivity|].
    cbn [has_blank_pair] in Hp. apply orb_false_iff in Hp. tauto.
  - intros Hb. destruct rest as [|b t]; [trivial|].
    cbn [has_blank_pair] in Hp. apply orb_false_iff in Hp. destruct Hp as [Hp _].
    rewrite Hb in Hp. exact Hp.
Qed.

(** Lines without two blank lines in a row are left as they are. *)
Theorem clean_lines_fixed :
  forall lines, has_blank_pair lines = false -> _clean_lines lines = lines.
Proof.
  intros lines H. rewrite _clean_lines_clean_from.
  apply clean_from_fixed; [exact H|discriminate].
Qed.

Lemma clean_from_non_blank (lines : list text) :
  forall pb,
    filter (fun l => negb (blank l)) (clean_from pb lines)
    = filter (fun l => negb (blank l)) lines.
Proof.
  induction lines as [|line rest IH]; intros pb; [reflexivity|].
  cbn [clean_from]. destruct (blank line && pb) eqn:E.
  - apply andb_true_iff in E. destruct E as [Hb _].
    cbn [filter]. rewrite Hb. apply IH.
  - cbn [filter]. rewrite IH. reflexivity.
Qed.

(** No line that is not blank is lost or moved by [_clean_lines]. *)
Theorem clean_lines_keeps_text :
  forall lines,
    filter (fun l => negb (blank l)) (_clean_lines lines)
    = filter (fun l => negb (blank l)) lines.
Proof.
  intros lines. rewrite _clean_lines_clean_from. apply clean_from_non_blank.
Qed.

(** The lines [to_docx] works on: at least one, none with a line break or
    with white space at its end. *)
Theorem normalize_lines_clean :
  forall resume_text,
    normalize resume_text <> []
    /\ Forall (fun l => ~ In 10%Z l /\ str_rstrip l = l) (normalize resume_text).
Proof.
  intros resume_text. unfold normalize. rewrite _clean_lines_clean_from. split.
  - apply clean_from_nonempty.
    pose proof (str_split_nonempty 10 resume_text).
    destruct (str_split 10 resume_text); [contradiction|discriminate].
  - apply clean_from_Forall. apply Forall_map.
    eapply Forall_impl; [|apply str_split_no_sep].
    intros l Hl. split; [|apply str_rstrip_idem].
    intros Hin. apply Hl. now apply str_rstrip_In.
Qed.

Lemma clean_lines_fixed_witness :
  has_blank_pair [str "a"; []; str "b"] = false
  /\ _clean_lines [str "a"; []; str "b"] = [str "a"; []; str "b"].
Proof.
  split; [reflexivity|]. apply clean_lines_fixed. reflexivity.
Defined.

(* ================================================================== *)
(** * Further properties of [strip] *)
(* ================================================================== *)

Lemma str_lstrip_idem (s : text) : str_lstrip (str_lstrip s) = str_lstrip s.
Proof.
  induction s as [|c t IH]; [reflexivity|]. simpl.
  destruct (Py_UNICODE_ISSPACE c) eqn:Hc; [exact IH|]. simpl. now rewrite Hc.
Qed.

Lemma str_rstrip_tail (c : Z) (t : text) :
  str_rstrip (c :: t) = c :: t -> str_rstrip t = t.
Proof.
  rewrite str_rstrip_cons. destruct (str_rstrip t) as [|z l] eqn:E.
  - destruct (Py_UNICODE_ISSPACE c); [discriminate|]. intros H. now injection H as <-.
  - intros H. now injection H as <-.
Qed.

Lemma str_rstrip_lstrip (s : text) :
  str_rstrip s = s -> str_rstrip (str_lstrip s) = str_lstrip s.
Proof.
  induction s as [|c t IH]; intros H; [reflexivity|]. simpl.
  destruct (Py_UNICODE_ISSPACE c); [|exact H].
  apply IH. now apply str_rstrip_tail with (c := c).
Qed.

Lemma str_strip_rstrip (s : text) : str_rstrip (str_strip s) = str_strip s.
Proof. unfold str_strip. apply str_rstrip_lstrip, str_rstrip_idem. Qed.

Lemma str_strip_idem (s : text) : str_strip (str_strip s) = str_strip s.
Proof.
  unfold str_strip at 1. rewrite str_strip_rstrip.
  unfold str_strip. apply str_lstrip_idem.
Qed.

Lemma str_rstrip_all_space (s : text) :
  forallb Py_UNICODE_ISSPACE s = true -> str_rstrip s = [].
Proof.
  induction s as [|c t IH]; [reflexivity|]. simpl forallb. intros H.
  apply andb_true_iff in H. destruct H as [Hc Ht].
  rewrite str_rstrip_cons, (IH Ht), Hc. reflexivity.
Qed.

Lemma str_rstrip_nonspace (g : Z) (rest : text) :
  Py_UNICODE_ISSPACE g = false -> exists r, str_rstrip (g :: rest) = g :: r.
Proof.
  intros Hg. rewrite str_rstrip_cons, Hg.
  destruct (str_rstrip rest) as [|z l]; eauto.
Qed.

Lemma str_rstrip_app (a y : text) :
  str_rstrip y <> [] -> str_rstrip (a ++ y) = a ++ str_rstrip y.
Proof.
  intros Hy. induction a as [|c a IH]; [reflexivity|].
  simpl app. rewrite str_rstrip_cons, IH.
  destruct (a ++ str_rstrip y) as [|z l] eqn:E; [|reflexivity].
  apply app_eq_nil in E. destruct E as [_ E]. contradiction.
Qed.

Lemma str_lstrip_spaces (ws y : text) :
  forallb Py_UNICODE_ISSPACE ws = true -> str_lstrip (ws ++ y) = str_lstrip y.
Proof.
  induction ws as [|c ws IH]; [reflexivity|]. simpl. intros H.
  apply andb_true_iff in H. destruct H as [Hc Hw]. rewrite Hc. now apply IH.
Qed.

Lemma str_lstrip_nonspace (g : Z) (rest : text) :
  Py_UNICODE_ISSPACE g = false -> str_lstrip (g :: rest) = g :: rest.
Proof. intros Hg. simpl. now rewrite Hg. Qed.

(* ================================================================== *)
(** * Further properties of the line classifiers *)
(* ================================================================== *)

Lemma filter_alpha_no_lower (s : text) :
  existsb ascii_islower s = false -> filter ascii_isalpha s = filter ascii_isupper s.
Proof.
  induction s as [|c t IH]; [reflexivity|]. simpl. intros H.
  apply orb_false_iff in H. destruct H as [Hc Ht].
  unfold ascii_isalpha at 1. rewrite Hc, orb_false_r, (IH Ht). reflexivity.
Qed.

Lemma existsb_lower_alpha (s : text) :
  existsb ascii_islower (filter ascii_isalpha s) = existsb ascii_islower s.
Proof.
  induction s as [|c t IH]; [reflexivity|]. simpl.
  unfold ascii_isalpha at 1.
  destruct (ascii_isupper c) eqn:Hu, (ascii_islower c) eqn:Hl; simpl;
    rewrite ?Hl, IH; reflexivity.
Qed.

Lemma existsb_filter_nonempty (p : Z -> bool) (s : text) :
  filter p s <> [] -> existsb p (filter p s) = true.
Proof.
  induction s as [|c t IH]; [intros H; contradiction|]. simpl.
  destruct (p c) eqn:Hc; [intros _; simpl; now rewrite Hc|exact IH].
Qed.

Lemma section_header_no_lower (line : text) :
  _is_section_header line = true -> existsb ascii_islower (str_strip line) = false.
Proof.
  unfold _is_section_header. cbv zeta.
  rewrite alpha_only_letters. set (s := str_strip line).
  destruct (negb (truthy s) || (45 <? List.length s))%nat; [discriminate|].
  destruct (negb (truthy (filter ascii_isalpha s))); [discriminate|].
  unfold str_isupper. rewrite existsb_lower_alpha.
  rewrite !andb_true_iff, negb_true_iff. tauto.
Qed.

(** [_is_section_header] in plain terms: once stripped, the line has at most
    45 characters, no ASCII lower-case letter and at least three ASCII
    upper-case letters; digits, punctuation and characters outside ASCII
    play no part. *)
Theorem section_header_iff :
  forall line,
    _is_section_header line = true
    <-> List.length (str_strip line) <= 45
        /\ existsb ascii_islower (str_strip line) = false
        /\ 3 <= List.length (filter ascii_isupper (str_strip line)).
Proof.
  intros line. unfold _is_section_header. cbv zeta.
  rewrite alpha_only_letters. set (s := str_strip line).
  destruct (negb (truthy s) || (45 <? List.length s))%nat eqn:E1.
  - split; [discriminate|]. intros [Hl [Hlow Hup]].
    apply orb_true_iff in E1. destruct E1 as [E|E].
    + destruct s; [simpl in Hup; lia|discriminate].
    + apply Nat.ltb_lt in E. lia.
  - apply orb_false_iff in E1. destruct E1 as [_ E45].
    apply Nat.ltb_ge in E45.
    destruct (negb (truthy (filter ascii_isalpha s))) eqn:E2.
    + split; [discriminate|]. intros [_ [Hlow Hup]].
      rewrite (filter_alpha_no_lower _ Hlow) in E2.
      destruct (filter ascii_isupper s); [simpl in Hup; lia|discriminate].
    + unfold str_isupper. rewrite existsb_lower_alpha.
      rewrite !andb_true_iff, negb_true_iff, Nat.leb_le. split.
      * intros [[Hlow _] Hlen]. rewrite (filter_alpha_no_lower _ Hlow) in Hlen. auto.
      * intros [_ [Hlow Hup]]. rewrite (filter_alpha_no_lower _ Hlow).
        repeat split; [exact Hlow| |exact Hup].
        apply existsb_filter_nonempty. destruct (filter ascii_isupper s);
          [simpl in Hup; lia|discriminate].
Qed.

(** The second test of [_is_bullet], for an indented glyph, never decides:
    a line it accepts starts with that glyph once stripped, which the first
    test accepts.  So a line is a bullet exactly when, stripped, it starts
    with one of the eight glyphs. *)
Theorem is_bullet_startswith :
  forall line,
    _is_bullet line
    = existsb (fun glyph => str_startswith glyph (str_strip line)) BULLET_GLYPHS.
Proof.
  intros line. unfold _is_bullet. cbv zeta.
  destruct (re_match RE_INDENTED_BULLET line) as [[m rest]|] eqn:E;
    [|apply orb_false_r].
  apply re_match_sound in E. destruct E as [-> L].
  unfold RE_INDENTED_BULLET in L. cbn [seqs fold_right] in L.
  apply Lang_Seq_inv in L. destruct L as [ws [w2 [-> [Hws L]]]].
  apply Lang_Seq_inv in L. destruct L as [w3 [w4 [-> [Hg L]]]].
  apply Lang_Chr_inv in Hg. destruct Hg as [g [-> Hg]].
  apply Lang_Eps_inv in L. subst w4.
  apply Lang_Rep_inv in Hws. destruct Hws as [Hws _].
  assert (Hns : Py_UNICODE_ISSPACE g = false).
  { unfold one_of in Hg. simpl in Hg. rewrite !orb_true_iff in Hg.
    destruct Hg as [Hg|[Hg|[Hg|[Hg|Hg]]]]; try discriminate;
      apply Z.eqb_eq in Hg; subst g; reflexivity. }
  assert (Hs : exists r, str_strip ((ws ++ [g] ++ []) ++ rest) = g :: r).
  { rewrite app_nil_r, <- app_assoc. simpl app.
    destruct (@str_rstrip_nonspace g rest Hns) as [r Hr].
    exists r. unfold str_strip.
    rewrite str_rstrip_app by (rewrite Hr; discriminate).
    rewrite Hr, str_lstrip_spaces by exact Hws.
    now apply str_lstrip_nonspace. }
  destruct Hs as [r ->]. simpl is_some. rewrite orb_true_r.
  unfold one_of in Hg. simpl in Hg. rewrite !orb_true_iff in Hg.
  destruct Hg as [Hg|[Hg|[Hg|[Hg|Hg]]]]; try discriminate;
    apply Z.eqb_eq in Hg; subst g; reflexivity.
Qed.

(* ------------------------------------------------------------------ *)
(** ** [_clean_bullet] *)

Lemma rep_back_top {A} (k : text -> option A) (s : text) (lo n : nat) :
  rep_back k s lo n
  = if (n <? lo)%nat then None
    else match k (skipn n s) with
         | Some a => Some a
         | None => match n with
                   | O => None
                   | S n' => rep_back k s lo n'
                   end
         end.
Proof. destruct n; reflexivity. Qed.

Lemma run_length_stop (p : Z -> bool) (s : text) :
  match skipn (run_length p s) s with
  | c :: _ => p c = false
  | [] => True
  end.
Proof.
  induction s as [|c t IH]; [exact I|]. simpl.
  destruct (p c) eqn:Hc; [exact IH|exact Hc].
Qed.

(** Removing the leading run of a class. *)
Lemma re_sub_at_start_run (p : Z -> bool) (s : text) :
  re_sub_at_start (Rep p 1 None) [] s = skipn (run_length p s) s.
Proof.
  unfold re_sub_at_start, re_match. cbn [sre_match capped].
  rewrite rep_back_top.
  destruct (Nat.ltb_spec (run_length p s) 1) as [H|H]; [|reflexivity].
  assert (run_length p s = 0) as -> by lia. reflexivity.
Qed.

Lemma clean_bullet_head (line : text) :
  match _clean_bullet line with
  | c :: _ => bullet_prefix_class c = false
  | [] => True
  end.
Proof.
  unfold _clean_bullet. rewrite re_sub_at_start_run.
  pose proof (run_length_stop bullet_prefix_class line) as Hstop.
  destruct (skipn (run_length bullet_prefix_class line) line) as [|c t]; [exact I|].
  assert (Hc : Py_UNICODE_ISSPACE c = false).
  { unfold bullet_prefix_class in Hstop. now apply orb_false_iff in Hstop. }
  unfold str_strip. destruct (@str_rstrip_nonspace c t Hc) as [r ->].
  rewrite (@str_lstrip_nonspace c r Hc). exact Hstop.
Qed.

(** [_clean_bullet] takes a prefix of white space and bullet glyphs and a
    suffix of white space off the line and nothing else: what is left does
    not start with white space or a glyph and does not end with white
    space. *)
Theorem clean_bullet_shape :
  forall line,
    exists pre suf,
      line = pre ++ _clean_bullet line ++ suf
      /\ forallb bullet_prefix_class pre = true
      /\ forallb Py_UNICODE_ISSPACE suf = true
      /\ match _clean_bullet line with
         | c :: _ => bullet_prefix_class c = false
         | [] => True
         end
      /\ str_rstrip (_clean_bullet line) = _clean_bullet line.
Proof.
  intros line. unfold _clean_bullet. rewrite re_sub_at_start_run.
  set (n := run_length bullet_prefix_class line).
  pose proof (run_length_stop bullet_prefix_class line) as Hstop. fold n in Hstop.
  assert (Hpre : forallb bullet_prefix_class (firstn n line) = true)
    by (apply run_length_firstn; subst n; lia).
  destruct (str_rstrip_suffix (skipn n line)) as [suf [Es Hsuf]].
  assert (Hstrip : str_strip (skipn n line) = str_rstrip (skipn n line)).
  { unfold str_strip. destruct (skipn n line) as [|c t] eqn:Ed; [reflexivity|].
    assert (Hc : Py_UNICODE_ISSPACE c = false).
    { unfold bullet_prefix_class in Hstop. now apply orb_false_iff in Hstop. }
    destruct (@str_rstrip_nonspace c t Hc) as [r ->].
    now apply str_lstrip_nonspace. }
  exists (firstn n line), suf. rewrite Hstrip. repeat split.
  - rewrite <- Es. symmetry. apply firstn_skipn.
  - exact Hpre.
  - exact Hsuf.
  - destruct (skipn n line) as [|c t] eqn:Ed; [exact I|].
    assert (Hc : Py_UNICODE_ISSPACE c = false).
    { unfold bullet_prefix_class in Hstop. now apply orb_false_iff in Hstop. }
    destruct (@str_rstrip_nonspace c t Hc) as [r ->]. exact Hstop.
  - apply str_rstrip_idem.
Qed.

(** Cleaning a cleaned bullet text changes nothing. *)
Theorem clean_bullet_idempotent :
  forall line, _clean_bullet (_clean_bullet line) = _clean_bullet line.
Proof.
  intros line.
  pose proof (clean_bullet_head line) as Hh.
  assert (Hr : str_rstrip (_clean_bullet line) = _clean_bullet line)
    by (unfold _clean_bullet; apply str_strip_rstrip).
  set (r := _clean_bullet line) in *.
  unfold _clean_bullet at 1. rewrite re_sub_at_start_run.
  destruct r as [|c t] eqn:Er; [reflexivity|].
  simpl run_length. rewrite Hh. simpl skipn.
  unfold str_strip. rewrite Hr. apply str_lstrip_nonspace.
  unfold bullet_prefix_class in Hh. now apply orb_false_iff in Hh.
Qed.

(* ------------------------------------------------------------------ *)
(** ** Leftmost matches *)

Lemma re_search_leftmost (r : regex) (s : text) :
  forall pre m rest,
    re_search r s = Some (pre, m, rest) ->
    forall a b, pre = a ++ b -> b <> [] -> re_match r (b ++ m ++ rest) = None.
Proof.
  induction s as [|c t IH]; intros pre m rest H a b Ep Hb; simpl in H.
  - destruct (re_match r []) as [[m0 rest0]|]; [|discriminate].
    injection H as <- <- <-. destruct a, b; try discriminate. contradiction.
  - destruct (re_match r (c :: t)) as [[m0 rest0]|] eqn:E.
    + injection H as <- <- <-. destruct a, b; try discriminate. contradiction.
    + destruct (re_search r t) as [[[pre0 m0] rest0]|] eqn:Es; [|discriminate].
      injection H as <- <- <-.
      destruct a as [|x a].
      * simpl in Ep. subst b. apply re_search_sound in Es. destruct Es as [-> _].
        exact E.
      * injection Ep as <- Ep. exact (IH _ _ _ eq_refl a b Ep Hb).
Qed.

(** No character that is a match on its own stands before the leftmost
    match, and none is left where there is no match. *)
Lemma re_search_before (r : regex) (P : Z -> bool) (s pre m rest : text) :
  (forall c, P c = true -> Lang r [c]) ->
  re_search r s = Some (pre, m, rest) ->
  forall c, In c pre -> P c = false.
Proof.
  intros HP H c Hin. destruct (P c) eqn:Hc; [|reflexivity]. exfalso.
  apply in_split in Hin. destruct Hin as [a [b ->]].
  pose proof (@re_search_leftmost r s _ _ _ H a (c :: b) eq_refl) as Hl.
  assert (Hn : re_match r ((c :: b) ++ m ++ rest) = None) by (apply Hl; discriminate).
  apply (@re_match_complete r [c] (b ++ m ++ rest) (HP c Hc)). exact Hn.
Qed.







Lemma Lang_RE_PIPE_pipe : Lang RE_PIPE [124%Z].
Proof.
  unfold RE_PIPE, star. cbn [seqs fold_right].
  change [124%Z] with ([] ++ [124%Z] ++ [] ++ []).
  constructor; [constructor; simpl; [reflexivity|lia|trivial]|].
  constructor; [now apply Lang_lit_inv|].
  constructor; [constructor; simpl; [reflexivity|lia|trivial]|constructor].
Qed.

(** Every segment of a split at pipes but the last holds no pipe. *)
Lemma re_split_pipe_free (n : nat) :
  forall s, Forall (fun part => ~ In 124%Z part) (removelast (re_split RE_PIPE n s)).
Proof.
  induction n as [|n IH]; intros s; [constructor|]. cbn [re_split].
  destruct (re_search RE_PIPE s) as [[[pre m] rest]|] eqn:E; [|constructor].
  pose proof (re_split_length RE_PIPE n rest) as [Hl _].
  destruct (re_split RE_PIPE n rest) as [|p ps] eqn:Er; [simpl in Hl; lia|].
  change (removelast (pre :: p :: ps)) with (pre :: removelast (p :: ps)).
  constructor; [|rewrite <- Er; apply IH].
  intros Hin.
  assert (Hf : Z.eqb 124 124 = false).
  { apply (@re_search_before RE_PIPE (Z.eqb 124) s pre m rest); [|exact E|exact Hin].
    intros c Hc. apply Z.eqb_eq in Hc. subst c. apply Lang_RE_PIPE_pipe. }
  discriminate.
Qed.

(** The first run of an entry paragraph is bold and holds no pipe, whatever
    the line; with three segments the second holds no pipe either, so that
    further pipes stay in the last segment. *)
Theorem entry_first_run_pipe_free :
  forall txt,
    (exists r rest,
        par_runs (entry_paragraph txt) = r :: rest
        /\ run_bold r = Some true /\ ~ In 124%Z (run_text r))
    /\ (forall a b c, re_split RE_PIPE 2 (str_strip txt) = [a; b; c] ->
                      ~ In 124%Z a /\ ~ In 124%Z b).
Proof.
  intros txt. pose proof (re_split_pipe_free 2 (str_strip txt)) as Hf. split.
  - cbn [entry_paragraph par_runs]. unfold entry_runs. cbv zeta.
    destruct (Nat.leb_spec 2 (List.length (re_split RE_PIPE 2 (str_strip txt)))) as [H|H].
    + destruct (re_split RE_PIPE 2 (str_strip txt)) as [|first [|second others]];
        try (simpl in H; lia).
      eexists _, _. split; [reflexivity|]. split; [reflexivity|].
      cbn [entry_first_run run_text]. intros Hin. apply str_strip_In in Hin.
      change (removelast (first :: second :: others))
        with (first :: removelast (second :: others)) in Hf.
      inversion Hf; subst. contradiction.
    + eexists _, _. split; [reflexivity|]. split; [reflexivity|].
      cbn [run_text]. intros Hin.
      pose proof (re_split_length RE_PIPE 2 (str_strip txt)) as [Hl _].
      destruct (re_split RE_PIPE 2 (str_strip txt)) as [|p [|q ps]] eqn:Es;
        try (simpl in H, Hl; lia).
      cbn [re_split] in Es.
      destruct (re_search RE_PIPE (str_strip txt)) as [[[pre m] rest]|] eqn:E.
      * destruct (re_search RE_PIPE rest) as [[[? ?] ?]|]; discriminate.
      * assert (Hn : re_search RE_PIPE (str_strip txt) <> None).
        { apply in_split in Hin. destruct Hin as [x [y Hxy]]. rewrite Hxy.
          apply (@re_search_complete RE_PIPE [124%Z] y Lang_RE_PIPE_pipe). }
        contradiction.
  - intros a b c E. rewrite E in Hf.
    change (removelast [a; b; c]) with [a; b] in Hf.
    inversion Hf as [|? ? Ha Hb]; subst. inversion Hb; subst. auto.
Qed.

(* ================================================================== *)
(** * Further properties of the document *)
(* ================================================================== *)

Lemma str_split_all_space (sep : Z) (s : text) :
  forallb Py_UNICODE_ISSPACE s = true ->
  Forall (fun l => forallb Py_UNICODE_ISSPACE l = true) (str_split sep s).
Proof.
  induction s as [|c t IH]; simpl; intros H; [repeat constructor|].
  apply andb_true_iff in H. destruct H as [Hc Ht]. specialize (IH Ht).
  destruct (c =? sep)%Z; [constructor; [reflexivity|exact IH]|].
  destruct (str_split sep t) as [|l ls]; [repeat constructor; simpl; now rewrite Hc|].
  inversion IH; subst. constructor; [simpl; now rewrite Hc|assumption].
Qed.

Lemma clean_from_all_empty (lines : list text) :
  Forall (fun l => l = []) lines -> clean_from true lines = [].
Proof.
  induction 1 as [|l ls -> _ IH]; [reflexivity|]. exact IH.
Qed.

Lemma normalize_white_space (resume_text : text) :
  forallb Py_UNICODE_ISSPACE resume_text = true -> normalize resume_text = [[]].
Proof.
  intros H. unfold normalize. rewrite _clean_lines_clean_from.
  assert (Ha : Forall (fun l => l = []) (map str_rstrip (str_split 10 resume_text))).
  { apply Forall_map. eapply Forall_impl; [|apply (str_split_all_space 10 _ H)].
    intros l Hl. now apply str_rstrip_all_space. }
  pose proof (str_split_nonempty 10 resume_text) as Hne.
  destruct (str_split 10 resume_text) as [|l ls]; [contradiction|].
  simpl map in *. inversion Ha as [|? ? Hl Hls]; subst. rewrite Hl.
  cbn [clean_from]. change (blank [] && false) with false. cbv iota.
  change (blank []) with true. now rewrite (clean_from_all_empty Hls).
Qed.

Section Document.

Variable ucd : UnicodeData.

(** A text of white space only (line breaks included) gives the document of
    the empty text: the page set-up and one empty paragraph. *)
Theorem white_space_document :
  forall resume_text,
    forallb Py_UNICODE_ISSPACE resume_text = true ->
    to_docx ucd resume_text = to_docx ucd [].
Proof.
  intros resume_text H. unfold to_docx. cbv zeta.
  now rewrite (normalize_white_space _ H).
Qed.

Lemma role_paragraph_runs (r : LineRole) (line : text) (run : Run) :
  In run (par_runs (role_paragraph ucd r line)) ->
  font_name (run_font run) = Some "Calibri"
  /\ In (font_size (run_font run))
        [Some (Pt_x10 180); Some (Pt_x10 110); Some (Pt_x10 105); Some (Pt_x10 100)].
Proof.
  destruct r; cbn [role_paragraph par_runs name_paragraph contact_paragraph
                   section_header_paragraph entry_paragraph body_paragraph
                   blank_paragraph];
    try (intros [<-|[]]; split; [reflexivity|simpl; tauto]);
    try (intros []).
  unfold entry_runs. cbv zeta.
  destruct (2 <=? List.length (re_split RE_PIPE 2 (str_strip line)))%nat;
    [|intros [<-|[]]; split; [reflexivity|simpl; tauto]].
  destruct (re_split RE_PIPE 2 (str_strip line)) as [|first others]; [intros []|].
  intros [<-|H]; [split; [reflexivity|simpl; tauto]|].
  apply in_flat_map in H. destruct H as [part [_ [<-|[<-|[]]]]];
    split; (reflexivity || (simpl; tauto)).
Qed.

(** The layout of the module docstring holds for every text: one section
    with margins of one inch on all sides, Normal in Calibri 10.5 pt, and
    every run of every paragraph in Calibri at 18, 11, 10.5 or 10 pt. *)
Theorem ats_layout_enforced :
  forall resume_text,
    doc_sections (to_docx ucd resume_text)
    = [mkMargins (Inches_x100 100) (Inches_x100 100) (Inches_x100 100) (Inches_x100 100)]
    /\ doc_normal_font (to_docx ucd resume_text)
       = mkFont (Some "Calibri") (Some (Pt_x10 105)) (Some (mkRGB 34 34 34))
    /\ (forall p run,
           In p (doc_paragraphs (to_docx ucd resume_text)) -> In run (par_runs p) ->
           font_name (run_font run) = Some "Calibri"
           /\ In (font_size (run_font run))
                 [Some (Pt_x10 180); Some (Pt_x10 110); Some (Pt_x10 105);
                  Some (Pt_x10 100)]).
Proof.
  intros resume_text. rewrite to_docx_document. cbn [doc_sections doc_normal_font doc_paragraphs].
  split; [reflexivity|]. split; [reflexivity|].
  intros p run Hp Hr. apply in_map_iff in Hp. destruct Hp as [x [<- _]].
  exact (role_paragraph_runs _ _ _ Hr).
Qed.


Lemma ascii_islower_not_space (c : Z) :
  ascii_islower c = true -> Py_UNICODE_ISSPACE c = false.
Proof.
  unfold ascii_islower, Py_UNICODE_ISSPACE, in_range. intros H.
  apply andb_true_iff in H. destruct H as [H1 H2].
  apply Z.leb_le in H1, H2.
  repeat (apply orb_false_iff; split);
    try (apply andb_false_iff; first [left; apply Z.leb_gt; lia|right; apply Z.leb_gt; lia]);
    apply Z.eqb_neq; lia.
Qed.

Lemma str_upper_ascii_caps (line : text) :
  forallb is_ascii line = true -> existsb ascii_islower line = false ->
  str_upper ucd line = line.
Proof.
  unfold str_upper. induction line as [|c t IH]; [reflexivity|].
  cbn [flat_map forallb existsb].
  intros Ha Hl. apply andb_true_iff in Ha. destruct Ha as [Hc Ht].
  apply orb_false_iff in Hl. destruct Hl as [Hlc Hlt].
  rewrite Hc. unfold ascii_toupper. rewrite Hlc. cbn [app].
  f_equal. now apply IH.
Qed.

Lemma kept_as_written_stored (s : text) :
  forallb kept_as_written s = true ->
  forallb xml_compatible s = true /\ map as_stored s = s.
Proof.
  induction s as [|c t IH]; [split; reflexivity|]. cbn [forallb map]. intros H.
  apply andb_true_iff in H. destruct H as [Hc Ht].
  unfold kept_as_written in Hc. apply andb_true_iff in Hc. destruct Hc as [Hx Hr].
  destruct (IH Ht) as [H1 H2]. rewrite Hx, H1, H2. split; [reflexivity|].
  unfold as_stored. apply negb_true_iff in Hr. now rewrite Hr.
Qed.

Lemma ascii_header_upper (line : text) :
  _is_section_header line = true -> forallb is_ascii line = true ->
  str_strip (str_upper ucd line) = str_strip line.
Proof.
  intros Hh Ha. pose proof (section_header_no_lower _ Hh) as Hlow.
  rewrite str_upper_ascii_caps; [reflexivity|exact Ha|].
  destruct (existsb ascii_islower line) eqn:E; [|reflexivity].
  apply existsb_exists in E. destruct E as [c [Hin Hc]].
  assert (Hs : In c (str_strip line))
    by (apply str_strip_keeps; [now apply ascii_islower_not_space|exact Hin]).
  assert (Ht : existsb ascii_islower (str_strip line) = true)
    by (apply existsb_exists; eauto).
  congruence.
Qed.

(** For a section header written in ASCII, without a carriage return or a
    control character that python-docx refuses inside it,
    [_add_section_header] does not raise and the upper-casing changes
    nothing: the run of the paragraph reads as the stripped line was
    written. *)
Theorem ascii_header_text_unchanged :
  forall line,
    _is_section_header line = true -> forallb is_ascii line = true ->
    forallb kept_as_written (str_strip line) = true ->
    checked (section_header_paragraph ucd line)
    = Some (mkParagraph None None (Some (Pt_x10 100)) (Some (Pt_x10 30)) None
              (Some (mkBorder "single" "4" "1" "AAAAAA"))
              [mkRun (str_strip line) (Some true)
                     (calibri (Pt_x10 110) (Some (mkRGB 17 17 17)))]).
Proof.
  intros line Hh Ha Hk.
  destruct (kept_as_written_stored _ Hk) as [Hx Hst].
  unfold checked, section_header_paragraph.
  cbn [par_runs par_style par_alignment par_space_before par_space_after
       par_left_indent par_border add_runs].
  unfold add_run. cbn [run_text run_bold run_font].
  rewrite (@ascii_header_upper line Hh Ha), Hx, Hst. reflexivity.
Qed.

Lemma add_runs_kept (rs : list Run) :
  (forall r, In r rs -> forallb kept_as_written (run_text r) = true) ->
  add_runs rs = Some rs.
Proof.
  induction rs as [|r rest IH]; intros H; [reflexivity|].
  cbn [add_runs]. unfold add_run.
  destruct (kept_as_written_stored _ (H r (or_introl eq_refl))) as [Hx Hst].
  rewrite Hx, Hst, IH by (intros x Hin; apply H; now right).
  now destruct r.
Qed.

Lemma checked_all_kept (ps : list Paragraph) :
  (forall p r, In p ps -> In r (par_runs p) ->
               forallb kept_as_written (run_text r) = true) ->
  checked_all ps = Some ps.
Proof.
  induction ps as [|p rest IH]; intros H; [reflexivity|].
  cbn [checked_all]. unfold checked.
  rewrite add_runs_kept by (intros r Hr; apply (H p r); [now left|exact Hr]).
  rewrite IH by (intros q r Hq Hr; apply (H q r); [now right|exact Hr]).
  now destruct p.
Qed.

(** When no text handed to [add_run] holds a carriage return or a character
    that python-docx refuses, [to_docx] does not raise and the document is
    the one of the builders, each run reading as its text was handed
    over. *)
Theorem plain_text_document :
  forall resume_text,
    (forall p r,
        In p (doc_paragraphs (to_docx ucd resume_text)) -> In r (par_runs p) ->
        forallb kept_as_written (run_text r) = true) ->
    to_docx_checked ucd resume_text = Some (to_docx ucd resume_text).
Proof.
  intros resume_text H.
  rewrite to_docx_checked_document, to_docx_document.
  rewrite to_docx_document in H. cbn [doc_paragraphs] in H.
  now rewrite (checked_all_kept _ H).
Qed.

End Document.

(* ================================================================== *)
(** * main.py: the allowed origins *)
(* ================================================================== *)

(** Every allowed origin is a piece of the setting between commas, without
    the white space around it: none is empty, none starts or ends with
    white space, none holds a comma; and every piece that is not blank gives
    an origin. *)
Theorem origins_clean :
  forall raw_origins,
    (forall o, In o (origins raw_origins) ->
               o <> [] /\ str_strip o = o /\ ~ In 44%Z o)
    /\ (forall piece, In piece (str_split 44 raw_origins) -> blank piece = false ->
                      In (str_strip piece) (origins raw_origins)).
Proof.
  intros raw. unfold origins. split.
  - intros o Ho. apply in_map_iff in Ho. destruct Ho as [x [<- Hx]].
    apply filter_In in Hx. destruct Hx as [Hx Ht].
    split; [destruct (str_strip x); [discriminate|discriminate]|].
    split; [apply str_strip_idem|].
    intros Hin. apply str_strip_In in Hin.
    pose proof (str_split_no_sep 44 raw) as Hall.
    rewrite Forall_forall in Hall. exact (Hall x Hx Hin).
  - intros piece Hp Hb. apply in_map. apply filter_In. split; [exact Hp|].
    unfold blank in Hb. now apply negb_false_iff in Hb.
Qed.

Lemma origins_clean_witness :
  In (str "http://localhost:3000")
     (origins (str "http://localhost:5173, http://localhost:3000 ,")).
Proof.
  destruct (origins_clean (str "http://localhost:5173, http://localhost:3000 ,"))
    as [_ H].
  apply (H (str " http://localhost:3000 ")); [vm_compute; tauto|reflexivity].
Defined.

(* ================================================================== *)
(** * file_parser.py *)
(* ================================================================== *)

Lemma text_eqb_eq (a b : text) : text_eqb a b = true <-> a = b.
Proof.
  revert b. induction a as [|x a IH]; destruct b as [|y b]; simpl;
    try (split; [discriminate|discriminate]); [split; reflexivity|].
  rewrite andb_true_iff, Z.eqb_eq, IH. split.
  - intros [-> ->]. reflexivity.
  - intros H. injection H as -> ->. auto.
Qed.

Lemma text_eqb_refl (a : text) : text_eqb a a = true.
Proof. now apply text_eqb_eq. Qed.

Lemma str_rfind_absent (c : Z) (s : text) : ~ In c s -> str_rfind c s = (-1)%Z.
Proof.
  induction s as [|x t IH]; [reflexivity|]. intros H. simpl.
  rewrite IH by (intros Hin; apply H; now right). simpl.
  destruct (Z.eqb_spec x c) as [->|_]; [exfalso; apply H; now left|reflexivity].
Qed.

Lemma str_rfind_last (c : Z) (s e : text) :
  ~ In c e -> str_rfind c (s ++ c :: e) = Z.of_nat (List.length s).
Proof.
  intros He. induction s as [|x s IH].
  - simpl. rewrite (@str_rfind_absent c e He). simpl. now rewrite Z.eqb_refl.
  - cbn [app str_rfind List.length]. rewrite IH.
    destruct (Z.leb_spec 0 (Z.of_nat (List.length s))); lia.
Qed.

Lemma last_In (ls : list text) (l : text) : In l ls -> In (last ls []) ls.
Proof.
  intros H. destruct ls as [|x ls]; [destruct H|].
  clear H. revert x. induction ls as [|y ls IH]; intros x; [now left|].
  right. apply IH.
Qed.

Lemma str_split_parts (sep c : Z) (s : text) :
  forall part, In part (str_split sep s) -> In c part -> In c s.
Proof.
  induction s as [|x t IH]; simpl; intros part Hp Hc.
  - destruct Hp as [<-|[]]. exact Hc.
  - destruct (x =? sep)%Z.
    + destruct Hp as [<-|Hp]; [destruct Hc|]. right. now apply (IH part).
    + destruct (str_split sep t) as [|l ls].
      * destruct Hp as [<-|[]]. destruct Hc as [->|[]]. now left.
      * destruct Hp as [<-|Hp].
        -- destruct Hc as [->|Hc]; [now left|]. right. apply (IH l); [now left|exact Hc].
        -- right. apply (IH part); [now right|exact Hc].
Qed.

Lemma Path_name_In (c : Z) (filename : text) :
  In c (Path_name filename) -> In c filename.
Proof.
  unfold Path_name. intros H.
  destruct (filter (fun part => truthy part && negb (text_eqb part (str ".")))
                   (str_split 47 filename)) as [|p ps] eqn:E; [destruct H|].
  assert (Hl : In (last (p :: ps) []) (p :: ps)) by (apply (@last_In (p :: ps) p); now left).
  rewrite <- E in Hl at 2. apply filter_In in Hl. destruct Hl as [Hl _].
  exact (@str_split_parts 47%Z c filename _ Hl H).
Qed.

Lemma Path_name_simple (filename : text) :
  ~ In 47%Z filename -> 2 <= List.length filename -> Path_name filename = filename.
Proof.
  intros Hs Hl. unfold Path_name. rewrite (@str_split_line 47%Z filename Hs). simpl.
  destruct filename as [|a [|b t]]; try (simpl in Hl; lia).
  change (str ".") with [46%Z]. cbn [truthy text_eqb].
  rewrite andb_false_r. reflexivity.
Qed.

Lemma Path_suffix_stem (stem e : text) :
  stem <> [] -> ~ In 47%Z stem -> e <> [] -> ~ In 47%Z e -> ~ In 46%Z e ->
  Path_suffix (stem ++ [46%Z] ++ e) = 46%Z :: e.
Proof.
  intros Hs Hs47 He He47 He46. unfold Path_suffix. cbv zeta.
  rewrite Path_name_simple.
  - simpl app. rewrite (@str_rfind_last 46%Z stem e He46).
    rewrite length_app. cbn [List.length].
    destruct stem as [|x stem]; [contradiction|]. destruct e as [|y e]; [contradiction|].
    cbn [List.length].
    destruct (Z.ltb_spec 0 (Z.of_nat (S (List.length stem)))); [|lia].
    destruct (Z.ltb_spec (Z.of_nat (S (List.length stem)))
                (Z.of_nat (S (List.length stem) + S (S (List.length e))) - 1)); [|lia].
    cbn [andb]. rewrite Nat2Z.id.
    change (x :: stem ++ 46%Z :: y :: e) with ((x :: stem) ++ 46%Z :: y :: e).
    apply skipn_app_length.
  - intros Hin. apply in_app_or in Hin. destruct Hin as [Hin|Hin]; [now apply Hs47|].
    destruct Hin as [Hin|Hin]; [discriminate|now apply He47].
  - rewrite length_app. destruct stem; [contradiction|]. simpl. lia.
Qed.

Lemma ascii_case_variant_facts (w e : text) :
  Forall (fun a => ascii_islower a = true) w ->
  ascii_case_variant w e ->
  map ascii_tolower e = w /\ forallb is_ascii e = true
  /\ ~ In 46%Z e /\ ~ In 47%Z e.
Proof.
  intros Hw Hv. induction Hv as [|a c w e Hc Hv IH].
  - repeat split; auto.
  - inversion Hw as [|? ? Ha Hw']; subst. destruct (IH Hw') as [H1 [H2 [H3 H4]]].
    unfold ascii_islower, in_range in Ha. apply andb_true_iff in Ha.
    destruct Ha as [Ha1 Ha2]. apply Z.leb_le in Ha1, Ha2.
    assert (Hl : ascii_tolower c = a).
    { unfold ascii_tolower, ascii_isupper, in_range.
      destruct Hc as [->| ->].
      - destruct (Z.leb_spec 65 a), (Z.leb_spec a 90); simpl; lia.
      - destruct (Z.leb_spec 65 (a - 32)), (Z.leb_spec (a - 32) 90); simpl; lia. }
    assert (Hasc : is_ascii c = true).
    { unfold is_ascii, in_range. apply andb_true_iff.
      split; apply Z.leb_le; destruct Hc; lia. }
    simpl. rewrite Hl, H1, Hasc, H2. repeat split.
    + intros [E|E]; [destruct Hc; lia|now apply H3].
    + intros [E|E]; [destruct Hc; lia|now apply H4].
Qed.

Section FileParserProperties.

Variable ucd : UnicodeData.
Variable pdf_page_texts : bytes -> text + list text.
Variable docx_paragraph_texts : bytes -> text + list text.

Lemma str_lower_ascii_from (s whole : text) :
  forall k,
    forallb is_ascii s = true ->
    flat_map (fun ic : nat * Z =>
                let (i, c) := ic in
                if is_ascii c then [ascii_tolower c] else ucd_lower ucd whole i c)
             (combine (seq k (List.length s)) s)
    = map ascii_tolower s.
Proof.
  induction s as [|c t IH]; intros k H; [reflexivity|].
  cbn [List.length seq combine flat_map map forallb] in *.
  apply andb_true_iff in H. destruct H as [Hc Ht].
  rewrite Hc, (IH (S k) Ht). reflexivity.
Qed.

Lemma str_lower_ascii (s : text) :
  forallb is_ascii s = true -> str_lower ucd s = map ascii_tolower s.
Proof. intros H. unfold str_lower. now apply str_lower_ascii_from. Qed.

Lemma extension_of (stem e w : text) :
  stem <> [] -> ~ In 47%Z stem -> w <> [] ->
  Forall (fun a => ascii_islower a = true) w ->
  ascii_case_variant w e ->
  str_lower ucd (Path_suffix (stem ++ [46%Z] ++ e)) = 46%Z :: w.
Proof.
  intros Hs Hs47 Hw Hlow Hv.
  destruct (@ascii_case_variant_facts w e Hlow Hv) as [Hm [Ha [H46 H47]]].
  assert (He : e <> []) by (intros ->; inversion Hv; subst; contradiction).
  rewrite (@Path_suffix_stem stem e Hs Hs47 He H47 H46).
  rewrite str_lower_ascii by (simpl; now rewrite Ha).
  simpl. now rewrite Hm.
Qed.

(** A name made of a stem, a dot and one of the four extensions, in any mix
    of upper and lower case, goes to the parser of that extension; a parser
    that fails gives a ValueError with its message, and a text file never
    fails. *)
Theorem extract_text_by_extension :
  forall data stem e,
    stem <> [] -> ~ In 47%Z stem ->
    (ascii_case_variant (str "pdf") e ->
     extract_text ucd pdf_page_texts docx_paragraph_texts data (stem ++ [46%Z] ++ e)
     = parse_outcome_of (_from_pdf pdf_page_texts data))
    /\ (ascii_case_variant (str "docx") e \/ ascii_case_variant (str "doc") e ->
        extract_text ucd pdf_page_texts docx_paragraph_texts data (stem ++ [46%Z] ++ e)
        = parse_outcome_of (_from_docx docx_paragraph_texts data))
    /\ (ascii_case_variant (str "txt") e ->
        extract_text ucd pdf_page_texts docx_paragraph_texts data (stem ++ [46%Z] ++ e)
        = inr (_from_txt data)).
Proof.
  intros data stem e Hs Hs47.
  assert (Hlow : forall w, In w [str "pdf"; str "docx"; str "doc"; str "txt"] ->
                           w <> [] /\ Forall (fun a => ascii_islower a = true) w).
  { intros w [<-|[<-|[<-|[<-|[]]]]]; (split; [discriminate|repeat constructor]). }
  split; [|split].
  - intros Hv. destruct (Hlow (str "pdf")) as [Hn Hl]; [simpl; tauto|].
    unfold extract_text. cbv zeta. rewrite (@extension_of stem e _ Hs Hs47 Hn Hl Hv).
    reflexivity.
  - intros [Hv|Hv].
    + destruct (Hlow (str "docx")) as [Hn Hl]; [simpl; tauto|].
      unfold extract_text. cbv zeta. rewrite (@extension_of stem e _ Hs Hs47 Hn Hl Hv).
      reflexivity.
    + destruct (Hlow (str "doc")) as [Hn Hl]; [simpl; tauto|].
      unfold extract_text. cbv zeta. rewrite (@extension_of stem e _ Hs Hs47 Hn Hl Hv).
      reflexivity.
  - intros Hv. destruct (Hlow (str "txt")) as [Hn Hl]; [simpl; tauto|].
    unfold extract_text. cbv zeta. rewrite (@extension_of stem e _ Hs Hs47 Hn Hl Hv).
    reflexivity.
Qed.

Lemma str_lower_nil : str_lower ucd [] = [].
Proof. reflexivity. Qed.

(** A name without a dot has no extension and is refused before any
    parsing, with the message for an unsupported format; such is the name
    resume that the route gives an upload without a name. *)
Theorem extract_text_without_extension :
  forall data filename,
    ~ In 46%Z filename ->
    extract_text ucd pdf_page_texts docx_paragraph_texts data filename
    = inl (unsupported_message []).
Proof.
  intros data filename H. unfold extract_text. cbv zeta.
  assert (Hs : Path_suffix filename = []).
  { unfold Path_suffix. cbv zeta. rewrite str_rfind_absent; [reflexivity|].
    intros Hin. apply H. now apply Path_name_In. }
  rewrite Hs. reflexivity.
Qed.

(** The last statement of [extract_text] is never reached, as its comment
    says: an extension that passes the test against ALLOWED is taken by one
    of the three branches. *)
Theorem extract_text_return_unreachable :
  forall ext data,
    existsb (text_eqb ext) ALLOWED = true ->
    parse_by_extension pdf_page_texts docx_paragraph_texts ext data <> None.
Proof.
  intros ext data H. unfold ALLOWED in H. simpl in H.
  unfold parse_by_extension. simpl existsb.
  destruct (text_eqb ext (str ".pdf")); [discriminate|].
  destruct (text_eqb ext (str ".docx")); [discriminate|].
  destruct (text_eqb ext (str ".doc")); [discriminate|].
  destruct (text_eqb ext (str ".txt")); [discriminate|].
  discriminate.
Qed.

(** The text [extract_text] returns never starts or ends with white space,
    whatever the format. *)
Theorem extract_text_stripped :
  forall data filename t,
    extract_text ucd pdf_page_texts docx_paragraph_texts data filename = inr t ->
    str_strip t = t.
Proof.
  intros data filename t. unfold extract_text. cbv zeta.
  destruct (negb _); [discriminate|].
  unfold parse_by_extension, _from_pdf, _from_docx, _from_txt.
  destruct (text_eqb _ (str ".pdf")).
  { destruct (pdf_page_texts data); [discriminate|].
    intros H. injection H as <-. apply str_strip_idem. }
  destruct (existsb _ _).
  { destruct (docx_paragraph_texts data); [discriminate|].
    intros H. injection H as <-. apply str_strip_idem. }
  destruct (text_eqb _ (str ".txt")); intros H; injection H as <-;
    [apply str_strip_idem|reflexivity].
Qed.

End FileParserProperties.

(* ------------------------------------------------------------------ *)
(** ** Text files *)

Lemma in_range_iff (lo hi x : Z) : in_range lo hi x = true <-> (lo <= x <= hi)%Z.
Proof. unfold in_range. rewrite andb_true_iff, !Z.leb_le. tauto. Qed.

Lemma unicode_scalar_iff (c : Z) :
  unicode_scalar c = true <-> (0 <= c <= 55295 \/ 57344 <= c <= 1114111)%Z.
Proof. unfold unicode_scalar. now rewrite orb_true_iff, !in_range_iff. Qed.

Lemma utf8_decode_cons (b0 : Z) (t0 : bytes) :
  utf8_decode (b0 :: t0)
  = if in_range 0 127 b0 then ocons b0 (utf8_decode t0)
    else if in_range 194 223 b0 then
      match t0 with
      | b1 :: t1 =>
          if utf8_cont b1
          then ocons ((b0 - 192) * 64 + (b1 - 128))%Z (utf8_decode t1)
          else None
      | _ => None
      end
    else if in_range 224 239 b0 then
      match t0 with
      | b1 :: b2 :: t2 =>
          if in_range (if (b0 =? 224)%Z then 160 else 128)
                      (if (b0 =? 237)%Z then 159 else 191) b1
             && utf8_cont b2
          then ocons ((b0 - 224) * 4096 + (b1 - 128) * 64 + (b2 - 128))%Z
                     (utf8_decode t2)
          else None
      | _ => None
      end
    else if in_range 240 244 b0 then
      match t0 with
      | b1 :: b2 :: b3 :: t3 =>
          if in_range (if (b0 =? 240)%Z then 144 else 128)
                      (if (b0 =? 244)%Z then 143 else 191) b1
             && utf8_cont b2 && utf8_cont b3
          then ocons ((b0 - 240) * 262144 + (b1 - 128) * 4096
                      + (b2 - 128) * 64 + (b3 - 128))%Z
                     (utf8_decode t3)
          else None
      | _ => None
      end
    else None.
Proof. reflexivity. Qed.

Ltac range_true :=
  apply in_range_iff; Z.to_euclidean_division_equations; lia.

Ltac range_false :=
  match goal with
  | |- in_range ?lo ?hi ?x = false =>
      let E := fresh "E" in
      destruct (in_range lo hi x) eqn:E; [|reflexivity];
      apply in_range_iff in E; exfalso;
      Z.to_euclidean_division_equations; lia
  end.

Lemma utf8_decode_encode_char (c : Z) (rest : bytes) :
  unicode_scalar c = true ->
  utf8_decode (utf8_encode_char c ++ rest) = ocons c (utf8_decode rest).
Proof.
  intros Hc. apply unicode_scalar_iff in Hc. unfold utf8_encode_char.
  destruct (Z.ltb_spec c 128) as [H1|H1];
    [|destruct (Z.ltb_spec c 2048) as [H2|H2];
      [|destruct (Z.ltb_spec c 65536) as [H3|H3]]];
    cbn [app]; rewrite utf8_decode_cons.
  - assert (R : in_range 0 127 c = true) by range_true. now rewrite R.
  - assert (R1 : in_range 0 127 (192 + c / 64) = false) by range_false.
    assert (R2 : in_range 194 223 (192 + c / 64) = true) by range_true.
    assert (R3 : utf8_cont (128 + c mod 64) = true) by (unfold utf8_cont; range_true).
    rewrite R1, R2, R3. f_equal. Z.to_euclidean_division_equations; lia.
  - assert (R1 : in_range 0 127 (224 + c / 4096) = false) by range_false.
    assert (R2 : in_range 194 223 (224 + c / 4096) = false) by range_false.
    assert (R3 : in_range 224 239 (224 + c / 4096) = true) by range_true.
    assert (R4 : in_range (if (224 + c / 4096 =? 224)%Z then 160 else 128)
                          (if (224 + c / 4096 =? 237)%Z then 159 else 191)
                          (128 + (c / 64) mod 64) = true).
    { destruct (Z.eqb_spec (224 + c / 4096) 224), (Z.eqb_spec (224 + c / 4096) 237);
        range_true. }
    assert (R5 : utf8_cont (128 + c mod 64) = true) by (unfold utf8_cont; range_true).
    rewrite R1, R2, R3, R4, R5. cbn [andb]. f_equal.
    Z.to_euclidean_division_equations; lia.
  - assert (R1 : in_range 0 127 (240 + c / 262144) = false) by range_false.
    assert (R2 : in_range 194 223 (240 + c / 262144) = false) by range_false.
    assert (R3 : in_range 224 239 (240 + c / 262144) = false) by range_false.
    assert (R4 : in_range 240 244 (240 + c / 262144) = true) by range_true.
    assert (R5 : in_range (if (240 + c / 262144 =? 240)%Z then 144 else 128)
                          (if (240 + c / 262144 =? 244)%Z then 143 else 191)
                          (128 + (c / 4096) mod 64) = true).
    { destruct (Z.eqb_spec (240 + c / 262144) 240), (Z.eqb_spec (240 + c / 262144) 244);
        range_true. }
    assert (R6 : utf8_cont (128 + (c / 64) mod 64) = true)
      by (unfold utf8_cont; range_true).
    assert (R7 : utf8_cont (128 + c mod 64) = true) by (unfold utf8_cont; range_true).
    rewrite R1, R2, R3, R4, R5, R6, R7. cbn [andb]. f_equal.
    Z.to_euclidean_division_equations; lia.
Qed.

Lemma utf8_decode_encode (t : text) :
  forallb unicode_scalar t = true -> utf8_decode (utf8_encode t) = Some t.
Proof.
  induction t as [|c t IH]; [reflexivity|]. cbn [forallb]. intros H.
  apply andb_true_iff in H. destruct H as [Hc Ht].
  unfold utf8_encode. cbn [flat_map]. fold (utf8_encode t).
  rewrite (@utf8_decode_encode_char c (utf8_encode t) Hc), (IH Ht). reflexivity.
Qed.

(** A text file in UTF-8 gives its text, stripped: decoding undoes the
    encoding of any text of Unicode scalar values, and the fallback to
    Latin-1 is not taken. *)
Theorem from_txt_utf8 :
  forall t,
    forallb unicode_scalar t = true -> _from_txt (utf8_encode t) = str_strip t.
Proof.
  intros t H. unfold _from_txt. now rewrite (@utf8_decode_encode t H).
Qed.

Lemma utf8_decode_length (data : bytes) :
  forall t, utf8_decode data = Some t -> List.length t <= List.length data.
Proof.
  assert (H : forall n data, List.length data <= n ->
                forall t, utf8_decode data = Some t -> List.length t <= List.length data).
  { induction n as [|n IH]; intros d Hn t Ht.
    - destruct d; [|simpl in Hn; lia]. injection Ht as <-. simpl. lia.
    - destruct d as [|b0 t0]; [injection Ht as <-; simpl; lia|].
      rewrite utf8_decode_cons in Ht.
      destruct (in_range 0 127 b0).
      { destruct (utf8_decode t0) as [u|] eqn:E; [|discriminate].
        injection Ht as <-. specialize (IH t0 ltac:(simpl in Hn; lia) u E). simpl. lia. }
      destruct (in_range 194 223 b0).
      { destruct t0 as [|b1 t1]; [discriminate|].
        destruct (utf8_cont b1); [|discriminate].
        destruct (utf8_decode t1) as [u|] eqn:E; [|discriminate].
        injection Ht as <-. specialize (IH t1 ltac:(simpl in Hn; lia) u E). simpl. lia. }
      destruct (in_range 224 239 b0).
      { destruct t0 as [|b1 [|b2 t2]]; try discriminate.
        destruct (_ && _); [|discriminate].
        destruct (utf8_decode t2) as [u|] eqn:E; [|discriminate].
        injection Ht as <-. specialize (IH t2 ltac:(simpl in Hn; lia) u E). simpl. lia. }
      destruct (in_range 240 244 b0); [|discriminate].
      destruct t0 as [|b1 [|b2 [|b3 t3]]]; try discriminate.
      destruct (_ && _); [|discriminate].
      destruct (utf8_decode t3) as [u|] eqn:E; [|discriminate].
      injection Ht as <-. specialize (IH t3 ltac:(simpl in Hn; lia) u E). simpl. lia. }
  intros t. now apply (H (List.length data)).
Qed.

Lemma str_strip_length (s : text) : List.length (str_strip s) <= List.length s.
Proof.
  unfold str_strip.
  assert (Hl : forall u, List.length (str_lstrip u) <= List.length u).
  { induction u as [|c u IH]; simpl; [lia|].
    destruct (Py_UNICODE_ISSPACE c); simpl; lia. }
  destruct (str_rstrip_suffix s) as [ws [E _]].
  specialize (Hl (str_rstrip s)).
  rewrite E at 2. rewrite length_app. lia.
Qed.

(** The text of a text file never has more characters than the file has
    bytes, whichever of the two decodings is used. *)
Theorem from_txt_length :
  forall data, List.length (_from_txt data) <= List.length data.
Proof.
  intros data. unfold _from_txt.
  destruct (utf8_decode data) as [t|] eqn:E.
  - pose proof (@utf8_decode_length data t E). pose proof (str_strip_length t). lia.
  - apply str_strip_length.
Qed.

(* ================================================================== *)
(** * ats_analyzer.py: [_parse_json] *)
(* ================================================================== *)

Lemma sre_match_literals {A} (l : text) :
  forall (w : text) (rs : list regex) (s : text) (k : text -> option A),
    Forall2 (fun a c => ignorecase_eq a c = true) l w ->
    sre_match (seqs (map (fun a => Chr (ignorecase_eq a)) l ++ rs)) (w ++ s) k
    = sre_match (seqs rs) s k.
Proof.
  induction l as [|a l IH]; intros w rs s k H; inversion H as [|? c ? w' Hc Hw]; subst.
  - reflexivity.
  - cbn [map app seqs fold_right sre_match]. rewrite Hc.
    exact (IH w' rs s k Hw).
Qed.

Lemma sre_match_literal_fails {A} (l1 l2 : text) (a : Z) :
  forall (w : text) (rs : list regex) (s : text) (k : text -> option A),
    Forall2 (fun a c => ignorecase_eq a c = true) l1 w ->
    match s with
    | c :: _ => ignorecase_eq a c = false
    | [] => True
    end ->
    sre_match (seqs (map (fun a => Chr (ignorecase_eq a)) (l1 ++ a :: l2) ++ rs))
              (w ++ s) k
    = None.
Proof.
  intros w rs s k Hw Hs. rewrite map_app, <- app_assoc.
  rewrite (@sre_match_literals A l1 w
             (map (fun a => Chr (ignorecase_eq a)) (a :: l2) ++ rs) s k Hw).
  cbn [map app seqs fold_right sre_match].
  destruct s as [|c t]; [reflexivity|]. now rewrite Hs.
Qed.

Lemma run_length_exact (p : Z -> bool) (ws y : text) :
  forallb p ws = true ->
  match y with c :: _ => p c = false | [] => True end ->
  run_length p (ws ++ y) = List.length ws.
Proof.
  intros Hws Hy. induction ws as [|c ws IH]; simpl.
  - destruct y as [|c t]; [reflexivity|]. simpl. now rewrite Hy.
  - simpl in Hws. apply andb_true_iff in Hws. destruct Hws as [Hc Hw].
    rewrite Hc, (IH Hw). reflexivity.
Qed.

(** An opening fence at the start is removed with the white space after
    it. *)
Lemma re_sub_at_start_fence (l w ws y : text) :
  Forall2 (fun a c => ignorecase_eq a c = true) l w ->
  forallb Py_UNICODE_ISSPACE ws = true ->
  match y with c :: _ => Py_UNICODE_ISSPACE c = false | [] => True end ->
  re_sub_at_start
    (seqs (map (fun a => Chr (ignorecase_eq a)) l ++ [star Py_UNICODE_ISSPACE]))
    [] (w ++ ws ++ y)
  = y.
Proof.
  intros Hw Hws Hy. unfold re_sub_at_start, re_match.
  rewrite (@sre_match_literals _ l w [star Py_UNICODE_ISSPACE] (ws ++ y) _ Hw).
  unfold star. cbn [seqs fold_right sre_match capped].
  rewrite rep_back_top, (@run_length_exact _ ws y Hws Hy). cbn [Nat.ltb Nat.leb].
  now rewrite skipn_app_length.
Qed.

Lemma re_sub_at_start_none (r : regex) (repl s : text) :
  re_match r s = None -> re_sub_at_start r repl s = s.
Proof. unfold re_sub_at_start. now intros ->. Qed.

Lemma re_match_end_sound (r : regex) (s m rest : text) :
  re_match_end r s = Some (m, rest) ->
  s = m ++ rest /\ Lang r m /\ at_end rest = true.
Proof.
  unfold re_match_end. intros H.
  destruct (sre_match_sound _ _ _ H) as [w [rest' [E [L Hk]]]].
  destruct (at_end rest') eqn:Ea; [|discriminate].
  injection Hk as Hm Hr. subst rest' s.
  rewrite length_app in Hm.
  replace (List.length w + List.length rest - List.length rest) with (List.length w) in Hm by lia.
  rewrite firstn_app_length in Hm. subst m. auto.
Qed.

Lemma re_match_end_complete (r : regex) (w : text) :
  Lang r w -> re_match_end r w <> None.
Proof.
  intros L. unfold re_match_end.
  destruct (sre_match_complete L []
              (fun rest0 => if at_end rest0
                            then Some (firstn (List.length w - List.length rest0) w, rest0)
                            else None) eq_refl) as [a' H].
  rewrite app_nil_r in H. rewrite H. discriminate.
Qed.

Lemma re_search_end_sound (r : regex) (s : text) :
  forall pre m rest,
    re_search_end r s = Some (pre, m, rest) ->
    s = pre ++ m ++ rest /\ Lang r m /\ at_end rest = true.
Proof.
  induction s as [|c t IH]; intros pre m rest H; simpl in H.
  - destruct (re_match_end r []) as [[m0 rest0]|] eqn:E; [|discriminate].
    injection H as <- <- <-. simpl. now apply re_match_end_sound.
  - destruct (re_match_end r (c :: t)) as [[m0 rest0]|] eqn:E.
    + injection H as <- <- <-. simpl. now apply re_match_end_sound.
    + destruct (re_search_end r t) as [[[pre0 m0] rest0]|] eqn:Es; [|discriminate].
      injection H as <- <- <-.
      destruct (IH _ _ _ eq_refl) as [Et L]. split; [|exact L].
      simpl. now rewrite Et.
Qed.

Lemma re_search_end_skip (r : regex) (t : text) :
  forall pre,
    (forall a b, pre = a ++ b -> b <> [] -> re_match_end r (b ++ t) = None) ->
    re_search_end r (pre ++ t)
    = match re_search_end r t with
      | Some (p, m, rest) => Some (pre ++ p, m, rest)
      | None => None
      end.
Proof.
  induction pre as [|c pre IH]; intros H.
  - simpl. destruct (re_search_end r t) as [[[p m] rest]|]; reflexivity.
  - cbn [app re_search_end].
    assert (H0 : re_match_end r ((c :: pre) ++ t) = None)
      by (apply (H [] (c :: pre) eq_refl); discriminate).
    cbn [app] in H0. rewrite H0, IH.
    + destruct (re_search_end r t) as [[[p m] rest]|]; reflexivity.
    + intros a b E Hb. apply (H (c :: a) b); [simpl; now rewrite E|exact Hb].
Qed.

Lemma Lang_FENCE_CLOSE (m : text) :
  Lang RE_FENCE_CLOSE m <->
  exists sp, m = sp ++ [96; 96; 96]%Z /\ forallb Py_UNICODE_ISSPACE sp = true.
Proof.
  unfold RE_FENCE_CLOSE, star. cbn [seqs fold_right]. split.
  - intros H.
    apply Lang_Seq_inv in H. destruct H as [sp [w1 [-> [Hsp H]]]].
    apply Lang_Seq_inv in H. destruct H as [x1 [w2 [-> [H1 H]]]].
    apply Lang_Seq_inv in H. destruct H as [x2 [w3 [-> [H2 H]]]].
    apply Lang_Seq_inv in H. destruct H as [x3 [w4 [-> [H3 H]]]].
    apply Lang_lit_inv in H1, H2, H3. apply Lang_Eps_inv in H. subst.
    apply Lang_Rep_inv in Hsp. destruct Hsp as [Hsp _].
    exists sp. split; [reflexivity|exact Hsp].
  - intros [sp [-> Hsp]].
    constructor; [constructor; [exact Hsp|lia|exact I]|].
    change [96; 96; 96]%Z with ([96%Z] ++ [96%Z] ++ [96%Z] ++ []).
    repeat (constructor; [now apply Lang_lit_inv|]). constructor.
Qed.

Lemma Lang_FENCE_CLOSE_backtick (m : text) : Lang RE_FENCE_CLOSE m -> In 96%Z m.
Proof.
  intros H. apply Lang_FENCE_CLOSE in H. destruct H as [sp [-> _]].
  apply in_or_app. right. now left.
Qed.

Lemma re_match_first_fails (p : Z -> bool) (r : regex) (s : text) :
  match s with c :: _ => p c = false | [] => True end ->
  re_match (Seq (Chr p) r) s = None.
Proof.
  intros H. unfold re_match. cbn [sre_match].
  destruct s as [|c t]; [reflexivity|]. now rewrite H.
Qed.

Lemma no_backtick_head (s : text) :
  ~ In 96%Z s ->
  match s with c :: _ => ignorecase_eq 96 c = false | [] => True end.
Proof.
  destruct s as [|c t]; [trivial|]. intros H.
  change (ignorecase_eq 96 c) with (c =? 96)%Z.
  apply Z.eqb_neq. intros ->. apply H. now left.
Qed.

Lemma RE_FENCE_JSON_head : exists r, RE_FENCE_JSON = Seq (Chr (ignorecase_eq 96)) r.
Proof. eexists. reflexivity. Qed.

Lemma RE_FENCE_OPEN_head : exists r, RE_FENCE_OPEN = Seq (Chr (ignorecase_eq 96)) r.
Proof. eexists. reflexivity. Qed.

Lemma no_fence_unchanged (s : text) :
  match s with c :: _ => ignorecase_eq 96 c = false | [] => True end ->
  re_sub_at_start RE_FENCE_OPEN [] (re_sub_at_start RE_FENCE_JSON [] s) = s.
Proof.
  intros H.
  assert (H1 : re_sub_at_start RE_FENCE_JSON [] s = s).
  { apply re_sub_at_start_none. destruct RE_FENCE_JSON_head as [r ->].
    now apply re_match_first_fails. }
  rewrite H1. apply re_sub_at_start_none. destruct RE_FENCE_OPEN_head as [r ->].
  now apply re_match_first_fails.
Qed.

(** An answer without a backtick is only stripped. *)
Lemma cleaned_answer_plain :
  forall raw, ~ In 96%Z raw -> cleaned_answer raw = str_strip raw.
Proof.
  intros raw H. unfold cleaned_answer. cbv zeta.
  assert (Hs : ~ In 96%Z (str_strip raw))
    by (intros Hin; apply H; now apply str_strip_In).
  rewrite (no_fence_unchanged _ (no_backtick_head _ Hs)).
  unfold re_sub_end.
  destruct (re_search_end RE_FENCE_CLOSE (str_strip raw)) as [[[pre m] rest]|] eqn:E.
  - apply re_search_end_sound in E. destruct E as [E [L _]].
    exfalso. apply Hs. rewrite E. apply in_or_app. right.
    apply in_or_app. left. now apply Lang_FENCE_CLOSE_backtick.
  - apply str_strip_idem.
Qed.

Lemma str_rstrip_trail (x trail : text) :
  forallb Py_UNICODE_ISSPACE trail = true -> str_rstrip (x ++ trail) = str_rstrip x.
Proof.
  intros H. induction x as [|c x IH]; [now apply str_rstrip_all_space|].
  cbn [app]. now rewrite !str_rstrip_cons, IH.
Qed.

Lemma str_rstrip_length (s : text) : List.length (str_rstrip s) <= List.length s.
Proof.
  destruct (str_rstrip_suffix s) as [ws [E _]]. rewrite E at 2.
  rewrite length_app. lia.
Qed.

Lemma str_lstrip_length (s : text) : List.length (str_lstrip s) <= List.length s.
Proof.
  induction s as [|c s IH]; simpl; [lia|].
  destruct (Py_UNICODE_ISSPACE c); simpl; lia.
Qed.

Lemma stripped_fixed (s : text) :
  str_strip s = s -> str_lstrip s = s /\ str_rstrip s = s.
Proof.
  intros H. split.
  - rewrite <- H at 1. unfold str_strip. rewrite str_lstrip_idem. exact H.
  - rewrite <- H at 1. rewrite str_strip_rstrip. exact H.
Qed.

Lemma stripped_head (s : text) :
  str_strip s = s ->
  match s with c :: _ => Py_UNICODE_ISSPACE c = false | [] => True end.
Proof.
  intros H. apply stripped_fixed in H. destruct H as [H _].
  destruct s as [|c t]; [exact I|]. simpl in H.
  destruct (Py_UNICODE_ISSPACE c); [|reflexivity].
  pose proof (str_lstrip_length t) as Hl. rewrite H in Hl. simpl in Hl. lia.
Qed.

Lemma not_all_space_suffix (a b : text) :
  str_rstrip (a ++ b) = a ++ b -> b <> [] -> forallb Py_UNICODE_ISSPACE b = false.
Proof.
  intros H Hb. destruct (forallb Py_UNICODE_ISSPACE b) eqn:E; [|reflexivity].
  rewrite (@str_rstrip_trail a b E) in H.
  pose proof (str_rstrip_length a) as Hl. rewrite H, length_app in Hl.
  destruct b; [contradiction|simpl in Hl; lia].
Qed.

(** Text that starts and ends with a character that is no white space,
    between two runs of white space. *)
Lemma str_strip_frame (lead x trail : text) :
  forallb Py_UNICODE_ISSPACE lead = true ->
  forallb Py_UNICODE_ISSPACE trail = true ->
  x <> [] -> str_strip x = x ->
  str_strip (lead ++ x ++ trail) = x.
Proof.
  intros Hl Ht Hx Hs. apply stripped_fixed in Hs. destruct Hs as [Hls Hrs].
  unfold str_strip. rewrite app_assoc, (@str_rstrip_trail (lead ++ x) trail Ht).
  rewrite str_rstrip_app by (rewrite Hrs; exact Hx).
  rewrite Hrs, (@str_lstrip_spaces lead x Hl). exact Hls.
Qed.

Lemma re_search_end_unfold (r : regex) (s : text) :
  re_search_end r s
  = match re_match_end r s with
    | Some (m, rest) => Some ([], m, rest)
    | None =>
        match s with
        | [] => None
        | c :: t =>
            match re_search_end r t with
            | Some (pre, m, rest) => Some (c :: pre, m, rest)
            | None => None
            end
        end
    end.
Proof. destruct s; reflexivity. Qed.

Lemma fence_at_end (x rest sp : text) :
  x ++ [96; 96; 96]%Z = (sp ++ [96; 96; 96]%Z) ++ rest -> at_end rest = true ->
  rest = [] /\ x = sp.
Proof.
  intros E Ha. destruct rest as [|c [|d rest]]; [| |discriminate].
  - rewrite app_nil_r in E. apply app_inv_tail in E. auto.
  - simpl in Ha. apply Z.eqb_eq in Ha. subst c. exfalso.
    change (x ++ [96; 96; 96]%Z) with (x ++ [96; 96]%Z ++ [96%Z]) in E.
    rewrite app_assoc in E. apply app_inj_tail in E. destruct E as [_ E]. discriminate.
Qed.

(** The closing fence at the end is removed with the white space before
    it. *)
Lemma close_fence_removed (body ws2 : text) :
  body <> [] -> str_rstrip body = body ->
  forallb Py_UNICODE_ISSPACE ws2 = true ->
  re_sub_end RE_FENCE_CLOSE [] (body ++ ws2 ++ [96; 96; 96]%Z) = body.
Proof.
  intros Hb Hr Hws. unfold re_sub_end. rewrite re_search_end_skip.
  - rewrite re_search_end_unfold.
    assert (L : Lang RE_FENCE_CLOSE (ws2 ++ [96; 96; 96]%Z))
      by (apply Lang_FENCE_CLOSE; now exists ws2).
    pose proof (@re_match_end_complete _ _ L) as Hc.
    destruct (re_match_end RE_FENCE_CLOSE (ws2 ++ [96; 96; 96]%Z)) as [[m rest]|] eqn:E;
      [|contradiction].
    apply re_match_end_sound in E. destruct E as [E [Lm Ha]].
    apply Lang_FENCE_CLOSE in Lm. destruct Lm as [sp [-> _]].
    destruct (@fence_at_end _ _ _ E Ha) as [-> _].
    now rewrite !app_nil_r.
  - intros a b Eb Hbn.
    destruct (re_match_end RE_FENCE_CLOSE (b ++ ws2 ++ [96; 96; 96]%Z)) as [[m rest]|] eqn:E;
      [|reflexivity].
    exfalso. apply re_match_end_sound in E. destruct E as [E [Lm Ha]].
    apply Lang_FENCE_CLOSE in Lm. destruct Lm as [sp [-> Hsp]].
    rewrite app_assoc in E. destruct (@fence_at_end _ _ _ E Ha) as [_ Es].
    rewrite <- Es, forallb_app in Hsp. apply andb_true_iff in Hsp. destruct Hsp as [Hsb _].
    rewrite Eb in Hr. rewrite (@not_all_space_suffix a b Hr Hbn) in Hsb. discriminate.
Qed.

Lemma space_is_not_j (c : Z) :
  Py_UNICODE_ISSPACE c = true -> ignorecase_eq 106 c = false.
Proof.
  intros H. change (ignorecase_eq 106 c)
    with ((c =? 106)%Z || (c =? 106 - 32)%Z || false || false || false).
  rewrite !orb_false_r. apply orb_false_iff.
  split; apply Z.eqb_neq; intros ->; discriminate.
Qed.

(** An answer inside a Markdown fence, with the tag json in any case, or
    without a tag and not with the letter j after the fence, is cleaned to
    what the fence holds, whatever white space stands around the answer and
    next to the fences. *)
Lemma fenced_answer_cleaned :
  forall lead tag ws1 body ws2 trail,
    forallb Py_UNICODE_ISSPACE lead = true ->
    forallb Py_UNICODE_ISSPACE ws1 = true ->
    forallb Py_UNICODE_ISSPACE ws2 = true ->
    forallb Py_UNICODE_ISSPACE trail = true ->
    word_text "json" tag
    \/ (tag = [] /\ ignorecase_eq 106 (hd 0%Z (ws1 ++ body)) = false) ->
    body <> [] -> str_strip body = body -> hd 0%Z body <> 96%Z ->
    cleaned_answer
      (lead ++ str "```" ++ tag ++ ws1 ++ body ++ ws2 ++ str "```" ++ trail)
    = body.
Proof.
  intros lead tag ws1 body ws2 trail Hl H1 H2 Ht Htag Hb Hs Hh.
  pose proof (@stripped_head body Hs) as Hhead.
  destruct (@stripped_fixed body Hs) as [_ Hrs].
  set (Y := body ++ ws2 ++ [96; 96; 96]%Z).
  assert (HY : match Y with c :: _ => Py_UNICODE_ISSPACE c = false | [] => True end).
  { subst Y. destruct body; [contradiction|exact Hhead]. }
  assert (HY96 : match Y with c :: _ => ignorecase_eq 96 c = false | [] => True end).
  { subst Y. destruct body as [|c body]; [contradiction|]. simpl in Hh |- *.
    change (ignorecase_eq 96 c) with (c =? 96)%Z. now apply Z.eqb_neq. }
  set (F := [96; 96; 96]%Z ++ tag ++ ws1 ++ Y).
  assert (HF : str_strip F = F).
  { unfold str_strip.
    assert (Hr : str_rstrip F = F).
    { subst F Y. change [96; 96; 96]%Z with ([96; 96]%Z ++ [96%Z]) at 2.
      rewrite !app_assoc. rewrite str_rstrip_app by discriminate.
      change (str_rstrip [96%Z]) with [96%Z]. rewrite <- !app_assoc. reflexivity. }
    rewrite Hr. reflexivity. }
  unfold cleaned_answer. cbv zeta.
  replace (lead ++ str "```" ++ tag ++ ws1 ++ body ++ ws2 ++ str "```" ++ trail)
    with (lead ++ F ++ trail)
    by (subst F Y; change (str "```") with [96; 96; 96]%Z;
        now rewrite <- !app_assoc).
  rewrite (@str_strip_frame lead F trail Hl Ht) by (exact HF || discriminate).
  assert (Hsub : re_sub_at_start RE_FENCE_OPEN [] (re_sub_at_start RE_FENCE_JSON [] F) = Y).
  { destruct Htag as [Htag|[-> Hw1]].
    - assert (E1 : re_sub_at_start RE_FENCE_JSON [] F = Y).
      { subst F. rewrite app_assoc.
        apply (@re_sub_at_start_fence (str "```json") ([96; 96; 96]%Z ++ tag) ws1 Y);
          [|exact H1|exact HY].
        change (str "```json") with ([96; 96; 96]%Z ++ str "json").
        apply Forall2_app; [repeat constructor|exact Htag]. }
      rewrite E1. apply re_sub_at_start_none.
      destruct RE_FENCE_OPEN_head as [r ->]. now apply re_match_first_fails.
    - assert (E1 : re_sub_at_start RE_FENCE_JSON [] F = F).
      { apply re_sub_at_start_none. unfold re_match. subst F. cbn [app].
        change (96 :: 96 :: 96 :: ws1 ++ Y)%Z with ([96; 96; 96]%Z ++ ws1 ++ Y).
        change RE_FENCE_JSON
          with (seqs (map (fun a => Chr (ignorecase_eq a))
                          ([96; 96; 96]%Z ++ 106%Z :: str "son")
                      ++ [star Py_UNICODE_ISSPACE])).
        apply sre_match_literal_fails; [repeat constructor|].
        subst Y. destruct ws1 as [|w ws1]; [|exact Hw1].
        destruct body as [|c body]; [contradiction|exact Hw1]. }
      rewrite E1. subst F. cbn [app].
      change (96 :: 96 :: 96 :: ws1 ++ Y)%Z with ([96; 96; 96]%Z ++ ws1 ++ Y).
      apply (@re_sub_at_start_fence (str "```") [96; 96; 96]%Z ws1 Y);
        [repeat constructor|exact H1|exact HY]. }
  rewrite Hsub. subst Y. rewrite (@close_fence_removed body ws2 Hb Hrs H2). exact Hs.
Qed.

(* ------------------------------------------------------------------ *)
(** ** The fallback: from the first opening to the last closing brace *)










Section ParseJsonProperties.

Variable J : Type.
Variable json_loads : text -> option J.

(** A JSON answer inside a Markdown fence parses to the value of what the
    fence holds, whatever white space, or none, stands around the answer and
    next to the fences: with the tag json in any case, or without a tag
    when the first character after the opening fence is not the letter j. *)
Theorem parse_json_fenced :
  forall lead tag ws1 body ws2 trail v,
    forallb Py_UNICODE_ISSPACE lead = true ->
    forallb Py_UNICODE_ISSPACE ws1 = true ->
    forallb Py_UNICODE_ISSPACE ws2 = true ->
    forallb Py_UNICODE_ISSPACE trail = true ->
    word_text "json" tag
    \/ (tag = [] /\ ignorecase_eq 106 (hd 0%Z (ws1 ++ body)) = false) ->
    body <> [] -> str_strip body = body -> hd 0%Z body <> 96%Z ->
    json_loads body = Some v ->
    _parse_json json_loads
      (lead ++ str "```" ++ tag ++ ws1 ++ body ++ ws2 ++ str "```" ++ trail)
    = Parsed v.
Proof.
  intros lead tag ws1 body ws2 trail v Hl H1 H2 Ht Htag Hb Hs Hh Hv.
  unfold _parse_json. cbv zeta.
  rewrite (@fenced_answer_cleaned lead tag ws1 body ws2 trail Hl H1 H2 Ht Htag Hb Hs Hh).
  now rewrite Hv.
Qed.

(** An answer without a backtick is parsed as it is, stripped: the value of
    the stripped answer when it is JSON. *)
Theorem parse_json_plain :
  forall raw v,
    ~ In 96%Z raw -> json_loads (str_strip raw) = Some v ->
    _parse_json json_loads raw = Parsed v.
Proof.
  intros raw v H Hv. unfold _parse_json. cbv zeta.
  rewrite (@cleaned_answer_plain raw H). now rewrite Hv.
Qed.



End ParseJsonProperties.

(* ================================================================== *)
(** * file_parser.py: when no text comes out *)
(* ================================================================== *)

Lemma str_lstrip_nil (s : text) :
  str_lstrip s = [] -> forallb Py_UNICODE_ISSPACE s = true.
Proof.
  induction s as [|c s IH]; [reflexivity|]. simpl.
  destruct (Py_UNICODE_ISSPACE c); [exact IH|discriminate].
Qed.

Lemma str_strip_nil_iff (s : text) :
  str_strip s = [] <-> forallb Py_UNICODE_ISSPACE s = true.
Proof.
  unfold str_strip. split.
  - intros H. apply str_lstrip_nil in H.
    destruct (str_rstrip_suffix s) as [ws [E Hws]].
    rewrite E, forallb_app, H, Hws. reflexivity.
  - intros H. now rewrite (@str_rstrip_all_space s H).
Qed.

Lemma str_join_all_space (ls : list text) :
  forallb Py_UNICODE_ISSPACE (str_join 10 ls) = true
  <-> Forall (fun l => forallb Py_UNICODE_ISSPACE l = true) ls.
Proof.
  induction ls as [|l ls IH]; [split; [constructor|reflexivity]|].
  destruct ls as [|l' ls'].
  - simpl. split; [intros H; now repeat constructor|intros H; now inversion H].
  - change (str_join 10 (l :: l' :: ls')) with (l ++ 10%Z :: str_join 10 (l' :: ls')).
    rewrite forallb_app. cbn [forallb].
    change (Py_UNICODE_ISSPACE 10) with true. cbn [andb].
    rewrite andb_true_iff, IH. split.
    + intros [H1 H2]. now constructor.
    + intros H. inversion H; subst. auto.
Qed.

Section FileParserEmpty.

Variable pdf_page_texts : bytes -> text + list text.
Variable docx_paragraph_texts : bytes -> text + list text.

(** A PDF or DOCX file gives the empty text exactly when every page, or
    every paragraph, holds white space only (or there is none): the case
    the route answers with "No text could be extracted". *)
Theorem no_text_extracted_iff :
  forall data,
    (forall pages,
        pdf_page_texts data = inr pages ->
        (_from_pdf pdf_page_texts data = inr []
         <-> Forall (fun t => forallb Py_UNICODE_ISSPACE t = true) pages))
    /\ (forall paragraphs,
           docx_paragraph_texts data = inr paragraphs ->
           (_from_docx docx_paragraph_texts data = inr []
            <-> Forall (fun t => forallb Py_UNICODE_ISSPACE t = true) paragraphs)).
Proof.
  intros data. split.
  - intros pages E. unfold _from_pdf. rewrite E.
    assert (H : str_strip (str_join 10 (filter (@truthy Z) pages)) = []
                <-> Forall (fun t => forallb Py_UNICODE_ISSPACE t = true) pages).
    { rewrite str_strip_nil_iff, str_join_all_space, !Forall_forall. split.
      - intros H t Ht. destruct t as [|c t]; [reflexivity|].
        apply H. apply filter_In. split; [exact Ht|reflexivity].
      - intros H t Ht. apply filter_In in Ht. now apply H. }
    rewrite <- H. split; [intros Hi; now injection Hi|intros ->; reflexivity].
  - intros paragraphs E. unfold _from_docx. rewrite E.
    assert (H : str_strip (str_join 10 (filter (fun t => truthy (str_strip t)) paragraphs)) = []
                <-> Forall (fun t => forallb Py_UNICODE_ISSPACE t = true) paragraphs).
    { rewrite str_strip_nil_iff, str_join_all_space, !Forall_forall. split.
      - intros H t Ht.
        destruct (forallb Py_UNICODE_ISSPACE t) eqn:Et; [reflexivity|].
        rewrite <- Et. apply H. apply filter_In. split; [exact Ht|].
        destruct (str_strip t) eqn:Es; [|reflexivity].
        apply str_strip_nil_iff in Es. congruence.
      - intros H t Ht. apply filter_In in Ht. now apply H. }
    rewrite <- H. split; [intros Hi; now injection Hi|intros ->; reflexivity].
Qed.

End FileParserEmpty.

(* ================================================================== *)
(** * Concrete runs of the other modules *)
(* ================================================================== *)

Lemma section_header_iff_witness :
  _is_section_header (str " WORK EXPERIENCE (2019-2024) ") = true.
Proof.
  apply (proj2 (section_header_iff (str " WORK EXPERIENCE (2019-2024) "))).
  split; [vm_compute; lia|]. split; [reflexivity|vm_compute; lia].
Defined.


Lemma entry_first_run_pipe_free_witness :
  re_split RE_PIPE 2 (str_strip (str "Acme | Engineer | 2019 | Pune"))
  = [str "Acme"; str "Engineer"; str "2019 | Pune"]
  /\ ~ In 124%Z (str "Acme") /\ ~ In 124%Z (str "Engineer").
Proof.
  split; [reflexivity|].
  apply (proj2 (entry_first_run_pipe_free (str "Acme | Engineer | 2019 | Pune"))
               (str "Acme") (str "Engineer") (str "2019 | Pune")).
  reflexivity.
Defined.

Lemma white_space_document_witness :
  forallb Py_UNICODE_ISSPACE white_space_sample = true
  /\ to_docx ucd_caseless white_space_sample = to_docx ucd_caseless [].
Proof.
  split; [reflexivity|]. apply white_space_document. reflexivity.
Defined.

Lemma ats_layout_enforced_witness :
  In (name_paragraph (str "Jane Doe"))
     (doc_paragraphs (to_docx ucd_caseless bullet_resume_sample))
  /\ In (mkRun (str "Jane Doe") (Some true) (calibri (Pt_x10 180) (Some (mkRGB 17 17 17))))
        (par_runs (name_paragraph (str "Jane Doe")))
  /\ font_name (calibri (Pt_x10 180) (Some (mkRGB 17 17 17))) = Some "Calibri"
  /\ In (font_size (calibri (Pt_x10 180) (Some (mkRGB 17 17 17))))
        [Some (Pt_x10 180); Some (Pt_x10 110); Some (Pt_x10 105); Some (Pt_x10 100)].
Proof.
  assert (Hp : In (name_paragraph (str "Jane Doe"))
                  (doc_paragraphs (to_docx ucd_caseless bullet_resume_sample)))
    by (left; reflexivity).
  assert (Hr : In (mkRun (str "Jane Doe") (Some true)
                         (calibri (Pt_x10 180) (Some (mkRGB 17 17 17))))
                  (par_runs (name_paragraph (str "Jane Doe"))))
    by (left; reflexivity).
  split; [exact Hp|]. split; [exact Hr|].
  exact (proj2 (proj2 (ats_layout_enforced ucd_caseless bullet_resume_sample)) _ _ Hp Hr).
Defined.


Lemma ascii_header_text_unchanged_witness :
  _is_section_header (str " SKILLS & TOOLS ") = true
  /\ checked (section_header_paragraph ucd_caseless (str " SKILLS & TOOLS "))
     = Some (mkParagraph None None (Some (Pt_x10 100)) (Some (Pt_x10 30)) None
               (Some (mkBorder "single" "4" "1" "AAAAAA"))
               [mkRun (str "SKILLS & TOOLS") (Some true)
                      (calibri (Pt_x10 110) (Some (mkRGB 17 17 17)))]).
Proof.
  split; [reflexivity|].
  apply (@ascii_header_text_unchanged ucd_caseless (str " SKILLS & TOOLS "));
    reflexivity.
Defined.

Lemma extract_text_by_extension_witness :
  extract_text ucd_caseless three_pages_reader failing_reader [] (str "cv.PdF")
  = inr (str "Jane Doe" ++ [10%Z] ++ str " Engineer")
  /\ extract_text ucd_caseless three_pages_reader failing_reader [] (str "cv.DOCX")
     = inl (str "Could not parse file: File is not a zip file").
Proof.
  assert (Hs : str "cv" <> []) by discriminate.
  assert (H47 : ~ In 47%Z (str "cv")).
  { intros [H|[H|[]]]; discriminate H. }
  split.
  - apply (proj1 (@extract_text_by_extension ucd_caseless three_pages_reader
                    failing_reader [] (str "cv") (str "PdF") Hs H47)).
    constructor; [right; reflexivity|].
    constructor; [left; reflexivity|].
    constructor; [right; reflexivity|constructor].
  - apply (proj1 (proj2 (@extract_text_by_extension ucd_caseless three_pages_reader
                           failing_reader [] (str "cv") (str "DOCX") Hs H47))).
    left. repeat (constructor; [right; reflexivity|]). constructor.
Defined.

Lemma extract_text_without_extension_witness :
  ~ In 46%Z (str "resume")
  /\ extract_text ucd_caseless three_pages_reader failing_reader txt_file_sample
       (str "resume")
     = inl (unsupported_message []).
Proof.
  assert (H : ~ In 46%Z (str "resume")).
  { intros [H|[H|[H|[H|[H|[H|[]]]]]]]; discriminate H. }
  split; [exact H|].
  exact (@extract_text_without_extension ucd_caseless three_pages_reader failing_reader
           txt_file_sample (str "resume") H).
Defined.

Lemma extract_text_return_unreachable_witness :
  existsb (text_eqb (str ".doc")) ALLOWED = true
  /\ parse_by_extension three_pages_reader failing_reader (str ".doc") [] <> None.
Proof.
  split; [reflexivity|].
  apply (@extract_text_return_unreachable three_pages_reader failing_reader (str ".doc") []).
  reflexivity.
Defined.

Lemma extract_text_stripped_witness :
  extract_text ucd_caseless three_pages_reader failing_reader txt_file_sample
    (str "notes/cv.txt")
  = inr [104; 105; 233]%Z
  /\ str_strip [104; 105; 233]%Z = [104; 105; 233]%Z.
Proof.
  assert (H : extract_text ucd_caseless three_pages_reader failing_reader txt_file_sample
                (str "notes/cv.txt")
              = inr [104; 105; 233]%Z) by reflexivity.
  split; [exact H|].
  exact (@extract_text_stripped ucd_caseless three_pages_reader failing_reader
           txt_file_sample (str "notes/cv.txt") _ H).
Defined.

Lemma from_txt_utf8_witness :
  forallb unicode_scalar unicode_sample = true
  /\ _from_txt (utf8_encode unicode_sample) = [233; 8226; 128512; 65]%Z.
Proof.
  split; [reflexivity|].
  rewrite (@from_txt_utf8 unicode_sample eq_refl). reflexivity.
Defined.

Lemma no_text_extracted_iff_witness :
  _from_pdf blank_pages_reader [] = inr [].
Proof.
  apply (proj2 (proj1 (no_text_extracted_iff blank_pages_reader failing_reader [])
                      [str "  "; [10; 9]%Z; []] eq_refl)).
  repeat constructor.
Defined.

Lemma parse_json_fenced_witness :
  _parse_json loads_empty_object fenced_answer_sample = Parsed 0
  /\ _parse_json loads_empty_object (str "```{}```") = Parsed 0.
Proof.
  split.
  - apply (@parse_json_fenced nat loads_empty_object
             [10%Z] (str "JSON") [10%Z] (str "{}") [10%Z] (str "  ") 0);
      try reflexivity.
    + left. repeat (constructor; [reflexivity|]). constructor.
    + discriminate.
    + discriminate.
  - apply (@parse_json_fenced nat loads_empty_object [] [] [] (str "{}") [] [] 0);
      try reflexivity.
    + right. split; reflexivity.
    + discriminate.
    + discriminate.
Defined.

Lemma parse_json_plain_witness :
  ~ In 96%Z (str " {} ")
  /\ _parse_json loads_empty_object (str " {} ") = Parsed 0.
Proof.
  assert (H : ~ In 96%Z (str " {} ")).
  { intros [H|[H|[H|[H|[]]]]]; discriminate H. }
  split; [exact H|].
  exact (@parse_json_plain nat loads_empty_object (str " {} ") 0 H eq_refl).
Defined.



(* ================================================================== *)
(** * routes/analyze.py: the upload *)
(* ================================================================== *)

Section AnalyzeRouteProperties.

Variable ucd : UnicodeData.
Variable pdf_page_texts : bytes -> text + list text.
Variable docx_paragraph_texts : bytes -> text + list text.

(** An upload without a file name, or with a name that holds no dot, is
    answered with status 400 and the message for an unsupported format with
    an empty extension, whatever the bytes: the stand-in name resume has no
    extension. *)
Theorem upload_without_extension_refused :
  forall filename data,
    match filename with Some f => ~ In 46%Z f | None => True end ->
    analyze_resume_text ucd pdf_page_texts docx_paragraph_texts filename data
    = inl (mkHTTPException 400 (unsupported_message [])).
Proof.
  intros filename data H. unfold analyze_resume_text.
  assert (Hn : ~ In 46%Z (upload_filename filename)).
  { assert (Hr : ~ In 46%Z (str "resume")).
    { intros [E|[E|[E|[E|[E|[E|[]]]]]]]; discriminate E. }
    destruct filename as [f|]; [|exact Hr]. unfold upload_filename.
    destruct (truthy f); [exact H|exact Hr]. }
  unfold extract_text. cbv zeta.
  assert (Hs : Path_suffix (upload_filename filename) = []).
  { unfold Path_suffix. cbv zeta. rewrite str_rfind_absent; [reflexivity|].
    intros Hin. apply Hn. now apply Path_name_In. }
  rewrite Hs. reflexivity.
Qed.

(** The text goes on to the analysis exactly when [extract_text] returns it
    and it is not empty: the second strip of the route changes nothing, and
    the text that is analysed has no white space at either end. *)
Theorem analysed_text_iff :
  forall filename data t,
    analyze_resume_text ucd pdf_page_texts docx_paragraph_texts filename data = inr t
    <-> extract_text ucd pdf_page_texts docx_paragraph_texts data
                     (upload_filename filename) = inr t
        /\ t <> [] /\ str_strip t = t.
Proof.
  intros filename data t. unfold analyze_resume_text.
  destruct (extract_text ucd pdf_page_texts docx_paragraph_texts data
                         (upload_filename filename)) as [e|u] eqn:E.
  - split; [discriminate|intros [H _]; discriminate].
  - assert (Hu : str_strip u = u).
    { revert E. unfold extract_text. cbv zeta.
      destruct (negb _); [discriminate|].
      unfold parse_by_extension, _from_pdf, _from_docx, _from_txt.
      destruct (text_eqb _ (str ".pdf")).
      { destruct (pdf_page_texts data); [discriminate|].
        intros H. injection H as <-. apply str_strip_idem. }
      destruct (existsb _ _).
      { destruct (docx_paragraph_texts data); [discriminate|].
        intros H. injection H as <-. apply str_strip_idem. }
      destruct (text_eqb _ (str ".txt")); intros H; injection H as <-;
        [apply str_strip_idem|reflexivity]. }
    rewrite Hu. destruct u as [|c u]; cbn [truthy negb].
    + split; [discriminate|]. intros [H [Hn _]]. injection H as <-. contradiction.
    + split.
      * intros H. injection H as <-. split; [reflexivity|]. split; [discriminate|exact Hu].
      * intros [H _]. injection H as <-. reflexivity.
Qed.

End AnalyzeRouteProperties.

(** The route hands [analyze] the stripped job description in both cases of
    its test, the value it also stores, and [analyze] finds the same has_jd
    from it as the route does from the field. *)
Theorem job_description_mode_agrees :
  forall job_description,
    analyzer_job_description job_description = str_strip job_description
    /\ has_jd (analyzer_job_description job_description) = has_jd job_description.
Proof.
  intros jd.
  assert (H : analyzer_job_description jd = str_strip jd).
  { unfold analyzer_job_description, has_jd.
    destruct (str_strip jd); reflexivity. }
  split; [exact H|]. rewrite H. unfold has_jd. now rewrite str_strip_idem.
Qed.

Lemma upload_without_extension_refused_witness :
  analyze_resume_text ucd_caseless three_pages_reader failing_reader None txt_file_sample
  = inl (mkHTTPException 400 (unsupported_message [])).
Proof.
  exact (@upload_without_extension_refused ucd_caseless three_pages_reader failing_reader
           None txt_file_sample I).
Defined.

Lemma analysed_text_iff_witness :
  analyze_resume_text ucd_caseless three_pages_reader failing_reader
    (Some (str "cv.txt")) txt_file_sample
  = inr [104; 105; 233]%Z.
Proof.
  apply (proj2 (@analysed_text_iff ucd_caseless three_pages_reader failing_reader
                  (Some (str "cv.txt")) txt_file_sample [104; 105; 233]%Z)).
  split; [reflexivity|]. split; [discriminate|reflexivity].
Defined.

(* ================================================================== *)
(** * Concrete runs of the conversion with python-docx's refusals *)
(* ================================================================== *)

(** A form feed inside the first line: the name is refused by [add_run],
    the conversion raises, and there is no document with one paragraph for
    each of the two lines. *)
Lemma form_feed_gives_no_document :
  List.length (normalize form_feed_text) = 2
  /\ to_docx_checked ucd_caseless form_feed_text = None
  /\ ~ (exists doc,
           to_docx_checked ucd_caseless form_feed_text = Some doc
           /\ List.length (doc_paragraphs doc)
              = List.length (normalize form_feed_text)).
Proof.
  split; [reflexivity|]. split; [reflexivity|].
  intros [doc [H _]]. vm_compute in H. discriminate H.
Qed.

(** A carriage return inside a line is kept as a break, which reads as a
    line feed. *)
Example carriage_return_stored :
  option_map (fun doc => map (fun p => map run_text (par_runs p)) (doc_paragraphs doc))
             (to_docx_checked ucd_caseless carriage_return_text)
  = Some [[str "Jane Doe"]; [str "SKILLS" ++ [10%Z] ++ str "TOOLS"]].
Proof. reflexivity. Qed.

Lemma paragraphs_mirror_lines_witness :
  exists doc,
    to_docx_checked ucd_caseless carriage_return_text = Some doc
    /\ List.length (doc_paragraphs doc)
       = List.length (normalize carriage_return_text).
Proof.
  destruct (to_docx_checked ucd_caseless carriage_return_text) as [doc|] eqn:E;
    [|vm_compute in E; discriminate E].
  exists doc. split; [reflexivity|].
  destruct (paragraphs_mirror_lines ucd_caseless carriage_return_text)
    as [_ [_ [H _]]].
  exact (proj2 (H doc E)).
Defined.

Lemma plain_text_document_witness :
  to_docx_checked ucd_caseless scenario_text = Some (to_docx ucd_caseless scenario_text).
Proof.
  apply (@plain_text_document ucd_caseless scenario_text).
  intros p r Hp Hr. vm_compute in Hp.
  repeat (destruct Hp as [<-|Hp];
          [vm_compute in Hr;
           repeat (destruct Hr as [<-|Hr]; [reflexivity|]); destruct Hr|]).
  destruct Hp.
Defined.
